(** * Rocket.Chat channel plugin: inbound pipeline

    A shallow embedding of the inbound message pipeline of the Rocket.Chat
    channel plugin (monitor.ts, realtime.ts):

    - [JS]       the string primitives the code relies on;
    - [Dedupe]   [createDedupeCache], a [Map<string, number>] kept in
                 insertion order;
    - [Allow]    allow-list normalisation and [isSenderAllowed];
    - [Onchar]   trigger-prefix handling;
    - [Monitor]  the metadata caches, the debouncer callbacks and the
                 access decisions of [handleMessage];
    - [Realtime] the DDP connection of [createRealtimeConnection] as an
                 event-driven state machine;
    - [Client], [Send], [Channel]  URL normalisation, outbound targets and
                 the plugin's allow-list helpers (client.ts, send.ts,
                 channel.ts);
    - [Accounts] account resolution (accounts.ts, group-mentions.ts);
    - [Provider] the debounce key and the re-login decision of
                 [monitorRocketChatProvider].

    Numbers are [Z] (timestamps are integral milliseconds), strings are
    sequences of code units, one [ascii] per code unit (the code units
    0..255), [undefined]/[null] are [None]. *)

From Stdlib Require Import ZArith Lia Ascii String List Bool DecimalString.
From stdpp Require Import base gmap strings list.

Open Scope string_scope.
Open Scope list_scope.
Open Scope Z_scope.

(** ** JavaScript string primitives *)

Module JS.

(** [WhiteSpace] and [LineTerminator] code units below 256: TAB, LF, VT,
    FF, CR, SP and NBSP. *)
Definition isWhiteSpace (c : ascii) : bool :=
  let n := nat_of_ascii c in
  ((9 <=? n)%nat && (n <=? 13)%nat) || (n =? 32)%nat || (n =? 160)%nat.

(** [String.prototype.trimStart]. *)
Fixpoint trimStart (s : string) : string :=
  match s with
  | EmptyString => EmptyString
  | String c s' => if isWhiteSpace c then trimStart s' else s
  end.

(** [String.prototype.trimEnd]. *)
Fixpoint trimEnd (s : string) : string :=
  match s with
  | EmptyString => EmptyString
  | String c s' =>
      let t := trimEnd s' in
      if isWhiteSpace c && (t =? "")%string then EmptyString else String c t
  end.

(** [String.prototype.trim]. *)
Definition trim (s : string) : string := trimEnd (trimStart s).

(** Truthiness of a string: only the empty string is falsy. *)
Definition truthy (s : string) : bool := negb (s =? "")%string.

(** Truthiness of [string | undefined | null]. *)
Definition truthyOpt (s : option string) : bool :=
  match s with
  | Some s => truthy s
  | None => false
  end.

(** [s.startsWith(p)]. *)
Definition startsWith (s p : string) : bool := String.prefix p s.

(** [s.slice(n)] for [0 <= n]. *)
Fixpoint slice (n : nat) (s : string) : string :=
  match n, s with
  | O, _ => s
  | S n', EmptyString => EmptyString
  | S n', String _ s' => slice n' s'
  end.

(** [xs.join(sep)]. *)
Fixpoint join (sep : string) (xs : list string) : string :=
  match xs with
  | [] => ""
  | [x] => x
  | x :: rest => x +:+ sep +:+ join sep rest
  end.

(** [s.includes(t)]. *)
Fixpoint includes (s t : string) : bool :=
  String.prefix t s ||
  match s with
  | EmptyString => false
  | String _ s' => includes s' t
  end.

(** Lower-casing of one code unit below 256: A-Z, and U+00C0..U+00DE
    except the multiplication sign U+00D7. *)
Definition lowerChar (c : ascii) : ascii :=
  let n := nat_of_ascii c in
  if ((65 <=? n)%nat && (n <=? 90)%nat)
     || ((192 <=? n)%nat && (n <=? 222)%nat && negb (n =? 215)%nat)
  then ascii_of_nat (n + 32) else c.

(** [String.prototype.toLowerCase]. *)
Fixpoint toLowerCase (s : string) : string :=
  match s with
  | EmptyString => EmptyString
  | String c s' => String (lowerChar c) (toLowerCase s')
  end.

(** The line feed used by [join("\n")]. *)
Definition LF : string := String (ascii_of_nat 10) EmptyString.

(** Two code units match under the [i] flag of a regular expression. *)
Definition eqCI (a b : ascii) : bool := Ascii.eqb (lowerChar a) (lowerChar b).

(** [\w] without the [u] flag: [A-Za-z0-9_]. *)
Definition isWordChar (c : ascii) : bool :=
  let n := nat_of_ascii c in
  ((48 <=? n)%nat && (n <=? 57)%nat) || ((65 <=? n)%nat && (n <=? 90)%nat)
  || ((97 <=? n)%nat && (n <=? 122)%nat) || (n =? 95)%nat.

(** The literal [pat] followed by [\b] matches at the head of [text],
    under the [i] flag; [prev] is the code unit matched last. *)
Fixpoint matchLiteralB (pat text : string) (prev : ascii) : bool :=
  match pat with
  | EmptyString =>
      xorb (isWordChar prev)
           match text with
           | String c _ => isWordChar c
           | EmptyString => false
           end
  | String p pat' =>
      match text with
      | String c text' => eqCI p c && matchLiteralB pat' text' c
      | EmptyString => false
      end
  end.

(** [text.replace(new RegExp(pat + "\\b", "gi"), " ")] for a literal,
    non-empty [pat]: matches are taken left to right and do not overlap;
    [skip] counts the code units of the current match still to drop. *)
Fixpoint replaceLiteralB (pat : string) (skip : nat) (text : string) : string :=
  match text with
  | EmptyString => EmptyString
  | String c rest =>
      match skip with
      | S k => replaceLiteralB pat k rest
      | O =>
          if matchLiteralB pat text c
          then String " "%char (replaceLiteralB pat (String.length pat - 1) rest)
          else String c (replaceLiteralB pat O rest)
      end
  end.

(** [s.replace(/\s+/g, " ")] *)
Fixpoint collapseWhiteSpace (s : string) : string :=
  match s with
  | EmptyString => EmptyString
  | String c s' =>
      if isWhiteSpace c then
        match s' with
        | String c' _ =>
            if isWhiteSpace c' then collapseWhiteSpace s'
            else String " "%char (collapseWhiteSpace s')
        | EmptyString => " "
        end
      else String c (collapseWhiteSpace s')
  end.

(** [String(n)] for a length. *)
Definition ofNat (n : nat) : string := NilEmpty.string_of_uint (Nat.to_uint n).

End JS.

(** ** The dedup cache of [createDedupeCache] *)

Module Dedupe.

(** [Map<string, number>]: the entries in insertion order, which is the
    order [for .. of] and [keys()] visit them in.  The keys of a [Map] are
    pairwise distinct ([wf]). *)
Definition Cache : Type := list (string * Z).

Definition keys (c : Cache) : list string := map fst c.

Definition wf (c : Cache) : Prop := NoDup (keys c).

(** [cache.size] *)
Definition size (c : Cache) : Z := Z.of_nat (length c).

(** [cache.get(key)] *)
Fixpoint get (key : string) (c : Cache) : option Z :=
  match c with
  | [] => None
  | (k, v) :: rest => if (k =? key)%string then Some v else get key rest
  end.

(** [cache.delete(key)] *)
Fixpoint delete (key : string) (c : Cache) : Cache :=
  match c with
  | [] => []
  | (k, v) :: rest =>
      if (k =? key)%string then delete key rest else (k, v) :: delete key rest
  end.

(** [cache.set(key, value)]: an existing key keeps its place, a new one
    goes last. *)
Fixpoint set (key : string) (value : Z) (c : Cache) : Cache :=
  match c with
  | [] => [(key, value)]
  | (k, v) :: rest =>
      if (k =? key)%string then (k, value) :: rest
      else (k, v) :: set key value rest
  end.

Record Options : Type := { ttlMs : Z; maxSize : Z }.

(** [for (const [k, v] of cache) if (v < cutoff) cache.delete(k)] *)
Fixpoint prune (cutoff : Z) (c : Cache) : Cache :=
  match c with
  | [] => []
  | (k, v) :: rest =>
      if v <? cutoff then prune cutoff rest else (k, v) :: prune cutoff rest
  end.

(** [while (cache.size > maxSize) { oldest = first key; if (!oldest) break;
    cache.delete(oldest) }].  The first key occurs once, so deleting it
    leaves the tail ([delete_head]). *)
Fixpoint evict (maxSize : Z) (c : Cache) : Cache :=
  if size c >? maxSize then
    match c with
    | [] => []
    | (oldest, v) :: rest =>
        if JS.truthy oldest then evict maxSize rest else c
    end
  else c.

(** [cache.delete(key); cache.set(key, now)] *)
Definition record (key : string) (now : Z) (c : Cache) : Cache :=
  set key now (delete key c).

(** [check(key, now)]: the returned flag and the cache afterwards. *)
Definition check (o : Options) (key : option string) (now : Z) (c : Cache)
  : bool * Cache :=
  match key with
  | None => (false, c)
  | Some key =>
      if negb (JS.truthy key) then (false, c)
      else
        let seen :=
          match get key c with
          | Some existing => now - existing <? ttlMs o
          | None => false
          end in
        if seen then (true, record key now c)
        else
          let c1 := record key now c in
          if size c1 >? maxSize o then
            let cutoff := now - ttlMs o in
            (false, evict (maxSize o) (prune cutoff c1))
          else (false, c1)
  end.

Definition RECENT_MESSAGE_TTL_MS : Z := 5 * 60000.
Definition RECENT_MESSAGE_MAX : Z := 2000.

(** The options of [recentInboundMessages]. *)
Definition recentOptions : Options :=
  {| ttlMs := RECENT_MESSAGE_TTL_MS; maxSize := RECENT_MESSAGE_MAX |}.

(** A sequence of [check] calls on one cache, oldest call first. *)
Fixpoint run (o : Options) (calls : list (option string * Z)) (c : Cache)
  : Cache :=
  match calls with
  | [] => c
  | (key, now) :: rest => run o rest (snd (check o key now c))
  end.

End Dedupe.

(** ** Allow-lists *)

Module Allow.

(** [s.replace(/^(rocketchat|user):/i, "")]: the alternatives are tried in
    order at position 0; a letter matches in either case. *)
Definition stripChannelPrefix (s : string) : string :=
  if String.prefix "rocketchat:" (JS.toLowerCase s) then JS.slice 11 s
  else if String.prefix "user:" (JS.toLowerCase s) then JS.slice 5 s
  else s.

(** [s.replace(/^@/, "")] *)
Definition stripAt (s : string) : string :=
  if String.prefix "@" s then JS.slice 1 s else s.

Definition normalizeAllowEntry (entry : string) : string :=
  let trimmed := JS.trim entry in
  if negb (JS.truthy trimmed) then ""
  else if (trimmed =? "*")%string then "*"
  else JS.toLowerCase (stripAt (stripChannelPrefix trimmed)).

(** [Array.from(new Set(xs))]: the first occurrence of each value, in
    order. *)
Fixpoint unique (xs : list string) : list string :=
  match xs with
  | [] => []
  | x :: rest => x :: List.filter (fun y => negb (y =? x)%string) (unique rest)
  end.

(** [normalizeAllowList]; an entry that is a number has been rendered by
    [String(e)]. *)
Definition normalizeAllowList (entries : list string) : list string :=
  unique (List.filter JS.truthy (map normalizeAllowEntry entries)).

(** [allowFrom.includes(x)] *)
Definition includes (allowFrom : list string) (x : string) : bool :=
  existsb (fun e => (e =? x)%string) allowFrom.

Definition isSenderAllowed (senderId : string) (senderName : option string)
    (allowFrom : list string) : bool :=
  if (length allowFrom =? 0)%nat then false
  else if includes allowFrom "*" then true
  else
    let nId := normalizeAllowEntry senderId in
    let nName :=
      match senderName with
      | Some n => if JS.truthy n then normalizeAllowEntry n else ""
      | None => ""
      end in
    existsb (fun e => (e =? nId)%string || (JS.truthy nName && (e =? nName)%string))
            allowFrom.

End Allow.

(** ** Trigger prefixes (chat mode "onchar") *)

Module Onchar.

Definition DEFAULT_ONCHAR_PREFIXES : list string := [">"; "!"].

Definition resolveOncharPrefixes (prefixes : option (list string)) : list string :=
  let cleaned :=
    match prefixes with
    | Some ps => List.filter JS.truthy (map JS.trim ps)
    | None => DEFAULT_ONCHAR_PREFIXES
    end in
  if (0 <? length cleaned)%nat then cleaned else DEFAULT_ONCHAR_PREFIXES.

Record Stripped : Type := { triggered : bool; stripped : string }.

(** The [for] loop of [stripOncharPrefix] over the remaining prefixes. *)
Fixpoint stripLoop (text trimmed : string) (prefixes : list string) : Stripped :=
  match prefixes with
  | [] => {| triggered := false; stripped := text |}
  | prefix :: rest =>
      if negb (JS.truthy prefix) then stripLoop text trimmed rest
      else if JS.startsWith trimmed prefix then
        {| triggered := true;
           stripped := JS.trimStart (JS.slice (String.length prefix) trimmed) |}
      else stripLoop text trimmed rest
  end.

Definition stripOncharPrefix (text : string) (prefixes : list string) : Stripped :=
  stripLoop text (JS.trimStart text) prefixes.

End Onchar.

(** ** The message monitor *)

Module Monitor.

(** *** Wire types (client.ts) *)

Record RocketChatFile : Type :=
  { f_id : string; f_name : option string; f_type : option string }.

Record RocketChatAttachment : Type :=
  { title : option string;
    title_link : option string;
    image_url : option string;
    audio_url : option string;
    video_url : option string;
    a_type : option string }.

(** [ts?: { $date: number } | string | null] *)
Inductive MessageTs : Type :=
| TsDate (date : Z)
| TsString (s : string).

Record RocketChatSender : Type :=
  { u_id : string; u_username : option string; u_name : option string }.

Record RocketChatMessage : Type :=
  { m_id : string;
    rid : option string;
    msg : option string;
    ts : option MessageTs;
    u : option RocketChatSender;
    tmid : option string;
    file : option RocketChatFile;
    files : option (list RocketChatFile);
    attachments : option (list RocketChatAttachment);
    t : option string }.

Record RocketChatRoom : Type :=
  { r_id : string;
    r_name : option string;
    r_fname : option string;
    r_t : option string;
    r_topic : option string;
    r_teamId : option string }.

Record RocketChatUser : Type :=
  { usr_id : string;
    usr_username : option string;
    usr_name : option string;
    usr_status : option string }.

(** How an awaited call completes. *)
Inductive Completion (T : Type) : Type :=
| Returned (v : T)
| Thrown (err : string).
Arguments Returned {T} v.
Arguments Thrown {T} err.

(** *** Metadata caches *)

Definition ROOM_CACHE_TTL_MS : Z := 5 * 60000.
Definition USER_CACHE_TTL_MS : Z := 10 * 60000.

Record Cached (T : Type) : Type := { value : option T; expiresAt : Z }.
Arguments value {T} _.
Arguments expiresAt {T} _.

(** [resolveRoomInfo]: [fetchChannel] is the REST call, [t0] is [Date.now()]
    when the cache is read and [t1] is [Date.now()] when the answer is
    stored.  Returns how the call completes and the cache afterwards. *)
Definition resolveRoomInfo (fetchChannel : string -> Completion RocketChatRoom)
    (t0 t1 : Z) (roomId : string) (roomCache : gmap string (Cached RocketChatRoom))
  : Completion (option RocketChatRoom) * gmap string (Cached RocketChatRoom) :=
  let refetch :=
    match fetchChannel roomId with
    | Returned info =>
        (Returned (Some info),
         <[roomId := {| value := Some info; expiresAt := t1 + ROOM_CACHE_TTL_MS |}]> roomCache)
    | Thrown err =>
        (Returned None,
         <[roomId := {| value := None; expiresAt := t1 + ROOM_CACHE_TTL_MS |}]> roomCache)
    end in
  match roomCache !! roomId with
  | Some cached =>
      if expiresAt cached >? t0 then (Returned (value cached), roomCache) else refetch
  | None => refetch
  end.

(** [resolveUserInfo], with [fetchUser]. *)
Definition resolveUserInfo (fetchUser : string -> Completion RocketChatUser)
    (t0 t1 : Z) (uid : string) (userCache : gmap string (Cached RocketChatUser))
  : Completion (option RocketChatUser) * gmap string (Cached RocketChatUser) :=
  let refetch :=
    match fetchUser uid with
    | Returned info =>
        (Returned (Some info),
         <[uid := {| value := Some info; expiresAt := t1 + USER_CACHE_TTL_MS |}]> userCache)
    | Thrown err =>
        (Returned None,
         <[uid := {| value := None; expiresAt := t1 + USER_CACHE_TTL_MS |}]> userCache)
    end in
  match userCache !! uid with
  | Some cached =>
      if expiresAt cached >? t0 then (Returned (value cached), userCache) else refetch
  | None => refetch
  end.

(** *** Debouncer callbacks *)

Record Entry : Type := { roomId : string; e_msg : RocketChatMessage }.

(** [e.msg.msg?.trim() ?? ""] *)
Definition trimmedText (m : RocketChatMessage) : string :=
  match msg m with
  | Some s => JS.trim s
  | None => ""
  end.

(** [shouldDebounce]; [hasControlCommand] is the SDK's
    [core.channel.text.hasControlCommand(text, cfg)]. *)
Definition shouldDebounce (hasControlCommand : string -> bool) (entry : Entry) : bool :=
  let m := e_msg entry in
  if match file m with Some _ => true | None => false end
     || match files m with Some fs => negb (length fs =? 0)%nat | None => false end
  then false
  else
    let text := trimmedText m in
    if negb (JS.truthy text) then false
    else negb (hasControlCommand text).

(** [onFlush]: the calls of [handleMessage] it makes, as (room, message)
    pairs. *)
Definition onFlush (entries : list Entry) : list (string * RocketChatMessage) :=
  match last (A := Entry) entries with
  | None => []
  | Some lastE =>
      if (length entries =? 1)%nat then [(roomId lastE, e_msg lastE)]
      else
        let combinedText :=
          JS.join JS.LF (List.filter JS.truthy (map (fun e => trimmedText (e_msg e)) entries)) in
        let lm := e_msg lastE in
        let mergedMsg :=
          {| m_id := m_id lm; rid := rid lm; msg := Some combinedText; ts := ts lm;
             u := u lm; tmid := tmid lm; file := None; files := None;
             attachments := None; t := t lm |} in
        [(roomId lastE, mergedMsg)]
  end.

(** *** Message handling *)

Inductive ChatType : Type := direct | group | channel.

Definition ChatType_eqb (a b : ChatType) : bool :=
  match a, b with
  | direct, direct | group, group | channel, channel => true
  | _, _ => false
  end.

Inductive DmPolicy : Type := dm_pairing | dm_allowlist | dm_open | dm_disabled.
Inductive GroupPolicy : Type := gp_allowlist | gp_open | gp_disabled.
Inductive ChatMode : Type := oncall | onmessage | onchar.

Inductive MediaKind : Type := image | audio | video | document | unknown.

Definition MediaKind_name (k : MediaKind) : string :=
  match k with
  | image => "image" | audio => "audio" | video => "video"
  | document => "document" | unknown => "unknown"
  end.

Record RocketChatMediaInfo : Type :=
  { path : string; contentType : option string; kind : MediaKind }.

(** The account and configuration values [handleMessage] reads. *)
Record Account : Type :=
  { accountId : string;
    dmPolicy : option DmPolicy;
    groupPolicy : option GroupPolicy;
    defaultGroupPolicy : option GroupPolicy;
    allowFrom : option (list string);
    groupAllowFrom : option (list string);
    useAccessGroups : option bool;
    chatmode : option ChatMode;
    oncharPrefixes : option (list string);
    botUserId : string;
    botUsername : option string }.

Record CommandAuthorizer : Type := { configured : bool; allowed : bool }.
Record CommandGate : Type := { commandAuthorized : bool; shouldBlock : bool }.
Record AgentRoute : Type :=
  { sessionKey : string; agentId : string; routeAccountId : string }.
Record PairingRequest : Type := { code : string; created : bool }.

(** What a download of one file or attachment is asked for. *)
Inductive MediaSource : Type :=
| FileSource (f : RocketChatFile)
| UrlSource (a : RocketChatAttachment) (url : string).

(** The plugin SDK ([core], openclaw/plugin-sdk) and the REST lookups, as
    [handleMessage] uses them; [roomInfo] and [userInfo] are the values
    [resolveRoomInfo] and [resolveUserInfo] resolve to. *)
Record Core : Type :=
  { Regex : Type;
    shouldHandleTextCommands : bool;
    hasControlCommand : string -> bool;
    resolveControlCommandGate :
      bool -> list CommandAuthorizer -> bool -> bool -> CommandGate;
    readAllowFromStore : Completion (list string);
    upsertPairingRequest : string -> string -> PairingRequest;
    resolveAgentRoute : ChatType -> string -> option string -> AgentRoute;
    buildMentionRegexes : string -> list Regex;
    matchesMentionPatterns : string -> list Regex -> bool;
    resolveRequireMention : string -> bool;
    fetchAndSave : MediaSource -> Completion RocketChatMediaInfo;
    dateGetTime : string -> Z;
    roomInfo : string -> option RocketChatRoom;
    userInfo : string -> option RocketChatUser }.

Definition normalizeMention (text : string) (mention : option string) : string :=
  match mention with
  | Some m =>
      if JS.truthy m then
        JS.trim (JS.collapseWhiteSpace (JS.replaceLiteralB ("@" +:+ m) O text))
      else JS.trim text
  | None => JS.trim text
  end.

Definition isSystemMessage (m : RocketChatMessage) : bool :=
  match t m with
  | Some s => JS.truthy (JS.trim s)
  | None => false
  end.

Definition roomKind (roomType : option string) : ChatType :=
  match roomType with
  | None => channel
  | Some rt =>
      if negb (JS.truthy rt) then channel
      else
        let t := JS.toLowerCase (JS.trim rt) in
        if (t =? "d")%string then direct
        else if (t =? "p")%string then group
        else if (t =? "l")%string then direct
        else channel
  end.

Definition channelChatType (kind : ChatType) : ChatType :=
  match kind with
  | direct => direct
  | group => group
  | channel => channel
  end.

Definition extractMessageTimestamp (dateGetTime : string -> Z) (m : RocketChatMessage)
  : option Z :=
  match ts m with
  | None => None
  | Some (TsDate d) => Some d
  | Some (TsString s) => if JS.truthy s then Some (dateGetTime s) else None
  end.

Definition buildAttachmentPlaceholder (mediaList : list RocketChatMediaInfo) : string :=
  match mediaList with
  | [] => ""
  | [m] =>
      let k := match kind m with unknown => document | k => k end in
      "<media:" +:+ MediaKind_name k +:+ ">"
  | _ =>
      let allImages :=
        forallb (fun m => match kind m with image => true | _ => false end) mediaList in
      let label := if allImages then "image" else "file" in
      let suffix := if (length mediaList =? 1)%nat then label else label +:+ "s" in
      let tag := if allImages then "<media:image>" else "<media:document>" in
      tag +:+ " (" +:+ JS.ofNat (length mediaList) +:+ " " +:+ suffix +:+ ")"
  end.

(** [a ?? b] on optional values. *)
Definition orElse {A : Type} (a b : option A) : option A :=
  match a with
  | Some _ => a
  | None => b
  end.

(** [resolveMedia]: files first, then URL attachments; a failed download
    is skipped. *)
Definition resolveMedia (core : Core) (m : RocketChatMessage) : list RocketChatMediaInfo :=
  let fileList :=
    match files m with
    | Some fs => fs
    | None => match file m with Some f => [f] | None => [] end
    end in
  let fromFiles :=
    flat_map (fun f =>
      if negb (JS.truthy (f_id f)) then []
      else match fetchAndSave core (FileSource f) with
           | Returned info => [info]
           | Thrown _ => []
           end) fileList in
  let fromAttachments :=
    flat_map (fun att =>
      match orElse (image_url att) (orElse (audio_url att) (video_url att)) with
      | Some attUrl =>
          if negb (JS.truthy attUrl) then []
          else match fetchAndSave core (UrlSource att attUrl) with
               | Returned info => [info]
               | Thrown _ => []
               end
      | None => []
      end) (match attachments m with Some l => l | None => [] end) in
  fromFiles ++ fromAttachments.

Record HistoryEntry : Type :=
  { h_sender : string; h_body : string; h_timestamp : option Z; h_messageId : string }.

(** The fields of the context handed to [dispatchReplyFromConfig] that
    are computed by the monitor itself. *)
Record InboundContext : Type :=
  { BodyForAgent : string;
    From : string;
    To : string;
    SessionKey : string;
    ParentSessionKey : option string;
    ChatTypeOf : ChatType;
    SenderName : string;
    SenderId : string;
    MessageSid : string;
    ReplyToId : option string;
    Timestamp : option Z;
    WasMentioned : option bool;
    CommandAuthorized : bool;
    Media : list RocketChatMediaInfo }.

Inductive Drop : Type :=
| NoMessageId | Duplicate | NoSender | OwnMessage | SystemMessage
| DmDisabled | DmSenderNotAllowed
| GroupDisabled | NoGroupAllowlist | GroupSenderNotAllowed
| UnauthorizedCommand
| EmptyBody.

(** How one call of [handleMessage] ends. *)
Inductive Outcome : Type :=
| Dropped (why : Drop)
| PairingRequested (request : PairingRequest)
| HistoryRecorded (historyKey : string) (entry : option HistoryEntry)
| Dispatched (ctx : InboundContext).

(** [a || b] on strings, [undefined] read as the empty string. *)
Definition orString (a b : string) : string := if JS.truthy a then a else b.

(** [x?.trim()] with [undefined] read as the empty string (both falsy). *)
Definition trimOpt (x : option string) : string :=
  match x with
  | Some s => JS.trim s
  | None => ""
  end.

Section HandleMessage.

Variable core : Core.
Variable account : Account.

(** [msg.u?.username?.trim() || (await resolveUserInfo(senderId))?.username?.trim()
    || senderId] *)
Definition senderNameOf (m : RocketChatMessage) (senderId : string) : string :=
  orString (trimOpt (match u m with Some s => u_username s | None => None end))
    (orString
       (trimOpt (match userInfo core senderId with
                 | Some usr => usr_username usr
                 | None => None
                 end))
       senderId).

Definition effectiveDmPolicy : DmPolicy :=
  match dmPolicy account with Some p => p | None => dm_pairing end.

Definition effectiveGroupPolicy : GroupPolicy :=
  match orElse (groupPolicy account) (defaultGroupPolicy account) with
  | Some p => p
  | None => gp_allowlist
  end.

Definition configAllowFrom : list string :=
  Allow.normalizeAllowList (match allowFrom account with Some l => l | None => [] end).

Definition configGroupAllowFrom : list string :=
  Allow.normalizeAllowList (match groupAllowFrom account with Some l => l | None => [] end).

Definition storeAllowFrom : list string :=
  Allow.normalizeAllowList
    (match readAllowFromStore core with Returned l => l | Thrown _ => [] end).

Definition effectiveAllowFrom : list string :=
  Allow.unique (configAllowFrom ++ storeAllowFrom).

Definition effectiveGroupAllowFrom : list string :=
  Allow.unique
    ((if (0 <? length configGroupAllowFrom)%nat then configGroupAllowFrom
      else configAllowFrom) ++ storeAllowFrom).

Definition isControlCommand (rawText : string) : bool :=
  shouldHandleTextCommands core && hasControlCommand core rawText.

Definition senderAllowedForCommands (senderId senderName : string) : bool :=
  Allow.isSenderAllowed senderId (Some senderName) effectiveAllowFrom.

Definition groupAllowedForCommands (senderId senderName : string) : bool :=
  Allow.isSenderAllowed senderId (Some senderName) effectiveGroupAllowFrom.

Definition commandGateOf (senderId senderName rawText : string) : CommandGate :=
  resolveControlCommandGate core
    (match useAccessGroups account with Some false => false | _ => true end)
    [ {| configured := (0 <? length effectiveAllowFrom)%nat;
         allowed := senderAllowedForCommands senderId senderName |};
      {| configured := (0 <? length effectiveGroupAllowFrom)%nat;
         allowed := groupAllowedForCommands senderId senderName |} ]
    (shouldHandleTextCommands core)
    (hasControlCommand core rawText).

Definition commandAuthorizedOf (kind : ChatType) (senderId senderName rawText : string)
  : bool :=
  match kind with
  | direct =>
      match effectiveDmPolicy with
      | dm_open => true
      | _ => senderAllowedForCommands senderId senderName
      end
  | _ => commandAuthorized (commandGateOf senderId senderName rawText)
  end.

(** The DM and group access control and the command gate: [Some o] when
    the call ends there with [o], [None] when the message goes on. *)
Definition accessControl (kind : ChatType) (senderId senderName rawText : string)
  : option Outcome :=
  match kind with
  | direct =>
      match effectiveDmPolicy with
      | dm_disabled => Some (Dropped DmDisabled)
      | dm_open => None
      | dm_pairing =>
          if negb (senderAllowedForCommands senderId senderName)
          then Some (PairingRequested (upsertPairingRequest core senderId senderName))
          else None
      | dm_allowlist =>
          if negb (senderAllowedForCommands senderId senderName)
          then Some (Dropped DmSenderNotAllowed)
          else None
      end
  | _ =>
      match effectiveGroupPolicy with
      | gp_disabled => Some (Dropped GroupDisabled)
      | gp_allowlist =>
          if (length effectiveGroupAllowFrom =? 0)%nat then Some (Dropped NoGroupAllowlist)
          else if negb (groupAllowedForCommands senderId senderName)
          then Some (Dropped GroupSenderNotAllowed)
          else if shouldBlock (commandGateOf senderId senderName rawText)
          then Some (Dropped UnauthorizedCommand)
          else None
      | gp_open =>
          if shouldBlock (commandGateOf senderId senderName rawText)
          then Some (Dropped UnauthorizedCommand)
          else None
      end
  end.

(** [handleMessage] from the route resolution on: mention gating, body
    construction and dispatch. *)
Definition respond (roomId : string) (m : RocketChatMessage) (kind : ChatType)
    (senderId senderName rawText : string) : Outcome :=
  let info := roomInfo core roomId in
  let teamId := match info with Some r => r_teamId r | None => None end in
  let route := resolveAgentRoute core kind
                 (match kind with direct => senderId | _ => roomId end) teamId in
  let baseSessionKey := sessionKey route in
  let threadRootId :=
    let tr := trimOpt (tmid m) in if JS.truthy tr then Some tr else None in
  let sessionKey :=
    match threadRootId with
    | Some tr => baseSessionKey +:+ ":thread:" +:+ tr
    | None => baseSessionKey
    end in
  let parentSessionKey :=
    match threadRootId with Some _ => Some baseSessionKey | None => None end in
  let historyKey := match kind with direct => None | _ => Some sessionKey end in
  let mentionRegexes := buildMentionRegexes core (agentId route) in
  let wasMentioned :=
    negb (ChatType_eqb kind direct) &&
    (match botUsername account with
     | Some b =>
         if JS.truthy b
         then JS.includes (JS.toLowerCase rawText) ("@" +:+ JS.toLowerCase b)
         else false
     | None => false
     end
     || matchesMentionPatterns core rawText mentionRegexes) in
  let pendingBody :=
    orString rawText
      (match file m with
       | Some _ => "[Rocket.Chat file]"
       | None =>
           match attachments m with
           | Some (_ :: _) => "[Rocket.Chat attachment]"
           | _ => ""
           end
       end) in
  let msgTimestamp := extractMessageTimestamp (dateGetTime core) m in
  let recordPendingHistory :=
    let trimmed := JS.trim pendingBody in
    HistoryRecorded (match historyKey with Some k => k | None => "" end)
      (if JS.truthyOpt historyKey && JS.truthy trimmed
       then Some {| h_sender := senderName; h_body := trimmed;
                    h_timestamp := msgTimestamp; h_messageId := m_id m |}
       else None) in
  let oncharEnabled :=
    match chatmode account with Some onchar => true | _ => false end
    && negb (ChatType_eqb kind direct) in
  let oncharPrefixes :=
    if oncharEnabled then Onchar.resolveOncharPrefixes (oncharPrefixes account) else [] in
  let oncharResult :=
    if oncharEnabled then Onchar.stripOncharPrefix rawText oncharPrefixes
    else {| Onchar.triggered := false; Onchar.stripped := rawText |} in
  let oncharTriggered := Onchar.triggered oncharResult in
  let shouldRequireMention :=
    negb (ChatType_eqb kind direct) && resolveRequireMention core roomId in
  let commandAuthorized := commandAuthorizedOf kind senderId senderName rawText in
  let shouldBypassMention :=
    isControlCommand rawText && shouldRequireMention && negb wasMentioned
    && commandAuthorized in
  let effectiveWasMentioned := wasMentioned || shouldBypassMention || oncharTriggered in
  let canDetectMention :=
    JS.truthyOpt (botUsername account) || (0 <? length mentionRegexes)%nat in
  if oncharEnabled && negb oncharTriggered && negb wasMentioned
     && negb (isControlCommand rawText)
  then recordPendingHistory
  else if negb (ChatType_eqb kind direct) && shouldRequireMention && canDetectMention
          && negb effectiveWasMentioned
  then recordPendingHistory
  else
    let mediaList := resolveMedia core m in
    let mediaPlaceholder := buildAttachmentPlaceholder mediaList in
    let bodySource := if oncharTriggered then Onchar.stripped oncharResult else rawText in
    let baseText :=
      JS.trim (JS.join JS.LF (List.filter JS.truthy [bodySource; mediaPlaceholder])) in
    let bodyText := normalizeMention baseText (botUsername account) in
    if negb (JS.truthy bodyText) then Dropped EmptyBody
    else
      let to := match kind with
                | direct => "user:" +:+ senderId
                | _ => "channel:" +:+ roomId
                end in
      Dispatched
        {| BodyForAgent := bodyText;
           From := match kind with
                   | direct => "rocketchat:" +:+ senderId
                   | group => "rocketchat:group:" +:+ roomId
                   | channel => "rocketchat:channel:" +:+ roomId
                   end;
           To := to;
           SessionKey := sessionKey;
           ParentSessionKey := parentSessionKey;
           ChatTypeOf := channelChatType kind;
           SenderName := senderName;
           SenderId := senderId;
           MessageSid := m_id m;
           ReplyToId := threadRootId;
           Timestamp := msgTimestamp;
           WasMentioned :=
             match kind with direct => None | _ => Some effectiveWasMentioned end;
           CommandAuthorized := commandAuthorized;
           Media := mediaList |}.

(** [handleMessage(roomId, msg)]: [now] is [Date.now()] at the dedup
    check and [recent] the state of [recentInboundMessages]. *)
Definition handleMessage (now : Z) (recent : Dedupe.Cache) (roomId : string)
    (m : RocketChatMessage) : Outcome * Dedupe.Cache :=
  let messageId := m_id m in
  if negb (JS.truthy messageId) then (Dropped NoMessageId, recent)
  else
    let '(seen, recent') :=
      Dedupe.check Dedupe.recentOptions
        (Some (accountId account +:+ ":" +:+ messageId)) now recent in
    if seen then (Dropped Duplicate, recent')
    else
      match u m with
      | None => (Dropped NoSender, recent')
      | Some sender =>
          let senderId := u_id sender in
          if negb (JS.truthy senderId) then (Dropped NoSender, recent')
          else if (senderId =? botUserId account)%string then (Dropped OwnMessage, recent')
          else if isSystemMessage m then (Dropped SystemMessage, recent')
          else
            let info := roomInfo core roomId in
            let kind := roomKind (match info with Some r => r_t r | None => None end) in
            let senderName := senderNameOf m senderId in
            let rawText := orString (trimOpt (msg m)) "" in
            match accessControl kind senderId senderName rawText with
            | Some o => (o, recent')
            | None => (respond roomId m kind senderId senderName rawText, recent')
            end
      end.

End HandleMessage.

End Monitor.

(** ** The DDP connection of [createRealtimeConnection] *)

Module Realtime.

(** [ws.readyState] *)
Inductive ReadyState : Type := CONNECTING | OPEN | CLOSING | CLOSED.

(** [data.error]: an object (with its [message] and its
    [JSON.stringify]) or a primitive (with its truthiness and its
    [String(..)]). *)
Inductive ErrorValue : Type :=
| ErrorObject (message : option string) (json : string)
| ErrorPrimitive (isTruthy : bool) (str : string).

Record DDPMessage : Type :=
  { d_msg : option string;
    d_id : option string;
    d_collection : option string;
    d_eventName : option string;
    d_args : option (list (option Monitor.RocketChatMessage));
    d_error : option ErrorValue }.

(** A received frame: [JSON.parse] throws or yields a message. *)
Inductive Raw : Type :=
| Malformed
| Parsed (data : DDPMessage).

(** The frames [ddpSend] writes. *)
Inductive Frame : Type :=
| ConnectFrame
| PongFrame (id : option string)
| LoginFrame (id : string) (resume : string)
| SubFrame (id : string)
| PingFrame (id : string).

Inductive ErrorInfo : Type :=
| WatchdogTimeout
| SocketError (err : string).

(** What a handler does to the socket and to the callbacks. *)
Inductive Effect : Type :=
| Send (frame : Frame)
| WsClose
| WsTerminate
| OnMessage (roomId : string) (message : Monitor.RocketChatMessage)
| OnConnected
| OnDisconnected (code : nat) (reason : string)
| OnError (err : ErrorInfo).

(** The promise [createRealtimeConnection] returns. *)
Inductive Promise : Type :=
| Pending
| Resolved
| Rejected (message : string).

(** What the event loop delivers to the connection. *)
Inductive Event : Type :=
| EvOpen
| EvMessage (raw : Raw)
| EvClose (code : nat) (reason : option string)
| EvError (err : string)
| EvAbort
| EvWatchdog
| EvPingTick.

Record State : Type :=
  { readyState : ReadyState;
    opened : bool;
    authenticated : bool;
    watchdogTimer : bool;      (* a watchdog timeout is pending *)
    abortListener : bool;      (* [onAbort] is registered on the signal *)
    clientPingInterval : bool; (* the ping interval is running *)
    ddpIdCounter : nat;
    promise : Promise;
    effects : list Effect }.   (* oldest first *)

(** The state [new Promise(..)] sets up before any event. *)
Definition init (hasAbortSignal : bool) (counter : nat) : State :=
  {| readyState := CONNECTING; opened := false; authenticated := false;
     watchdogTimer := false; abortListener := hasAbortSignal;
     clientPingInterval := false; ddpIdCounter := counter;
     promise := Pending; effects := [] |}.

Definition emit (e : Effect) (s : State) : State :=
  {| readyState := readyState s; opened := opened s; authenticated := authenticated s;
     watchdogTimer := watchdogTimer s; abortListener := abortListener s;
     clientPingInterval := clientPingInterval s; ddpIdCounter := ddpIdCounter s;
     promise := promise s; effects := effects s ++ [e] |}.

Definition setWatchdog (b : bool) (s : State) : State :=
  {| readyState := readyState s; opened := opened s; authenticated := authenticated s;
     watchdogTimer := b; abortListener := abortListener s;
     clientPingInterval := clientPingInterval s; ddpIdCounter := ddpIdCounter s;
     promise := promise s; effects := effects s |}.

Definition setReadyState (r : ReadyState) (s : State) : State :=
  {| readyState := r; opened := opened s; authenticated := authenticated s;
     watchdogTimer := watchdogTimer s; abortListener := abortListener s;
     clientPingInterval := clientPingInterval s; ddpIdCounter := ddpIdCounter s;
     promise := promise s; effects := effects s |}.

(** [resolve()] and [reject(..)]: a settled promise stays as it is. *)
Definition settle (p : Promise) (s : State) : State :=
  {| readyState := readyState s; opened := opened s; authenticated := authenticated s;
     watchdogTimer := watchdogTimer s; abortListener := abortListener s;
     clientPingInterval := clientPingInterval s; ddpIdCounter := ddpIdCounter s;
     promise := match promise s with Pending => p | settled => settled end;
     effects := effects s |}.

Definition resetWatchdog (s : State) : State := setWatchdog true s.
Definition clearWatchdog (s : State) : State := setWatchdog false s.

(** [cleanup]: [clearWatchdog()] and [removeEventListener("abort", onAbort)]. *)
Definition cleanup (s : State) : State :=
  let s := clearWatchdog s in
  {| readyState := readyState s; opened := opened s; authenticated := authenticated s;
     watchdogTimer := watchdogTimer s; abortListener := false;
     clientPingInterval := clientPingInterval s; ddpIdCounter := ddpIdCounter s;
     promise := promise s; effects := effects s |}.

(** [ws.close()] and [ws.terminate()]: the socket starts closing unless
    it is closed already; the [close] event follows later. *)
Definition wsClose (s : State) : State :=
  let s := emit WsClose s in
  match readyState s with
  | CLOSED => s
  | _ => setReadyState CLOSING s
  end.

Definition wsTerminate (s : State) : State :=
  let s := emit WsTerminate s in
  match readyState s with
  | CLOSED => s
  | _ => setReadyState CLOSING s
  end.

(** [ddpSend]: writes only while the socket is open. *)
Definition ddpSend (f : Frame) (s : State) : State :=
  match readyState s with
  | OPEN => emit (Send f) s
  | _ => s
  end.

(** [nextDdpId]: the counter is incremented, then rendered. *)
Definition nextDdpId (s : State) : string * State :=
  let n := S (ddpIdCounter s) in
  ("openclaw-" +:+ JS.ofNat n,
   {| readyState := readyState s; opened := opened s; authenticated := authenticated s;
      watchdogTimer := watchdogTimer s; abortListener := abortListener s;
      clientPingInterval := clientPingInterval s; ddpIdCounter := n;
      promise := promise s; effects := effects s |}).

Definition loginErrorMessage (e : ErrorValue) : string :=
  match e with
  | ErrorObject (Some m) _ => m
  | ErrorObject None json => json
  | ErrorPrimitive _ str => str
  end.

(** Truthiness of [data.error]. *)
Definition errorTruthy (e : option ErrorValue) : bool :=
  match e with
  | None => false
  | Some (ErrorObject _ _) => true
  | Some (ErrorPrimitive b _) => b
  end.

Definition isMsg (data : DDPMessage) (tag : string) : bool :=
  match d_msg data with
  | Some m => (m =? tag)%string
  | None => false
  end.

(** The [message] listener, after the watchdog reset and the parse. *)
Definition onData (authToken : string) (data : DDPMessage) (s : State) : State :=
  if isMsg data "ping" then ddpSend (PongFrame (d_id data)) s
  else if isMsg data "connected" then
    let '(id, s) := nextDdpId s in
    ddpSend (LoginFrame id authToken) s
  else if isMsg data "result" && negb (authenticated s) then
    if errorTruthy (d_error data) then
      let errMsg :=
        match d_error data with
        | Some e => loginErrorMessage e
        | None => ""
        end in
      let s := cleanup s in
      settle (Rejected ("Rocket.Chat DDP login failed: " +:+ errMsg)) s
    else
      let s :=
        {| readyState := readyState s; opened := opened s; authenticated := true;
           watchdogTimer := watchdogTimer s; abortListener := abortListener s;
           clientPingInterval := clientPingInterval s; ddpIdCounter := ddpIdCounter s;
           promise := promise s; effects := effects s |} in
      let s := emit OnConnected s in
      let '(id, s) := nextDdpId s in
      let s := ddpSend (SubFrame id) s in
      {| readyState := readyState s; opened := opened s; authenticated := authenticated s;
         watchdogTimer := watchdogTimer s; abortListener := abortListener s;
         clientPingInterval := true; ddpIdCounter := ddpIdCounter s;
         promise := promise s; effects := effects s |}
  else if isMsg data "changed"
          && match d_collection data with
             | Some c => (c =? "stream-room-messages")%string
             | None => false
             end then
    match d_args data with
    | Some (Some message :: _) =>
        if JS.truthy (Monitor.m_id message) then
          match Monitor.orElse (Monitor.rid message) (d_eventName data) with
          | Some roomId =>
              if JS.truthy roomId && negb (roomId =? "__my_messages__")%string
              then emit (OnMessage roomId message) s
              else s
          | None => s
          end
        else s
    | _ => s
    end
  else s.

(** One event handled by the connection's listeners and timers. *)
Definition step (authToken : string) (s : State) (ev : Event) : State :=
  match ev with
  | EvOpen =>
      let s := setReadyState OPEN s in
      let s :=
        {| readyState := readyState s; opened := true; authenticated := authenticated s;
           watchdogTimer := watchdogTimer s; abortListener := abortListener s;
           clientPingInterval := clientPingInterval s; ddpIdCounter := ddpIdCounter s;
           promise := promise s; effects := effects s |} in
      let s := resetWatchdog s in
      ddpSend ConnectFrame s
  | EvMessage raw =>
      let s := resetWatchdog s in
      match raw with
      | Malformed => s
      | Parsed data => onData authToken data s
      end
  | EvClose code reason =>
      let s := setReadyState CLOSED s in
      let s := clearWatchdog s in
      let s := cleanup s in
      let reasonStr := match reason with Some r => r | None => "" end in
      let s := emit (OnDisconnected code reasonStr) s in
      let s :=
        if opened s then settle Resolved s
        else settle (Rejected ("Rocket.Chat WebSocket closed before open (code "
                               +:+ JS.ofNat code +:+ ")")) s in
      {| readyState := readyState s; opened := opened s; authenticated := authenticated s;
         watchdogTimer := watchdogTimer s; abortListener := abortListener s;
         clientPingInterval := false; ddpIdCounter := ddpIdCounter s;
         promise := promise s; effects := effects s |}
  | EvError err =>
      let s := emit (OnError (SocketError err)) s in
      wsClose s
  | EvAbort =>
      if abortListener s then
        let s :=
          {| readyState := readyState s; opened := opened s;
             authenticated := authenticated s;
             watchdogTimer := watchdogTimer s; abortListener := false;
             clientPingInterval := clientPingInterval s; ddpIdCounter := ddpIdCounter s;
             promise := promise s; effects := effects s |} in
        let s := clearWatchdog s in
        wsTerminate s
      else s
  | EvWatchdog =>
      if watchdogTimer s then
        let s := setWatchdog false s in
        let s := emit (OnError WatchdogTimeout) s in
        wsTerminate s
      else s
  | EvPingTick =>
      if clientPingInterval s then
        match readyState s with
        | OPEN =>
            let '(id, s) := nextDdpId s in
            ddpSend (PingFrame id) s
        | _ => s
        end
      else s
  end.

(** The connection after a sequence of events, oldest first. *)
Definition run (authToken : string) (s : State) (evs : list Event) : State :=
  fold_left (step authToken) evs s.

End Realtime.


(** * REST client, outbound targets and accounts *)

(** ** URL handling of the REST client (client.ts) *)

Module Client.

(** [s.replace(/\/+$/, "")] *)
Fixpoint stripTrailingSlashes (s : string) : string :=
  match s with
  | EmptyString => EmptyString
  | String c s' =>
      let t := stripTrailingSlashes s' in
      if Ascii.eqb c "/" && (t =? "")%string then EmptyString else String c t
  end.

(** [s.replace(/\/api\/v1$/i, "")] *)
Fixpoint stripApiSuffix (s : string) : string :=
  match s with
  | EmptyString => EmptyString
  | String c s' =>
      if (JS.toLowerCase s =? "/api/v1")%string then EmptyString
      else String c (stripApiSuffix s')
  end.

Definition normalizeRocketChatBaseUrl (raw : option string) : option string :=
  match raw with
  | None => None
  | Some raw =>
      let trimmed := JS.trim raw in
      if negb (JS.truthy trimmed) then None
      else Some (stripApiSuffix (stripTrailingSlashes trimmed))
  end.

Definition buildApiUrl (baseUrl path : string) : Monitor.Completion string :=
  match normalizeRocketChatBaseUrl (Some baseUrl) with
  | Some normalized =>
      if negb (JS.truthy normalized) then Monitor.Thrown "Rocket.Chat baseUrl is required"
      else
        let suffix := if JS.startsWith path "/" then path else "/" +:+ path in
        Monitor.Returned (normalized +:+ "/api/v1" +:+ suffix)
  | None => Monitor.Thrown "Rocket.Chat baseUrl is required"
  end.

End Client.

(** ** Outbound targets (send.ts) *)

Module Send.

(** [RocketChatTarget]: a channel, a user by identifier, or a user by
    name. *)
Inductive RocketChatTarget : Type :=
| ChannelTarget (id : string)
| UserIdTarget (id : string)
| UsernameTarget (username : string).

(** [/^https?:\/\//i.test(value)] *)
Definition isHttpUrl (value : string) : bool :=
  String.prefix "http://" (JS.toLowerCase value)
  || String.prefix "https://" (JS.toLowerCase value).

Definition parseRocketChatTarget (raw : string) : Monitor.Completion RocketChatTarget :=
  let trimmed := JS.trim raw in
  if negb (JS.truthy trimmed)
  then Monitor.Thrown "Recipient is required for Rocket.Chat sends"
  else
    let lower := JS.toLowerCase trimmed in
    if JS.startsWith lower "channel:" then
      let id := JS.trim (JS.slice (String.length "channel:") trimmed) in
      if negb (JS.truthy id) then Monitor.Thrown "Channel id is required"
      else Monitor.Returned (ChannelTarget id)
    else if JS.startsWith lower "user:" then
      let id := JS.trim (JS.slice (String.length "user:") trimmed) in
      if negb (JS.truthy id) then Monitor.Thrown "User id is required"
      else Monitor.Returned (UserIdTarget id)
    else if JS.startsWith lower "rocketchat:" then
      let id := JS.trim (JS.slice (String.length "rocketchat:") trimmed) in
      if negb (JS.truthy id) then Monitor.Thrown "User id is required"
      else Monitor.Returned (UserIdTarget id)
    else if JS.startsWith trimmed "@" then
      let username := JS.trim (JS.slice 1 trimmed) in
      if negb (JS.truthy username) then Monitor.Thrown "Username is required"
      else Monitor.Returned (UsernameTarget username)
    else Monitor.Returned (ChannelTarget trimmed).

End Send.

(** ** The channel plugin's allow-list helpers (channel.ts) *)

Module Channel.

(** [normalizeAllowEntry] as the pairing adapter and the DM policy of the
    plugin use it. *)
Definition normalizeAllowEntry (entry : string) : string :=
  JS.toLowerCase (Allow.stripAt (Allow.stripChannelPrefix (JS.trim entry))).

Definition formatAllowEntry (entry : string) : string :=
  let trimmed := JS.trim entry in
  if negb (JS.truthy trimmed) then ""
  else if JS.startsWith trimmed "@" then
    let username := JS.trim (JS.slice 1 trimmed) in
    if JS.truthy username then "@" +:+ JS.toLowerCase username else ""
  else JS.toLowerCase (Allow.stripChannelPrefix trimmed).

End Channel.

(** ** Account resolution (accounts.ts, group-mentions.ts) *)

Module Accounts.

(** An own property of a configuration object: [None] when the object has
    no such key, [Some v] when it has one, [v] being [None] for [undefined]
    or [null]. *)
Definition Field (A : Type) : Type := option (option A).

(** Reading a property: [undefined] when the key is missing. *)
Definition value {A : Type} (f : Field A) : option A :=
  match f with
  | Some v => v
  | None => None
  end.

(** One key of [{ ...base, ...account }]. *)
Definition spread {A : Type} (base account : Field A) : Field A :=
  match account with
  | Some _ => account
  | None => base
  end.

(** [RocketChatAccountConfig], with the keys accounts.ts reads. *)
Record RocketChatAccountConfig : Type :=
  { cfg_enabled : Field bool;
    cfg_name : Field string;
    cfg_authToken : Field string;
    cfg_userId : Field string;
    cfg_username : Field string;
    cfg_password : Field string;
    cfg_baseUrl : Field string;
    cfg_chatmode : Field Monitor.ChatMode;
    cfg_oncharPrefixes : Field (list string);
    cfg_requireMention : Field bool;
    cfg_textChunkLimit : Field Z;
    cfg_blockStreaming : Field bool }.

(** [{}] *)
Definition emptyConfig : RocketChatAccountConfig :=
  {| cfg_enabled := None; cfg_name := None; cfg_authToken := None; cfg_userId := None;
     cfg_username := None; cfg_password := None; cfg_baseUrl := None;
     cfg_chatmode := None; cfg_oncharPrefixes := None; cfg_requireMention := None;
     cfg_textChunkLimit := None; cfg_blockStreaming := None |}.

(** [cfg.channels.rocketchat]: the channel-level keys and [accounts], an
    object whose keys are listed in the order of [Object.keys]; [None]
    when [accounts] is missing or not an object. *)
Record RocketChatSection : Type :=
  { base : RocketChatAccountConfig;
    accounts : option (list (string * RocketChatAccountConfig)) }.

(** [cfg.channels?.rocketchat] *)
Definition OpenClawConfig : Type := option RocketChatSection.

(** The variables of [process.env] the resolution reads. *)
Record ProcessEnv : Type :=
  { ROCKETCHAT_AUTH_TOKEN : option string;
    ROCKETCHAT_USER_ID : option string;
    ROCKETCHAT_URL : option string;
    ROCKETCHAT_USERNAME : option string;
    ROCKETCHAT_PASSWORD : option string }.

Inductive RocketChatTokenSource : Type := from_env | from_config | from_none.

Record ResolvedRocketChatAccount : Type :=
  { accountId : string;
    enabled : bool;
    name : option string;
    authToken : option string;
    userId : option string;
    username : option string;
    password : option string;
    baseUrl : option string;
    authTokenSource : RocketChatTokenSource;
    userIdSource : RocketChatTokenSource;
    baseUrlSource : RocketChatTokenSource;
    usesLoginAuth : bool;
    config : RocketChatAccountConfig;
    chatmode : option Monitor.ChatMode;
    oncharPrefixes : option (list string);
    requireMention : option bool;
    textChunkLimit : option Z;
    blockStreaming : option bool }.

(** [x?.trim()] *)
Definition trimOpt (x : option string) : option string := option_map JS.trim x.

(** [a || b] on [string | undefined]. *)
Definition orOpt (a b : option string) : option string :=
  if JS.truthyOpt a then a else b.

(** [x !== false] *)
Definition notFalse (x : option bool) : bool :=
  match x with
  | Some false => false
  | _ => true
  end.

(** [accounts[accountId]] on the own keys of [accounts]. *)
Fixpoint lookup (accountId : string) (entries : list (string * RocketChatAccountConfig))
  : option RocketChatAccountConfig :=
  match entries with
  | [] => None
  | (k, v) :: rest => if (k =? accountId)%string then Some v else lookup accountId rest
  end.

Definition listConfiguredAccountIds (cfg : OpenClawConfig) : list string :=
  match cfg with
  | Some section =>
      match accounts section with
      | Some entries => List.filter JS.truthy (map fst entries)
      | None => []
      end
  | None => []
  end.

Definition resolveAccountConfig (cfg : OpenClawConfig) (accountId : string)
  : option RocketChatAccountConfig :=
  match cfg with
  | Some section =>
      match accounts section with
      | Some entries => lookup accountId entries
      | None => None
      end
  | None => None
  end.

Definition mergeRocketChatAccountConfig (cfg : OpenClawConfig) (accountId : string)
  : RocketChatAccountConfig :=
  let base := match cfg with Some section => base section | None => emptyConfig end in
  let account :=
    match resolveAccountConfig cfg accountId with
    | Some a => a
    | None => emptyConfig
    end in
  {| cfg_enabled := spread (cfg_enabled base) (cfg_enabled account);
     cfg_name := spread (cfg_name base) (cfg_name account);
     cfg_authToken := spread (cfg_authToken base) (cfg_authToken account);
     cfg_userId := spread (cfg_userId base) (cfg_userId account);
     cfg_username := spread (cfg_username base) (cfg_username account);
     cfg_password := spread (cfg_password base) (cfg_password account);
     cfg_baseUrl := spread (cfg_baseUrl base) (cfg_baseUrl account);
     cfg_chatmode := spread (cfg_chatmode base) (cfg_chatmode account);
     cfg_oncharPrefixes := spread (cfg_oncharPrefixes base) (cfg_oncharPrefixes account);
     cfg_requireMention := spread (cfg_requireMention base) (cfg_requireMention account);
     cfg_textChunkLimit := spread (cfg_textChunkLimit base) (cfg_textChunkLimit account);
     cfg_blockStreaming := spread (cfg_blockStreaming base) (cfg_blockStreaming account) |}.

Definition resolveRocketChatRequireMention (config : RocketChatAccountConfig) : option bool :=
  match value (cfg_chatmode config) with
  | Some Monitor.oncall => Some true
  | Some Monitor.onmessage => Some false
  | Some Monitor.onchar => Some true
  | None => value (cfg_requireMention config)
  end.

(** [configValue ? "config" : envValue ? "env" : "none"] *)
Definition sourceOf (configValue envValue : option string) : RocketChatTokenSource :=
  if JS.truthyOpt configValue then from_config
  else if JS.truthyOpt envValue then from_env
  else from_none.

Section Sdk.

(** [DEFAULT_ACCOUNT_ID] and [normalizeAccountId] of the plugin SDK, and
    [ids.toSorted((a, b) => a.localeCompare(b))]. *)
Variable DEFAULT_ACCOUNT_ID : string.
Variable normalizeAccountId : option string -> string.
Variable toSorted : list string -> list string.

Definition listRocketChatAccountIds (cfg : OpenClawConfig) : list string :=
  let ids := listConfiguredAccountIds cfg in
  if (length ids =? 0)%nat then [DEFAULT_ACCOUNT_ID] else toSorted ids.

Definition resolveDefaultRocketChatAccountId (cfg : OpenClawConfig) : string :=
  let ids := listRocketChatAccountIds cfg in
  if Allow.includes ids DEFAULT_ACCOUNT_ID then DEFAULT_ACCOUNT_ID
  else match ids with
       | id :: _ => id
       | [] => DEFAULT_ACCOUNT_ID
       end.

Definition resolveRocketChatAccount (env : ProcessEnv) (cfg : OpenClawConfig)
    (accountId : option string) : ResolvedRocketChatAccount :=
  let accountId := normalizeAccountId accountId in
  let baseEnabled :=
    notFalse (match cfg with Some section => value (cfg_enabled (base section)) | None => None end) in
  let merged := mergeRocketChatAccountConfig cfg accountId in
  let accountEnabled := notFalse (value (cfg_enabled merged)) in
  let enabled := baseEnabled && accountEnabled in
  let allowEnv := (accountId =? DEFAULT_ACCOUNT_ID)%string in
  let envToken := if allowEnv then trimOpt (ROCKETCHAT_AUTH_TOKEN env) else None in
  let envUserId := if allowEnv then trimOpt (ROCKETCHAT_USER_ID env) else None in
  let envUrl := if allowEnv then trimOpt (ROCKETCHAT_URL env) else None in
  let envUsername := if allowEnv then trimOpt (ROCKETCHAT_USERNAME env) else None in
  let envPassword := if allowEnv then trimOpt (ROCKETCHAT_PASSWORD env) else None in
  let configToken := trimOpt (value (cfg_authToken merged)) in
  let configUserId := trimOpt (value (cfg_userId merged)) in
  let configUrl := trimOpt (value (cfg_baseUrl merged)) in
  let configUsername := trimOpt (value (cfg_username merged)) in
  let configPassword := trimOpt (value (cfg_password merged)) in
  let authToken := orOpt configToken envToken in
  let userId := orOpt configUserId envUserId in
  let username := orOpt configUsername envUsername in
  let password := orOpt configPassword envPassword in
  let baseUrl := Client.normalizeRocketChatBaseUrl (orOpt configUrl envUrl) in
  let requireMention := resolveRocketChatRequireMention merged in
  let usesLoginAuth :=
    negb (JS.truthyOpt authToken) && negb (JS.truthyOpt userId)
    && JS.truthyOpt username && JS.truthyOpt password in
  {| accountId := accountId;
     enabled := enabled;
     name := orOpt (trimOpt (value (cfg_name merged))) None;
     authToken := authToken;
     userId := userId;
     username := username;
     password := password;
     baseUrl := baseUrl;
     authTokenSource := sourceOf configToken envToken;
     userIdSource := sourceOf configUserId envUserId;
     baseUrlSource := sourceOf configUrl envUrl;
     usesLoginAuth := usesLoginAuth;
     config := merged;
     chatmode := value (cfg_chatmode merged);
     oncharPrefixes := value (cfg_oncharPrefixes merged);
     requireMention := requireMention;
     textChunkLimit := value (cfg_textChunkLimit merged);
     blockStreaming := value (cfg_blockStreaming merged) |}.

Definition listEnabledRocketChatAccounts (env : ProcessEnv) (cfg : OpenClawConfig)
  : list ResolvedRocketChatAccount :=
  List.filter enabled
    (map (fun accountId => resolveRocketChatAccount env cfg (Some accountId))
         (listRocketChatAccountIds cfg)).

(** [resolveRocketChatGroupRequireMention] of group-mentions.ts. *)
Definition resolveRocketChatGroupRequireMention (env : ProcessEnv) (cfg : OpenClawConfig)
    (accountId : option string) : bool :=
  match requireMention (resolveRocketChatAccount env cfg accountId) with
  | Some b => b
  | None => true
  end.

End Sdk.

End Accounts.

(** ** Reconnection of the provider (monitor.ts) *)

Module Provider.

(** [String(err)] for an [Error] with the given message. *)
Definition errorToString (message : string) : string := "Error: " +:+ message.

(** The [onError] callback passed to [runWithReconnect]: the value of
    [reloginNeeded] after a failed connection attempt. *)
Definition onError (canRelogin reloginNeeded : bool) (message : string) : bool :=
  let msg := errorToString message in
  if canRelogin && JS.includes msg "DDP login failed" then true else reloginNeeded.

(** [buildKey] of the inbound debouncer: events are batched per account,
    room and thread. *)
Definition buildKey (accountId : string) (entry : Monitor.Entry) : string :=
  let threadId := option_map JS.trim (Monitor.tmid (Monitor.e_msg entry)) in
  let threadKey := if JS.truthyOpt threadId
                   then "thread:" +:+ match threadId with Some t => t | None => "" end
                   else "room" in
  "rocketchat:" +:+ accountId +:+ ":" +:+ Monitor.roomId entry +:+ ":" +:+ threadKey.

End Provider.


(** * Properties *)

(** ** The dedup cache *)

Section DedupeFacts.

Import Dedupe.

Lemma get_delete_eq (k : string) (c : Cache) : get k (delete k c) = None.
Proof.
  induction c as [|[k' v] c IH]; simpl; [reflexivity|].
  destruct (String.eqb_spec k' k) as [->|Hne]; [exact IH|].
  simpl. destruct (String.eqb_spec k' k); [contradiction|exact IH].
Qed.

Lemma set_fresh (k : string) (v : Z) (c : Cache) :
  get k c = None -> set k v c = c ++ [(k, v)].
Proof.
  induction c as [|[k' v'] c IH]; simpl; [reflexivity|].
  destruct (String.eqb_spec k' k); [discriminate|].
  intros H. now rewrite IH.
Qed.

(** Recording a key moves it to the end of the insertion order. *)
Lemma record_last (k : string) (now : Z) (c : Cache) :
  record k now c = delete k c ++ [(k, now)].
Proof. unfold record. apply set_fresh, get_delete_eq. Qed.





(** The eviction loop removes a prefix of the insertion order. *)
Lemma evict_suffix (m : Z) (c : Cache) : exists pre, c = pre ++ evict m c.
Proof.
  induction c as [|[k v] c IH]; simpl.
  - exists []. now destruct (size [] >? m).
  - destruct (size ((k, v) :: c) >? m); [|now exists []].
    destruct (JS.truthy k); [|now exists []].
    destruct IH as [pre Hpre]. exists ((k, v) :: pre). simpl. now rewrite <- Hpre.
Qed.




(** Deleting the first key of a map leaves the remaining entries: the
    step of the eviction loop. *)
Lemma delete_head (k : string) (v : Z) (c : Cache) :
  wf ((k, v) :: c) -> delete k ((k, v) :: c) = c.
Proof.
  unfold wf, keys. simpl. rewrite String.eqb_refl. intros H.
  apply NoDup_cons in H as [Hnin _]. clear v.
  induction c as [|[k' v'] c IH]; simpl; [reflexivity|].
  simpl in Hnin. apply not_elem_of_cons in Hnin as [Hne Hnin].
  destruct (String.eqb_spec k' k); [congruence|]. now rewrite IH.
Qed.

(** A falsy key is neither looked up nor recorded. *)
Lemma check_falsy_key (o : Options) (now : Z) (c : Cache) :
  check o None now c = (false, c) /\ check o (Some "") now c = (false, c).
Proof. split; reflexivity. Qed.





(** *** The size bound *)

Lemma delete_sublist (k : string) (c : Cache) : delete k c `sublist_of` c.
Proof.
  induction c as [|[k' v] c IH]; simpl; [constructor|].
  destruct (k' =? k)%string; now constructor.
Qed.

Lemma prune_sublist (cutoff : Z) (c : Cache) : prune cutoff c `sublist_of` c.
Proof.
  induction c as [|[k v] c IH]; simpl; [constructor|].
  destruct (v <? cutoff); now constructor.
Qed.

Lemma evict_sublist (m : Z) (c : Cache) : evict m c `sublist_of` c.
Proof.
  destruct (evict_suffix m c) as [pre Hpre].
  rewrite Hpre at 2. now apply sublist_inserts_l.
Qed.

Lemma keys_sublist (a b : Cache) : a `sublist_of` b -> keys a `sublist_of` keys b.
Proof. induction 1; simpl; now constructor. Qed.

Lemma wf_sublist (a b : Cache) : a `sublist_of` b -> wf b -> wf a.
Proof.
  unfold wf. intros Hs Hb.
  eapply sublist_NoDup; [exact Hb|apply keys_sublist, Hs].
Qed.

(** Every key of the cache is truthy. *)
Definition truthyKeys (c : Cache) : Prop :=
  Forall (fun e => JS.truthy (fst e) = true) c.

Lemma truthyKeys_sublist (a b : Cache) :
  a `sublist_of` b -> truthyKeys b -> truthyKeys a.
Proof.
  unfold truthyKeys. intros Hs. induction Hs; intros Hb.
  - constructor.
  - apply Forall_cons in Hb as [Hx Hb]. constructor; auto.
  - apply Forall_cons in Hb as [_ Hb]. auto.
Qed.

Lemma get_none_not_key (k : string) (c : Cache) : get k c = None -> k ∉ keys c.
Proof.
  induction c as [|[k' v] c IH]; simpl; [intros _; apply not_elem_of_nil|].
  destruct (String.eqb_spec k' k) as [->|Hne]; [discriminate|].
  intros H. apply not_elem_of_cons. split; [congruence|auto].
Qed.

Lemma wf_record (k : string) (now : Z) (c : Cache) : wf c -> wf (record k now c).
Proof.
  intros Hwf. rewrite record_last. unfold wf, keys. rewrite map_app. simpl.
  apply NoDup_app. split; [|split].
  - apply (wf_sublist _ c); [apply delete_sublist|exact Hwf].
  - intros x Hx Hin. apply list_elem_of_singleton in Hin. subst x.
    revert Hx. apply get_none_not_key, get_delete_eq.
  - apply NoDup_singleton.
Qed.

Lemma truthyKeys_record (k : string) (now : Z) (c : Cache) :
  JS.truthy k = true -> truthyKeys c -> truthyKeys (record k now c).
Proof.
  intros Hk Hc. rewrite record_last. apply Forall_app. split.
  - apply (truthyKeys_sublist _ c); [apply delete_sublist|exact Hc].
  - now constructor.
Qed.

Lemma length_delete_lt (k : string) (e : Z) (c : Cache) :
  get k c = Some e -> (length (delete k c) < length c)%nat.
Proof.
  induction c as [|[k' v] c IH]; simpl; [discriminate|].
  destruct (k' =? k)%string.
  - intros _. pose proof (sublist_length _ _ (delete_sublist k c)). lia.
  - intros H. simpl. specialize (IH H). lia.
Qed.

Lemma size_record_hit (k : string) (e now : Z) (c : Cache) :
  get k c = Some e -> size (record k now c) <= size c.
Proof.
  intros H. rewrite record_last. unfold size. rewrite length_app. simpl.
  pose proof (length_delete_lt k e c H). lia.
Qed.

(** On truthy keys the eviction loop drops exactly the oldest entries in
    excess of the bound. *)
Lemma evict_drop (m : Z) (c : Cache) :
  0 <= m -> truthyKeys c -> evict m c = drop (length c - Z.to_nat m) c.
Proof.
  intros Hm. induction c as [|[k v] c IH]; intros Hc.
  - simpl. now destruct (size [] >? m).
  - apply Forall_cons in Hc as [Hk Hc]. simpl in Hk.
    cbn [evict]. rewrite Hk. unfold size. cbn [length].
    destruct (Z.gtb_spec (Z.of_nat (S (length c))) m).
    + rewrite IH by exact Hc.
      replace (S (length c) - Z.to_nat m)%nat with (S (length c - Z.to_nat m)) by lia.
      reflexivity.
    + replace (S (length c) - Z.to_nat m)%nat with O by lia. reflexivity.
Qed.

Lemma size_evict (m : Z) (c : Cache) :
  0 <= m -> truthyKeys c -> size (evict m c) <= m.
Proof.
  intros Hm Hc. rewrite evict_drop by assumption.
  unfold size. rewrite length_drop. lia.
Qed.

(** The flag [check] returns for a truthy key, for any options. *)
Lemma check_flag_gen (o : Options) (k : string) (now : Z) (c : Cache) :
  JS.truthy k = true ->
  fst (check o (Some k) now c) =
  match get k c with
  | Some existing => now - existing <? ttlMs o
  | None => false
  end.
Proof.
  intros Hk. unfold check. rewrite Hk. cbn [negb].
  destruct (match get k c with Some e => now - e <? _ | None => false end);
    [reflexivity|].
  now destruct (size (record k now c) >? _).
Qed.

(** The invariant of a cache created with the options [o]. *)
Definition invariant (o : Options) (c : Cache) : Prop :=
  wf c /\ truthyKeys c /\ size c <= maxSize o.

Lemma invariant_overflow (o : Options) (k : string) (now : Z) (c : Cache) :
  0 <= maxSize o -> JS.truthy k = true -> wf c -> truthyKeys c ->
  invariant o (evict (maxSize o) (prune (now - ttlMs o) (record k now c))).
Proof.
  intros Hmax Hk Hwf Hkeys.
  assert (Hp : truthyKeys (prune (now - ttlMs o) (record k now c))).
  { eapply truthyKeys_sublist; [apply prune_sublist|now apply truthyKeys_record]. }
  repeat split.
  - eapply wf_sublist; [apply evict_sublist|].
    eapply wf_sublist; [apply prune_sublist|now apply wf_record].
  - eapply truthyKeys_sublist; [apply evict_sublist|exact Hp].
  - now apply size_evict.
Qed.

Lemma invariant_check (o : Options) (key : option string) (now : Z) (c : Cache) :
  0 <= maxSize o -> invariant o c -> invariant o (snd (check o key now c)).
Proof.
  intros Hmax (Hwf & Hkeys & Hsize). unfold check.
  destruct key as [k|]; [|now repeat split].
  destruct (JS.truthy k) eqn:Hk; cbn [negb]; [|now repeat split].
  assert (Hfit : size (record k now c) <= maxSize o -> invariant o (record k now c)).
  { intros Hle. repeat split; [now apply wf_record|now apply truthyKeys_record|exact Hle]. }
  destruct (get k c) as [e|] eqn:Hget.
  - destruct (now - e <? ttlMs o); cbn [snd].
    + apply Hfit. pose proof (size_record_hit k e now c Hget). lia.
    + destruct (Z.gtb_spec (size (record k now c)) (maxSize o)); cbn [snd].
      * now apply invariant_overflow.
      * now apply Hfit.
  - destruct (Z.gtb_spec (size (record k now c)) (maxSize o)); cbn [snd].
    + now apply invariant_overflow.
    + now apply Hfit.
Qed.

Lemma invariant_run (o : Options) (calls : list (option string * Z)) (c : Cache) :
  0 <= maxSize o -> invariant o c -> invariant o (run o calls c).
Proof.
  intros Hmax. revert c.
  induction calls as [|[key now] calls IH]; intros c Hc; simpl; [exact Hc|].
  apply IH, invariant_check; assumption.
Qed.

Lemma invariant_empty (o : Options) : 0 <= maxSize o -> invariant o [].
Proof.
  intros Hmax. repeat split; [apply NoDup_nil_2|constructor|].
  unfold size. simpl. lia.
Qed.

(** Pruning keeps, in order, the entries that are not older than the
    TTL. *)
Lemma prune_filter (cutoff : Z) (c : Cache) :
  prune cutoff c = List.filter (fun e => negb (snd e <? cutoff)) c.
Proof.
  induction c as [|[k v] c IH]; simpl; [reflexivity|].
  destruct (v <? cutoff); simpl; now rewrite IH.
Qed.

(** The cache of [recentInboundMessages] never holds more than 2000
    entries. *)
Corollary recent_size_bounded (calls : list (option string * Z)) :
  size (run recentOptions calls []) <= 2000.
Proof.
  assert (H : 0 <= maxSize recentOptions) by (vm_compute; discriminate).
  apply (invariant_run recentOptions calls [] H (invariant_empty _ H)).
Qed.

(** C2. For a cache created empty with a maximum size [maxSize >= 0]
    (2000 for [recentInboundMessages]): after any sequence of [check]
    calls with any keys and timestamps the cache holds at most [maxSize]
    entries; and when recording a key in such a cache pushes the count
    over the bound, the call leaves the cache that results from first
    removing the entries older than the TTL and then dropping the oldest
    remaining entries until at most [maxSize] are left. *)
Theorem dedupe_size_bounded :
  forall (o : Options) (calls : list (option string * Z)),
    0 <= maxSize o ->
    let c := run o calls [] in
    size c <= maxSize o /\
    forall (k : string) (now : Z),
      JS.truthy k = true ->
      fst (check o (Some k) now c) = false ->
      maxSize o < size (record k now c) ->
      let pruned :=
        List.filter (fun e => negb (snd e <? now - ttlMs o)) (record k now c) in
      snd (check o (Some k) now c)
      = drop (length pruned - Z.to_nat (maxSize o)) pruned.
Proof.
  intros o calls Hmax c.
  assert (Hinv : invariant o c) by (apply invariant_run; [|apply invariant_empty]; exact Hmax).
  split; [apply Hinv|].
  intros k now Hk Hmiss Hover pruned.
  rewrite check_flag_gen in Hmiss by exact Hk.
  unfold check. rewrite Hk. cbn [negb].
  rewrite Hmiss.
  destruct (Z.gtb_spec (size (record k now c)) (maxSize o)); [|lia].
  cbn [snd]. rewrite evict_drop.
  - rewrite prune_filter. reflexivity.
  - exact Hmax.
  - eapply truthyKeys_sublist; [apply prune_sublist|].
    apply truthyKeys_record; [exact Hk|apply Hinv].
Qed.

(** The bound at the configured options, and two overflows at a maximum
    size of two: in the first the entry older than the TTL is pruned and
    nothing is left to evict, in the second nothing is old enough and the
    oldest entry is evicted. *)
Lemma dedupe_size_bounded_witness :
  let o := {| ttlMs := 10; maxSize := 2 |} in
  size (run recentOptions [(Some "a:1", 1); (None, 2); (Some "a:2", 3)] []) <= 2000 /\
  snd (check o (Some "c") 13 (run o [(Some "a", 1); (Some "b", 12)] []))
  = [("b", 12); ("c", 13)] /\
  snd (check o (Some "d") 14 (run o [(Some "a", 1); (Some "b", 12); (Some "c", 13)] []))
  = [("c", 13); ("d", 14)].
Proof.
  intros o. split; [|split].
  - apply (dedupe_size_bounded recentOptions
             [(Some "a:1", 1); (None, 2); (Some "a:2", 3)]).
    vm_compute. discriminate.
  - pose proof (dedupe_size_bounded o [(Some "a", 1); (Some "b", 12)]) as H.
    cbv zeta in H. destruct H as [_ H]; [vm_compute; discriminate|].
    rewrite (H "c" 13); [reflexivity|reflexivity|reflexivity|vm_compute; reflexivity].
  - pose proof (dedupe_size_bounded o
                  [(Some "a", 1); (Some "b", 12); (Some "c", 13)]) as H.
    cbv zeta in H. destruct H as [_ H]; [vm_compute; discriminate|].
    rewrite (H "d" 14); [reflexivity|reflexivity|reflexivity|vm_compute; reflexivity].
Defined.

End DedupeFacts.

(** ** Allow-lists *)

Section AllowFacts.

Import Allow.

Lemma includes_In (allowFrom : list string) (x : string) :
  includes allowFrom x = true <-> In x allowFrom.
Proof.
  unfold includes. rewrite existsb_exists. split.
  - intros (e & He & Heq). apply String.eqb_eq in Heq. now subst.
  - intros H. exists x. split; [exact H|apply String.eqb_refl].
Qed.

Lemma unique_In (x : string) (xs : list string) : In x (unique xs) <-> In x xs.
Proof.
  induction xs as [|y xs IH]; simpl; [reflexivity|].
  rewrite filter_In, IH. split.
  - intros [H|[H _]]; auto.
  - intros [H|H]; [now left|].
    destruct (String.eqb_spec x y) as [->|Hne]; [now left|].
    right. split; [exact H|reflexivity].
Qed.

(** An entry that is the wildcard, possibly with white space around it,
    stays the wildcard. *)
Lemma normalizeAllowList_wildcard (entries : list string) :
  In "*" entries -> In "*" (normalizeAllowList entries).
Proof.
  intros H. unfold normalizeAllowList. apply unique_In, filter_In. split.
  - apply in_map_iff. exists "*". split; [reflexivity|exact H].
  - reflexivity.
Qed.

Lemma isSenderAllowed_wildcard (senderId : string) (senderName : option string)
    (allowFrom : list string) :
  In "*" allowFrom -> isSenderAllowed senderId senderName allowFrom = true.
Proof.
  intros H. unfold isSenderAllowed.
  destruct allowFrom as [|e rest]; [contradiction|]. cbn [length Nat.eqb].
  apply includes_In in H. now rewrite H.
Qed.

(** C10. [isSenderAllowed] returns [false] on the empty allow-list, for
    every sender; [normalizeAllowEntry] keeps the wildcard entry as it is;
    [isSenderAllowed] returns [true] for every sender identifier and name
    when the allow-list contains the wildcard; and in [handleMessage] a
    wildcard among the configured DM entries allows every sender against
    the DM allow-list, a wildcard among the configured group entries
    allows every sender against the group allow-list. *)
Theorem wildcard_allows_every_sender :
  (forall senderId senderName, isSenderAllowed senderId senderName [] = false) /\
  normalizeAllowEntry "*" = "*" /\
  (forall senderId senderName allowFrom,
      In "*" allowFrom -> isSenderAllowed senderId senderName allowFrom = true) /\
  (forall core account senderId senderName entries,
      Monitor.allowFrom account = Some entries -> In "*" entries ->
      Monitor.senderAllowedForCommands core account senderId senderName = true) /\
  (forall core account senderId senderName entries,
      Monitor.groupAllowFrom account = Some entries -> In "*" entries ->
      Monitor.groupAllowedForCommands core account senderId senderName = true).
Proof.
  split; [reflexivity|]. split; [reflexivity|]. split; [|split].
  - intros. now apply isSenderAllowed_wildcard.
  - intros core account senderId senderName entries Hcfg Hin.
    apply isSenderAllowed_wildcard.
    unfold Monitor.effectiveAllowFrom, Monitor.configAllowFrom.
    rewrite Hcfg. apply unique_In, in_or_app. left.
    now apply normalizeAllowList_wildcard.
  - intros core account senderId senderName entries Hcfg Hin.
    apply isSenderAllowed_wildcard.
    assert (Hstar : In "*" (Monitor.configGroupAllowFrom account)).
    { unfold Monitor.configGroupAllowFrom. rewrite Hcfg.
      now apply normalizeAllowList_wildcard. }
    unfold Monitor.effectiveGroupAllowFrom.
    apply unique_In, in_or_app. left.
    destruct (Monitor.configGroupAllowFrom account); [contradiction|exact Hstar].
Qed.

Lemma wildcard_allows_every_sender_witness :
  isSenderAllowed "u42" (Some "Mallory") ["alice"; "*"] = true /\
  isSenderAllowed "u42" (Some "Mallory") ["alice"] = false.
Proof.
  split; [|reflexivity].
  apply (proj1 (proj2 (proj2 wildcard_allows_every_sender))).
  right. left. reflexivity.
Defined.

End AllowFacts.

(** ** The debouncer callbacks *)

Section DebounceFacts.

Import Monitor.

(** A message that carries only text. *)
Definition textMessage (id text : string) : RocketChatMessage :=
  {| m_id := id; rid := Some "GENERAL"; msg := Some text; ts := Some (TsDate 1700000000000);
     u := Some {| u_id := "u1"; u_username := Some "alice"; u_name := None |};
     tmid := None; file := None; files := None; attachments := None; t := None |}.

(** A message with text and an image attached by URL, without an uploaded
    file. *)
Definition urlAttachmentMessage : RocketChatMessage :=
  {| m_id := "m1"; rid := Some "GENERAL"; msg := Some "look at this";
     ts := Some (TsDate 1700000000000);
     u := Some {| u_id := "u1"; u_username := Some "alice"; u_name := None |};
     tmid := None; file := None; files := None;
     attachments :=
       Some [ {| title := Some "photo.png"; title_link := None;
                 image_url := Some "/file-upload/abc/photo.png";
                 audio_url := None; video_url := None; a_type := Some "file" |} ];
     t := None |}.

(** The body of an event as it arrived: [e.msg.msg], absent read as empty. *)
Definition rawBody (e : Entry) : string :=
  match msg (e_msg e) with
  | Some s => s
  | None => ""
  end.

(** An uploaded file, single or in a non-empty list, is never debounced. *)
Lemma shouldDebounce_file (hasControlCommand : string -> bool) (entry : Entry) :
  (exists f, file (e_msg entry) = Some f) \/
  (exists f fs, files (e_msg entry) = Some (f :: fs)) ->
  shouldDebounce hasControlCommand entry = false.
Proof.
  unfold shouldDebounce. intros [[f Hf]|(f & fs & Hfs)].
  - now rewrite Hf.
  - rewrite Hfs. cbn [length Nat.eqb negb]. now rewrite orb_true_r.
Qed.

(** C3 (the code departs from the claim). An event whose message has text
    and an attachment given by URL ([attachments] with an [image_url]), but
    no [file] and no [files], is classified as debounced whenever its text
    is not a control command; flushed together with a later text event, its
    attachment is cleared from the merged message. *)
Theorem shouldDebounce_url_attachment_batched :
  forall hasControlCommand : string -> bool,
    hasControlCommand "look at this" = false ->
    shouldDebounce hasControlCommand {| roomId := "GENERAL"; e_msg := urlAttachmentMessage |}
    = true /\
    map (fun call => (msg (snd call), attachments (snd call)))
        (onFlush [ {| roomId := "GENERAL"; e_msg := urlAttachmentMessage |};
                   {| roomId := "GENERAL"; e_msg := textMessage "m2" "and this" |} ])
    = [(Some ("look at this" +:+ JS.LF +:+ "and this"), None)].
Proof.
  intros hasControlCommand H. split; [|reflexivity].
  unfold shouldDebounce.
  change (trimmedText (e_msg {| roomId := "GENERAL"; e_msg := urlAttachmentMessage |}))
    with (JS.trim "look at this").
  replace (JS.trim "look at this") with "look at this" by reflexivity.
  cbn. now rewrite H.
Qed.

Lemma shouldDebounce_url_attachment_batched_witness :
  shouldDebounce (fun _ => false) {| roomId := "GENERAL"; e_msg := urlAttachmentMessage |}
  = true.
Proof.
  apply (shouldDebounce_url_attachment_batched (fun _ => false)). reflexivity.
Defined.

(** *** Flushing *)

Lemma trimmedText_rawBody (e : Entry) : trimmedText (e_msg e) = JS.trim (rawBody e).
Proof. unfold trimmedText, rawBody. now destruct (msg (e_msg e)). Qed.

Lemma trimmed_bodies_map (entries : list Entry) :
  map (fun e => trimmedText (e_msg e)) entries = map (fun e => JS.trim (rawBody e)) entries.
Proof. apply map_ext. intros e. apply trimmedText_rawBody. Qed.

(** Bodies that are non-empty and carry no outer white space pass the
    trimming and the filter unchanged. *)
Lemma clean_bodies_kept (entries : list Entry) :
  (forall e, In e entries -> JS.truthy (rawBody e) = true /\ JS.trim (rawBody e) = rawBody e) ->
  List.filter JS.truthy (map (fun e => JS.trim (rawBody e)) entries) = map rawBody entries.
Proof.
  induction entries as [|e entries IH]; intros H; simpl; [reflexivity|].
  destruct (H e (or_introl eq_refl)) as [Ht Htrim].
  rewrite Htrim, Ht. f_equal. apply IH. intros e' He'. apply H. now right.
Qed.

Lemma last_length_one (entries : list Entry) (lastE : Entry) :
  last entries = Some lastE -> length entries = 1%nat -> entries = [lastE].
Proof.
  destruct entries as [|e [|e' rest]]; simpl; try discriminate.
  intros H _. now inversion H.
Qed.

(** The claim of C4 fails as stated: two text events whose first body ends
    in a space are merged into the join of the trimmed bodies, which is not
    the join of the bodies. *)
Lemma onFlush_raw_join_counterexample :
  ~ (forall entries : list Entry,
        (1 < length entries)%nat ->
        forall room m, onFlush entries = [(room, m)] ->
                       msg m = Some (JS.join JS.LF (map rawBody entries))).
Proof.
  intros H.
  specialize (H [ {| roomId := "GENERAL"; e_msg := textMessage "m1" "hello " |};
                  {| roomId := "GENERAL"; e_msg := textMessage "m2" "world" |} ]).
  specialize (H ltac:(simpl; lia) _ _ eq_refl).
  vm_compute in H. discriminate H.
Qed.

(** C4, amended. For every non-empty list of events flushed together,
    [onFlush] makes exactly one call of [handleMessage], for the room of the
    most recent event; a single event is passed on as it is; for several
    events the text is the line-feed join, in arrival order, of the bodies
    trimmed of outer white space, with the bodies that are empty after
    trimming left out, the identifier, room, timestamp, sender, thread and
    type fields are those of the most recent event, and [file], [files] and
    [attachments] are cleared.  When every body is non-empty and has no
    outer white space, the text is the line-feed join of the bodies. *)
Theorem onFlush_merges_trimmed_bodies :
  forall (entries : list Entry) (lastE : Entry),
    last entries = Some lastE ->
    exists m : RocketChatMessage,
      onFlush entries = [(roomId lastE, m)] /\
      (length entries = 1%nat -> m = e_msg lastE) /\
      ((1 < length entries)%nat ->
       msg m = Some (JS.join JS.LF
                       (List.filter JS.truthy (map (fun e => JS.trim (rawBody e)) entries))) /\
       m_id m = m_id (e_msg lastE) /\ rid m = rid (e_msg lastE) /\
       ts m = ts (e_msg lastE) /\ u m = u (e_msg lastE) /\
       tmid m = tmid (e_msg lastE) /\ t m = t (e_msg lastE) /\
       file m = None /\ files m = None /\ attachments m = None /\
       ((forall e, In e entries ->
                   JS.truthy (rawBody e) = true /\ JS.trim (rawBody e) = rawBody e) ->
        msg m = Some (JS.join JS.LF (map rawBody entries)))).
Proof.
  intros entries lastE Hlast. unfold onFlush. rewrite Hlast.
  destruct (Nat.eqb_spec (length entries) 1) as [Hone|Hmany].
  - exists (e_msg lastE). split; [reflexivity|]. split; [reflexivity|]. lia.
  - eexists. split; [reflexivity|]. split; [intros; contradiction|].
    intros _. cbn [msg m_id rid ts u tmid t file files attachments].
    rewrite trimmed_bodies_map. repeat split.
    intros Hclean. now rewrite clean_bodies_kept.
Qed.

Lemma onFlush_merges_trimmed_bodies_witness :
  exists m : RocketChatMessage,
    onFlush [ {| roomId := "GENERAL"; e_msg := textMessage "m1" "hello " |};
              {| roomId := "GENERAL"; e_msg := textMessage "m2" "world" |} ]
    = [("GENERAL", m)] /\
    msg m = Some ("hello" +:+ JS.LF +:+ "world") /\ m_id m = "m2".
Proof.
  destruct (onFlush_merges_trimmed_bodies
              [ {| roomId := "GENERAL"; e_msg := textMessage "m1" "hello " |};
                {| roomId := "GENERAL"; e_msg := textMessage "m2" "world" |} ]
              {| roomId := "GENERAL"; e_msg := textMessage "m2" "world" |} eq_refl)
    as (m & Hcall & _ & Hmany).
  exists m. split; [exact Hcall|].
  destruct (Hmany ltac:(simpl; lia)) as (Hmsg & Hid & _).
  split; [exact Hmsg|exact Hid].
Defined.

End DebounceFacts.

(** ** The metadata caches *)

Section MetadataFacts.

Import Monitor.

(** What a lookup yields once the REST call has been made: the fetched
    value, or [null] when the call failed. *)
Definition fetched {T : Type} (fetch : string -> Completion T) (id : string) : option T :=
  match fetch id with
  | Returned info => Some info
  | Thrown _ => None
  end.

(** No entry for [id] that is still valid at time [t0]. *)
Definition stale {T : Type} (cache : gmap string (Cached T)) (id : string) (t0 : Z) : Prop :=
  forall cached, cache !! id = Some cached -> expiresAt cached <= t0.

Lemma resolveRoomInfo_stale fetchChannel t0 t1 roomId
    (roomCache : gmap string (Cached RocketChatRoom)) :
  stale roomCache roomId t0 ->
  resolveRoomInfo fetchChannel t0 t1 roomId roomCache
  = (Returned (fetched fetchChannel roomId),
     <[roomId := {| value := fetched fetchChannel roomId;
                    expiresAt := t1 + ROOM_CACHE_TTL_MS |}]> roomCache).
Proof.
  intros Hstale. unfold resolveRoomInfo, fetched.
  destruct (roomCache !! roomId) as [cached|] eqn:Hc.
  - specialize (Hstale cached Hc).
    destruct (Z.gtb_spec (expiresAt cached) t0); [lia|].
    now destruct (fetchChannel roomId).
  - now destruct (fetchChannel roomId).
Qed.

Lemma resolveUserInfo_stale fetchUser t0 t1 uid
    (userCache : gmap string (Cached RocketChatUser)) :
  stale userCache uid t0 ->
  resolveUserInfo fetchUser t0 t1 uid userCache
  = (Returned (fetched fetchUser uid),
     <[uid := {| value := fetched fetchUser uid;
                 expiresAt := t1 + USER_CACHE_TTL_MS |}]> userCache).
Proof.
  intros Hstale. unfold resolveUserInfo, fetched.
  destruct (userCache !! uid) as [cached|] eqn:Hc.
  - specialize (Hstale cached Hc).
    destruct (Z.gtb_spec (expiresAt cached) t0); [lia|].
    now destruct (fetchUser uid).
  - now destruct (fetchUser uid).
Qed.

Lemma resolveRoomInfo_returns fetchChannel t0 t1 roomId
    (roomCache : gmap string (Cached RocketChatRoom)) :
  exists v c', resolveRoomInfo fetchChannel t0 t1 roomId roomCache = (Returned v, c').
Proof.
  unfold resolveRoomInfo.
  destruct (roomCache !! roomId) as [cached|];
    [destruct (expiresAt cached >? t0)|]; destruct (fetchChannel roomId); eauto.
Qed.

Lemma resolveUserInfo_returns fetchUser t0 t1 uid
    (userCache : gmap string (Cached RocketChatUser)) :
  exists v c', resolveUserInfo fetchUser t0 t1 uid userCache = (Returned v, c').
Proof.
  unfold resolveUserInfo.
  destruct (userCache !! uid) as [cached|];
    [destruct (expiresAt cached >? t0)|]; destruct (fetchUser uid); eauto.
Qed.

(** C9. [resolveRoomInfo] and [resolveUserInfo] always return and never
    throw, whatever the REST call does; when no valid entry is cached and
    the call fails they return [null] and cache [null] for the identifier;
    and an entry whose expiry time has passed is not returned: the result is
    what the REST call yields, and it replaces the entry. *)
Theorem metadata_lookup_never_throws :
  forall (fetchChannel : string -> Completion RocketChatRoom)
         (fetchUser : string -> Completion RocketChatUser)
         (t0 t1 : Z) (id : string)
         (roomCache : gmap string (Cached RocketChatRoom))
         (userCache : gmap string (Cached RocketChatUser)),
    (exists v c',
        resolveRoomInfo fetchChannel t0 t1 id roomCache = (Returned v, c') /\
        (stale roomCache id t0 -> forall err, fetchChannel id = Thrown err ->
           v = None /\
           c' !! id = Some {| value := None; expiresAt := t1 + ROOM_CACHE_TTL_MS |}) /\
        (forall cached, roomCache !! id = Some cached -> expiresAt cached <= t0 ->
           v = fetched fetchChannel id /\
           c' !! id = Some {| value := v; expiresAt := t1 + ROOM_CACHE_TTL_MS |})) /\
    (exists v c',
        resolveUserInfo fetchUser t0 t1 id userCache = (Returned v, c') /\
        (stale userCache id t0 -> forall err, fetchUser id = Thrown err ->
           v = None /\
           c' !! id = Some {| value := None; expiresAt := t1 + USER_CACHE_TTL_MS |}) /\
        (forall cached, userCache !! id = Some cached -> expiresAt cached <= t0 ->
           v = fetched fetchUser id /\
           c' !! id = Some {| value := v; expiresAt := t1 + USER_CACHE_TTL_MS |})).
Proof.
  intros fetchChannel fetchUser t0 t1 id roomCache userCache. split.
  - destruct (resolveRoomInfo_returns fetchChannel t0 t1 id roomCache) as (v & c' & Hr).
    exists v, c'. split; [exact Hr|]. split.
    + intros Hstale err Herr.
      rewrite resolveRoomInfo_stale in Hr by exact Hstale.
      unfold fetched in Hr. rewrite Herr in Hr. inversion Hr; subst.
      split; [reflexivity|apply lookup_insert_eq].
    + intros cached Hc Hexp.
      rewrite resolveRoomInfo_stale in Hr.
      * inversion Hr; subst. split; [reflexivity|apply lookup_insert_eq].
      * intros cached' Hc'. congruence.
  - destruct (resolveUserInfo_returns fetchUser t0 t1 id userCache) as (v & c' & Hr).
    exists v, c'. split; [exact Hr|]. split.
    + intros Hstale err Herr.
      rewrite resolveUserInfo_stale in Hr by exact Hstale.
      unfold fetched in Hr. rewrite Herr in Hr. inversion Hr; subst.
      split; [reflexivity|apply lookup_insert_eq].
    + intros cached Hc Hexp.
      rewrite resolveUserInfo_stale in Hr.
      * inversion Hr; subst. split; [reflexivity|apply lookup_insert_eq].
      * intros cached' Hc'. congruence.
Qed.

(** An entry cached as "general" that expired at time 100 is looked up at
    time 100 while the REST call fails: the lookup returns [null]. *)
Lemma metadata_lookup_never_throws_witness :
  let room := {| r_id := "GENERAL"; r_name := Some "general"; r_fname := None;
                 r_t := Some "c"; r_topic := None; r_teamId := None |} in
  fst (resolveRoomInfo (fun _ => Thrown "503") 100 101 "GENERAL"
         {[ "GENERAL" := {| value := Some room; expiresAt := 100 |} ]})
  = Returned None.
Proof.
  intros room.
  destruct (metadata_lookup_never_throws (fun _ => Thrown "503") (fun _ => Thrown "503")
              100 101 "GENERAL"
              {[ "GENERAL" := {| value := Some room; expiresAt := 100 |} ]} ∅)
    as [(v & c' & Hr & _ & Hexp) _].
  rewrite Hr. cbn [fst].
  destruct (Hexp {| value := Some room; expiresAt := 100 |}) as [Hv _].
  - apply lookup_singleton_eq.
  - cbn. lia.
  - rewrite Hv. reflexivity.
Defined.

End MetadataFacts.

(** ** String primitives *)

Section StringFacts.

Lemma trimStart_idempotent (s : string) : JS.trimStart (JS.trimStart s) = JS.trimStart s.
Proof.
  induction s as [|c s IH]; [reflexivity|]. cbn.
  destruct (JS.isWhiteSpace c) eqn:Hc; [exact IH|]. cbn. now rewrite Hc.
Qed.

(** After [trimStart] a string is empty or starts with a code unit that is
    not white space. *)
Lemma trimStart_head (s : string) :
  JS.trimStart s = "" \/
  exists c r, JS.trimStart s = String c r /\ JS.isWhiteSpace c = false.
Proof.
  induction s as [|c s IH]; [now left|]. cbn.
  destruct (JS.isWhiteSpace c) eqn:Hc; [exact IH|]. right. eauto.
Qed.

Lemma trimEnd_cons (c : ascii) (r : string) :
  JS.isWhiteSpace c = false -> JS.trimEnd (String c r) = String c (JS.trimEnd r).
Proof. intros Hc. cbn. now rewrite Hc. Qed.

Lemma trimEnd_idempotent (s : string) : JS.trimEnd (JS.trimEnd s) = JS.trimEnd s.
Proof.
  induction s as [|c s IH]; [reflexivity|]. cbn.
  destruct (JS.isWhiteSpace c && (JS.trimEnd s =? "")%string) eqn:Hc; [reflexivity|].
  cbn. now rewrite IH, Hc.
Qed.

(** A trimmed string has no white space at either end. *)
Lemma trim_head (s : string) :
  JS.trim s = "" \/ exists c r, JS.trim s = String c r /\ JS.isWhiteSpace c = false.
Proof.
  unfold JS.trim. destruct (trimStart_head s) as [->|(c & r & -> & Hc)]; [now left|].
  right. rewrite trimEnd_cons by exact Hc. eauto.
Qed.

Lemma trimStart_trim (s : string) : JS.trimStart (JS.trim s) = JS.trim s.
Proof.
  destruct (trim_head s) as [->|(c & r & -> & Hc)]; [reflexivity|].
  cbn. now rewrite Hc.
Qed.

Lemma trim_idempotent (s : string) : JS.trim (JS.trim s) = JS.trim s.
Proof.
  unfold JS.trim at 1. rewrite trimStart_trim. unfold JS.trim.
  apply trimEnd_idempotent.
Qed.

Lemma append_cons (c : ascii) (s t : string) : String c s +:+ t = String c (s +:+ t).
Proof. reflexivity. Qed.

Lemma prefix_split (p s : string) :
  String.prefix p s = true -> s = p +:+ JS.slice (String.length p) s.
Proof.
  revert s. induction p as [|a p IH]; intros s H; [reflexivity|].
  destruct s as [|b s]; [discriminate H|]. cbn in H.
  destruct (ascii_dec a b) as [->|]; [|discriminate H].
  rewrite append_cons. cbn [String.length JS.slice]. f_equal. now apply IH.
Qed.

Lemma truthy_iff (x : string) : JS.truthy x = true <-> x <> "".
Proof.
  unfold JS.truthy. rewrite negb_true_iff. apply String.eqb_neq.
Qed.

End StringFacts.

(** ** Trigger prefixes: the list in force and the first match *)

Section OncharHelpers.

Import Onchar.

Lemma cleaned_members (ps : list string) (p : string) :
  In p (List.filter JS.truthy (map JS.trim ps)) <->
  p <> "" /\ exists q, In q ps /\ JS.trim q = p.
Proof.
  rewrite filter_In, in_map_iff, truthy_iff. split.
  - intros [(q & Hq & Hin) Hp]. split; [exact Hp|]. now exists q.
  - intros [Hp (q & Hin & Hq)]. split; [now exists q|exact Hp].
Qed.

(** With a non-blank prefix configured, the prefixes in force are the
    configured ones, trimmed, without the blank ones. *)
Lemma resolveOncharPrefixes_configured (ps : list string) :
  (exists q, In q ps /\ JS.trim q <> "") ->
  resolveOncharPrefixes (Some ps) = List.filter JS.truthy (map JS.trim ps).
Proof.
  intros (q & Hin & Hq). unfold resolveOncharPrefixes.
  assert (H : In (JS.trim q) (List.filter JS.truthy (map JS.trim ps)))
    by (apply cleaned_members; split; [exact Hq|now exists q]).
  destruct (List.filter JS.truthy (map JS.trim ps)); [contradiction|reflexivity].
Qed.

(** Without a configured list, or with blank prefixes only, the defaults
    are in force. *)
Lemma resolveOncharPrefixes_default (prefixes : option (list string)) :
  prefixes = None \/
  (exists ps, prefixes = Some ps /\ forall q, In q ps -> JS.trim q = "") ->
  resolveOncharPrefixes prefixes = DEFAULT_ONCHAR_PREFIXES.
Proof.
  intros [->|(ps & -> & Hblank)]; [reflexivity|].
  unfold resolveOncharPrefixes.
  assert (Hnil : List.filter JS.truthy (map JS.trim ps) = []).
  { induction ps as [|x xs IH]; [reflexivity|]. cbn.
    rewrite (Hblank x (or_introl eq_refl)). cbn.
    apply IH. intros q Hq. apply Hblank. now right. }
  now rewrite Hnil.
Qed.

(** No prefix in force is empty. *)
Lemma resolveOncharPrefixes_nonempty (prefixes : option (list string)) (p : string) :
  In p (resolveOncharPrefixes prefixes) -> p <> "".
Proof.
  unfold resolveOncharPrefixes.
  assert (Hdefault : In p DEFAULT_ONCHAR_PREFIXES -> p <> "")
    by (intros [<-|[<-|[]]]; discriminate).
  destruct prefixes as [ps|]; [|exact Hdefault].
  destruct (List.filter JS.truthy (map JS.trim ps)) eqn:Hf; cbn [length Nat.ltb Nat.leb];
    [exact Hdefault|].
  rewrite <- Hf. intros H. now apply cleaned_members in H.
Qed.

(** The loop of [stripOncharPrefix] stops at the first prefix the text
    begins with and removes that prefix and the white space after it. *)
Lemma stripLoop_first (text trimmed : string) (prefixes : list string) (p : string) :
  (forall q, In q prefixes -> q <> "") ->
  In p prefixes ->
  String.prefix p trimmed = true ->
  exists before q after,
    prefixes = before ++ q :: after /\
    Forall (fun q' => String.prefix q' trimmed = false) before /\
    String.prefix q trimmed = true /\
    stripLoop text trimmed prefixes
    = {| triggered := true;
         stripped := JS.trimStart (JS.slice (String.length q) trimmed) |}.
Proof.
  induction prefixes as [|x prefixes IH]; intros Hne Hin Hp; [contradiction|].
  assert (Hx : JS.truthy x = true) by (apply truthy_iff, Hne; now left).
  cbn [stripLoop]. rewrite Hx. cbn [negb]. unfold JS.startsWith.
  destruct (String.prefix x trimmed) eqn:Hpx.
  - exists [], x, prefixes. repeat split; [constructor|exact Hpx].
  - destruct Hin as [->|Hin]; [congruence|].
    destruct (IH (fun q Hq => Hne q (or_intror Hq)) Hin Hp)
      as (before & q & after & -> & Hbefore & Hq & Hloop).
    exists (x :: before), q, after. repeat split; [now constructor|exact Hq|exact Hloop].
Qed.

(** A text that begins with none of the prefixes does not trigger and is
    left as it is. *)
Lemma stripLoop_none (text trimmed : string) (prefixes : list string) :
  (forall q, In q prefixes -> String.prefix q trimmed = false) ->
  stripLoop text trimmed prefixes = {| triggered := false; stripped := text |}.
Proof.
  induction prefixes as [|x prefixes IH]; intros H; [reflexivity|].
  cbn [stripLoop]. unfold JS.startsWith. rewrite (H x (or_introl eq_refl)).
  destruct (negb (JS.truthy x)); apply IH; intros q Hq; apply H; now right.
Qed.

(** The first match is the head of the list when the text begins with
    it. *)
Lemma first_match_head (x q trimmed : string) (xs before after : list string) :
  x :: xs = before ++ q :: after ->
  Forall (fun q' => String.prefix q' trimmed = false) before ->
  String.prefix x trimmed = true ->
  q = x.
Proof.
  intros Hl Hbefore Hx. destruct before as [|b before].
  - now injection Hl as ->.
  - injection Hl as <- _. inversion Hbefore as [|? ? Hb]. congruence.
Qed.

End OncharHelpers.

(** ** Access decisions of [handleMessage] *)

Section HandleMessageFacts.

Import Monitor.

Variable core : Core.
Variable account : Account.

(** The conversation kind [handleMessage] derives for a room. *)
Definition kindOf (roomId : string) : ChatType :=
  roomKind (match roomInfo core roomId with Some r => r_t r | None => None end).

(** [msg.msg?.trim() || ""] *)
Definition rawTextOf (m : RocketChatMessage) : string := orString (trimOpt (msg m)) "".

(** The message is taken up: it has an identifier that was not seen within
    the TTL, and a sender [senderId] other than the bot, and it is not a
    system message. *)
Definition admitted (now : Z) (recent : Dedupe.Cache) (m : RocketChatMessage)
    (senderId : string) : Prop :=
  JS.truthy (m_id m) = true /\
  fst (Dedupe.check Dedupe.recentOptions
         (Some (accountId account +:+ ":" +:+ m_id m)) now recent) = false /\
  (exists sender, u m = Some sender /\ u_id sender = senderId) /\
  JS.truthy senderId = true /\
  (senderId =? botUserId account)%string = false /\
  isSystemMessage m = false.

(** The message is taken up and passes the DM or group access control and
    the command gate. *)
Definition reachesMentionGate (now : Z) (recent : Dedupe.Cache) (roomId : string)
    (m : RocketChatMessage) (senderId : string) : Prop :=
  admitted now recent m senderId /\
  accessControl core account (kindOf roomId) senderId (senderNameOf core m senderId)
    (rawTextOf m) = None.

Lemma handleMessage_admitted now recent roomId m senderId :
  admitted now recent m senderId ->
  fst (handleMessage core account now recent roomId m) =
  match accessControl core account (kindOf roomId) senderId (senderNameOf core m senderId)
          (rawTextOf m) with
  | Some o => o
  | None => respond core account roomId m (kindOf roomId) senderId
              (senderNameOf core m senderId) (rawTextOf m)
  end.
Proof.
  intros (Hid & Hfresh & (sender & Hu & Hsid) & Hsender & Hbot & Hsys).
  unfold handleMessage. rewrite Hid. cbn [negb].
  destruct (Dedupe.check _ _ _ _) as [seen recent'].
  cbn [fst] in Hfresh. subst seen.
  rewrite Hu, Hsid, Hsender, Hbot, Hsys. cbn [negb].
  fold (kindOf roomId). fold (rawTextOf m).
  now destruct (accessControl _ _ _ _ _ _).
Qed.

(** Whatever the message, [handleMessage] ends before the access control
    only by dropping it. *)
Lemma handleMessage_cases now recent roomId m :
  (exists why, fst (handleMessage core account now recent roomId m) = Dropped why /\
               In why [NoMessageId; Duplicate; NoSender; OwnMessage; SystemMessage]) \/
  (exists senderId, admitted now recent m senderId).
Proof.
  unfold admitted, handleMessage.
  destruct (JS.truthy (m_id m)) eqn:Hid; cbn [negb];
    [|left; eexists; split; [reflexivity|simpl; tauto]].
  destruct (Dedupe.check _ _ _ _) as [seen recent'] eqn:Hcheck.
  destruct seen; [left; eexists; split; [reflexivity|simpl; tauto]|].
  destruct (u m) as [sender|] eqn:Hu;
    [|left; eexists; split; [reflexivity|simpl; tauto]].
  destruct (JS.truthy (u_id sender)) eqn:Hs; cbn [negb];
    [|left; eexists; split; [reflexivity|simpl; tauto]].
  destruct ((u_id sender =? botUserId account)%string) eqn:Hbot;
    [left; eexists; split; [reflexivity|simpl; tauto]|].
  destruct (isSystemMessage m) eqn:Hsys;
    [left; eexists; split; [reflexivity|simpl; tauto]|].
  right. exists (u_id sender). repeat split; eauto.
Qed.

(** C8. In a group or channel conversation, with the group policy
    "allowlist" and an empty effective group allow-list, [handleMessage]
    drops every message, whoever sent it, before the mention gate and the
    dispatch: the access control ends with "no group allowlist" for every
    sender, name and text, and a call of [handleMessage] ends with a drop
    at the access control or before it. *)
Theorem group_allowlist_empty_drops_all :
  forall (now : Z) (recent : Dedupe.Cache) (roomId : string) (m : RocketChatMessage),
    kindOf roomId <> direct ->
    effectiveGroupPolicy account = gp_allowlist ->
    effectiveGroupAllowFrom core account = [] ->
    (forall senderId senderName rawText,
        accessControl core account (kindOf roomId) senderId senderName rawText
        = Some (Dropped NoGroupAllowlist)) /\
    (exists why,
        fst (handleMessage core account now recent roomId m) = Dropped why /\
        In why [NoMessageId; Duplicate; NoSender; OwnMessage; SystemMessage;
                NoGroupAllowlist]).
Proof.
  intros now recent roomId m Hkind Hpolicy Hempty.
  assert (Hac : forall senderId senderName rawText,
             accessControl core account (kindOf roomId) senderId senderName rawText
             = Some (Dropped NoGroupAllowlist)).
  { intros. unfold accessControl. rewrite Hpolicy, Hempty.
    destruct (kindOf roomId); [contradiction|reflexivity|reflexivity]. }
  split; [exact Hac|].
  destruct (handleMessage_cases now recent roomId m) as [(why & Hwhy & Hin)|[senderId Hadm]].
  - exists why. split; [exact Hwhy|]. simpl in *. tauto.
  - exists NoGroupAllowlist. split; [|simpl; tauto].
    rewrite (handleMessage_admitted _ _ _ _ _ Hadm). now rewrite Hac.
Qed.

(** *** Trigger prefixes *)

(** The body [respond] builds from the text it keeps and the media. *)
Definition bodyOf (bodySource : string) (mediaList : list RocketChatMediaInfo) : string :=
  normalizeMention
    (JS.trim (JS.join JS.LF
                (List.filter JS.truthy [bodySource; buildAttachmentPlaceholder mediaList])))
    (botUsername account).

(** The trigger-prefix result [respond] computes in "onchar" mode. *)
Definition oncharResultOf (rawText : string) : Onchar.Stripped :=
  Onchar.stripOncharPrefix rawText (Onchar.resolveOncharPrefixes (oncharPrefixes account)).

(** In "onchar" mode outside direct conversations, a triggered message
    passes both mention gates; its body is built from the stripped text,
    and it is dispatched unless that body is empty. *)
Lemma respond_onchar_triggered roomId m kind senderId senderName rawText :
  kind <> direct ->
  chatmode account = Some onchar ->
  Onchar.triggered (oncharResultOf rawText) = true ->
  let body := bodyOf (Onchar.stripped (oncharResultOf rawText)) (resolveMedia core m) in
  (body <> "" ->
   exists ctx,
     respond core account roomId m kind senderId senderName rawText = Dispatched ctx /\
     BodyForAgent ctx = body /\ WasMentioned ctx = Some true) /\
  (body = "" ->
   respond core account roomId m kind senderId senderName rawText = Dropped EmptyBody).
Proof.
  intros Hkind Hmode Htrig body.
  assert (Hk : ChatType_eqb kind direct = false)
    by (destruct kind; [contradiction|reflexivity|reflexivity]).
  unfold respond. rewrite Hk, Hmode. cbn [negb andb].
  fold (oncharResultOf rawText). rewrite Htrig.
  rewrite !orb_true_r. cbn [negb andb]. rewrite !andb_false_r.
  fold (bodyOf (Onchar.stripped (oncharResultOf rawText)) (resolveMedia core m)).
  fold body.
  destruct (JS.truthy body) eqn:Hbody; cbn [negb].
  - apply truthy_iff in Hbody. split; [|contradiction].
    intros _. eexists. split; [reflexivity|]. split; [reflexivity|].
    cbn [WasMentioned]. now destruct kind.
  - apply negb_false_iff, String.eqb_eq in Hbody. split; [contradiction|].
    intros _. reflexivity.
Qed.

(** [pendingBody]: the text, or a placeholder for a message without text. *)
Definition pendingBodyOf (m : RocketChatMessage) (rawText : string) : string :=
  orString rawText
    (match file m with
     | Some _ => "[Rocket.Chat file]"
     | None =>
         match attachments m with
         | Some (_ :: _) => "[Rocket.Chat attachment]"
         | _ => ""
         end
     end).

(** In "onchar" mode outside direct conversations, a message that is not
    triggered, does not mention the bot and is not a control command ends
    at the first gate: it is recorded into the pending history only. *)
Lemma respond_onchar_not_triggered roomId m kind senderId senderName rawText :
  kind <> direct ->
  chatmode account = Some onchar ->
  Onchar.triggered (oncharResultOf rawText) = false ->
  (forall b, botUsername account = Some b ->
             JS.includes (JS.toLowerCase rawText) ("@" +:+ JS.toLowerCase b) = false) ->
  (forall regexes, matchesMentionPatterns core rawText regexes = false) ->
  hasControlCommand core rawText = false ->
  exists key,
    respond core account roomId m kind senderId senderName rawText =
    HistoryRecorded key
      (if JS.truthy key && JS.truthy (JS.trim (pendingBodyOf m rawText))
       then Some {| h_sender := senderName;
                    h_body := JS.trim (pendingBodyOf m rawText);
                    h_timestamp := extractMessageTimestamp (dateGetTime core) m;
                    h_messageId := m_id m |}
       else None).
Proof.
  intros Hkind Hmode Htrig Hbot Hpat Hcmd.
  assert (Hk : ChatType_eqb kind direct = false)
    by (destruct kind; [contradiction|reflexivity|reflexivity]).
  unfold respond. rewrite Hk, Hmode. cbn [negb andb].
  fold (oncharResultOf rawText). rewrite Htrig, Hpat.
  unfold isControlCommand. rewrite Hcmd, andb_false_r. cbn [negb andb].
  assert (Hb : match botUsername account with
               | Some b =>
                   if JS.truthy b
                   then JS.includes (JS.toLowerCase rawText) ("@" +:+ JS.toLowerCase b)
                   else false
               | None => false
               end = false).
  { destruct (botUsername account) as [b|] eqn:Hbn; [|reflexivity].
    destruct (JS.truthy b); [now apply Hbot|reflexivity]. }
  rewrite Hb. cbn [orb negb andb].
  fold (pendingBodyOf m rawText).
  destruct kind; [contradiction| |]; eexists; reflexivity.
Qed.

Lemma resolveMedia_text_only (m : RocketChatMessage) :
  file m = None -> files m = None -> attachments m = None -> resolveMedia core m = [].
Proof. intros Hf Hfs Ha. unfold resolveMedia. now rewrite Hf, Hfs, Ha. Qed.

(** A text without the at sign has no mention to remove. *)
Lemma normalizeMention_hello (mention : option string) :
  normalizeMention "hello" mention = "hello".
Proof.
  unfold normalizeMention. destruct mention as [b|]; [|reflexivity].
  destruct (JS.truthy b); reflexivity.
Qed.

(** The prefixes in force for the account. *)
Definition activePrefixes : list string :=
  Onchar.resolveOncharPrefixes (oncharPrefixes account).

(** The text [handleMessage] works on carries no outer white space. *)
Lemma trimStart_rawTextOf (m : RocketChatMessage) :
  JS.trimStart (rawTextOf m) = rawTextOf m.
Proof.
  unfold rawTextOf, orString, trimOpt.
  destruct (msg m) as [text|]; [|reflexivity].
  destruct (JS.truthy (JS.trim text)); [apply trimStart_trim|reflexivity].
Qed.

(** A text that begins with a prefix in force triggers: the first such
    prefix and the white space after it are removed. *)
Lemma oncharResultOf_first (m : RocketChatMessage) (p : string) :
  In p activePrefixes ->
  String.prefix p (rawTextOf m) = true ->
  exists before q after rest,
    activePrefixes = before ++ q :: after /\
    Forall (fun q' => String.prefix q' (rawTextOf m) = false) before /\
    q <> "" /\ rawTextOf m = q +:+ rest /\
    oncharResultOf (rawTextOf m)
    = {| Onchar.triggered := true; Onchar.stripped := JS.trimStart rest |}.
Proof.
  intros Hin Hp.
  destruct (stripLoop_first (rawTextOf m) (rawTextOf m) activePrefixes p
              (resolveOncharPrefixes_nonempty (oncharPrefixes account)) Hin Hp)
    as (before & q & after & Hact & Hbefore & Hq & Hloop).
  exists before, q, after, (JS.slice (String.length q) (rawTextOf m)).
  split; [exact Hact|]. split; [exact Hbefore|]. split; [|split].
  - apply (resolveOncharPrefixes_nonempty (oncharPrefixes account)).
    fold activePrefixes. rewrite Hact. apply in_or_app. right. now left.
  - now apply prefix_split.
  - unfold oncharResultOf, Onchar.stripOncharPrefix. rewrite trimStart_rawTextOf.
    exact Hloop.
Qed.

(** A text that begins with no prefix in force does not trigger. *)
Lemma oncharResultOf_none (m : RocketChatMessage) :
  (forall p, In p activePrefixes -> String.prefix p (rawTextOf m) = false) ->
  Onchar.triggered (oncharResultOf (rawTextOf m)) = false.
Proof.
  intros H. unfold oncharResultOf, Onchar.stripOncharPrefix.
  rewrite trimStart_rawTextOf, stripLoop_none by exact H. reflexivity.
Qed.

(** C7, amended. In "onchar" mode, for a message in a group or channel
    that reaches the mention gate:
    (1) the prefixes in force are the configured ones, trimmed, without the
    blank ones, and the defaults ">" and "!" when no prefix or only blank
    ones are configured;
    (2) when the text begins with a prefix in force, the first such prefix
    [q] of the list and the white space after it are stripped, the message
    passes the mention gates with the mention flag set, and it is
    dispatched with the body built from the stripped text, provided that
    body is not empty; when it is empty the message is dropped without a
    dispatch;
    (3) with the default prefixes, the text-only message "> hello" is
    dispatched with the body "hello";
    (4) when the text begins with no prefix in force, the bot is not
    mentioned and the text is not a control command, the message is not
    dispatched: it is recorded into the pending history, whether or not a
    mention is required. *)
Theorem onchar_prefix_round_trip :
  forall (now : Z) (recent : Dedupe.Cache) (roomId : string),
    chatmode account = Some onchar ->
    kindOf roomId <> direct ->
    ((forall ps,
         oncharPrefixes account = Some ps ->
         (exists q, In q ps /\ JS.trim q <> "") ->
         forall p, In p activePrefixes <-> p <> "" /\ exists q, In q ps /\ JS.trim q = p) /\
     (oncharPrefixes account = None \/
      (exists ps, oncharPrefixes account = Some ps /\ forall q, In q ps -> JS.trim q = "") ->
      activePrefixes = [">"; "!"])) /\
    (forall m senderId p,
        reachesMentionGate now recent roomId m senderId ->
        In p activePrefixes ->
        String.prefix p (rawTextOf m) = true ->
        exists before q after rest,
          activePrefixes = before ++ q :: after /\
          Forall (fun q' => String.prefix q' (rawTextOf m) = false) before /\
          q <> "" /\ rawTextOf m = q +:+ rest /\
          let body := bodyOf (JS.trimStart rest) (resolveMedia core m) in
          (body <> "" ->
           exists ctx,
             fst (handleMessage core account now recent roomId m) = Dispatched ctx /\
             BodyForAgent ctx = body /\ WasMentioned ctx = Some true) /\
          (body = "" ->
           fst (handleMessage core account now recent roomId m) = Dropped EmptyBody)) /\
    (oncharPrefixes account = None ->
     Onchar.stripOncharPrefix "> hello" activePrefixes
     = {| Onchar.triggered := true; Onchar.stripped := "hello" |} /\
     (forall m senderId,
         reachesMentionGate now recent roomId m senderId ->
         msg m = Some "> hello" ->
         file m = None -> files m = None -> attachments m = None ->
         exists ctx,
           fst (handleMessage core account now recent roomId m) = Dispatched ctx /\
           BodyForAgent ctx = "hello" /\ WasMentioned ctx = Some true)) /\
    (forall m senderId,
        reachesMentionGate now recent roomId m senderId ->
        (forall p, In p activePrefixes -> String.prefix p (rawTextOf m) = false) ->
        (forall b, botUsername account = Some b ->
                   JS.includes (JS.toLowerCase (rawTextOf m)) ("@" +:+ JS.toLowerCase b)
                   = false) ->
        (forall regexes, matchesMentionPatterns core (rawTextOf m) regexes = false) ->
        hasControlCommand core (rawTextOf m) = false ->
        exists key,
          fst (handleMessage core account now recent roomId m) =
          HistoryRecorded key
            (if JS.truthy key && JS.truthy (JS.trim (pendingBodyOf m (rawTextOf m)))
             then Some {| h_sender := senderNameOf core m senderId;
                          h_body := JS.trim (pendingBodyOf m (rawTextOf m));
                          h_timestamp := extractMessageTimestamp (dateGetTime core) m;
                          h_messageId := m_id m |}
             else None)).
Proof.
  intros now recent roomId Hmode Hkind.
  assert (Htriggered : forall m senderId p,
             reachesMentionGate now recent roomId m senderId ->
             In p activePrefixes ->
             String.prefix p (rawTextOf m) = true ->
             exists before q after rest,
               activePrefixes = before ++ q :: after /\
               Forall (fun q' => String.prefix q' (rawTextOf m) = false) before /\
               q <> "" /\ rawTextOf m = q +:+ rest /\
               let body := bodyOf (JS.trimStart rest) (resolveMedia core m) in
               (body <> "" ->
                exists ctx,
                  fst (handleMessage core account now recent roomId m) = Dispatched ctx /\
                  BodyForAgent ctx = body /\ WasMentioned ctx = Some true) /\
               (body = "" ->
                fst (handleMessage core account now recent roomId m)
                = Dropped EmptyBody)).
  { intros m senderId p [Hadm Hac] Hin Hp.
    destruct (oncharResultOf_first m p Hin Hp)
      as (before & q & after & rest & Hact & Hbefore & Hq & Hraw & Hres).
    exists before, q, after, rest.
    split; [exact Hact|]. split; [exact Hbefore|]. split; [exact Hq|].
    split; [exact Hraw|].
    rewrite (handleMessage_admitted _ _ _ _ _ Hadm), Hac.
    pose proof (respond_onchar_triggered roomId m (kindOf roomId) senderId
                  (senderNameOf core m senderId) (rawTextOf m) Hkind Hmode) as Hresp.
    rewrite Hres in Hresp. cbn [Onchar.triggered Onchar.stripped] in Hresp.
    exact (Hresp eq_refl). }
  split; [split|split; [exact Htriggered|split]].
  - intros ps Hps Hsome p. unfold activePrefixes.
    rewrite Hps, resolveOncharPrefixes_configured by exact Hsome.
    apply cleaned_members.
  - intros H. unfold activePrefixes. now apply resolveOncharPrefixes_default.
  - intros Hdefault.
    assert (Hactive : activePrefixes = [">"; "!"])
      by (unfold activePrefixes; now rewrite Hdefault).
    split; [now rewrite Hactive|].
    intros m senderId Hreach Hmsg Hf Hfs Ha.
    assert (Hraw : rawTextOf m = "> hello") by (unfold rawTextOf; now rewrite Hmsg).
    destruct (Htriggered m senderId ">" Hreach)
      as (before & q & after & rest & Hact & Hbefore & Hq & Hrest & Hdispatch & _).
    + rewrite Hactive. now left.
    + now rewrite Hraw.
    + rewrite Hactive in Hact. rewrite Hraw in Hrest, Hbefore.
      assert (Hfirst : q = ">") by (now apply (first_match_head _ _ _ _ _ _ Hact Hbefore)).
      subst q. change "> hello" with (">" +:+ " hello") in Hrest.
      apply (String.app_inj ">") in Hrest. subst rest.
      rewrite resolveMedia_text_only in Hdispatch by assumption.
      assert (Hbody : bodyOf (JS.trimStart " hello") [] = "hello")
        by (unfold bodyOf; cbn; apply normalizeMention_hello).
      rewrite Hbody in Hdispatch. apply Hdispatch. discriminate.
  - intros m senderId [Hadm Hac] Hnone Hbot Hpat Hcmd.
    rewrite (handleMessage_admitted _ _ _ _ _ Hadm), Hac.
    apply respond_onchar_not_triggered; try assumption.
    now apply oncharResultOf_none.
Qed.

End HandleMessageFacts.

(** *** A concrete setting *)

Section Examples.

Import Monitor.

(** A command gate that authorises when access groups are off or some
    configured authorizer allows the sender. *)
Definition exampleCommandGate (useAccessGroups : bool)
    (authorizers : list CommandAuthorizer) (allowTextCommands hasControlCommand : bool)
  : CommandGate :=
  let authorized :=
    negb useAccessGroups || existsb (fun a => configured a && allowed a) authorizers in
  {| commandAuthorized := authorized;
     shouldBlock := allowTextCommands && hasControlCommand && negb authorized |}.

(** An SDK in which commands start with a slash, the pairing store is
    empty, no mention pattern is configured and every room is a public
    channel. *)
Definition exampleCore : Core :=
  {| Regex := unit;
     shouldHandleTextCommands := true;
     hasControlCommand := fun text => String.prefix "/" text;
     resolveControlCommandGate := exampleCommandGate;
     readAllowFromStore := Returned [];
     upsertPairingRequest := fun _ _ => {| code := "PAIR42"; created := true |};
     resolveAgentRoute := fun _ peer _ =>
       {| sessionKey := "agent:main:rocketchat:" +:+ peer; agentId := "main";
          routeAccountId := "default" |};
     buildMentionRegexes := fun _ => [];
     matchesMentionPatterns := fun _ _ => false;
     resolveRequireMention := fun _ => true;
     fetchAndSave := fun _ => Thrown "offline";
     dateGetTime := fun _ => 0;
     roomInfo := fun id =>
       Some {| r_id := id; r_name := Some "general"; r_fname := None; r_t := Some "c";
               r_topic := None; r_teamId := None |};
     userInfo := fun _ => None |}.

(** An account in "onchar" mode whose groups are open. *)
Definition oncharAccount : Account :=
  {| accountId := "default"; dmPolicy := None; groupPolicy := Some gp_open;
     defaultGroupPolicy := None; allowFrom := None; groupAllowFrom := None;
     useAccessGroups := None; chatmode := Some onchar; oncharPrefixes := None;
     botUserId := "bot1"; botUsername := Some "claw" |}.

(** An account with the default group policy and no allow-list at all. *)
Definition allowlistAccount : Account :=
  {| accountId := "default"; dmPolicy := None; groupPolicy := None;
     defaultGroupPolicy := None; allowFrom := None; groupAllowFrom := None;
     useAccessGroups := None; chatmode := None; oncharPrefixes := None;
     botUserId := "bot1"; botUsername := Some "claw" |}.

Lemma example_reaches_gate (text : string) :
  String.prefix "/" (JS.trim text) = false ->
  reachesMentionGate exampleCore oncharAccount 1000 [] "GENERAL" (textMessage "m1" text) "u1".
Proof.
  intros Hcmd. split.
  - repeat split; try reflexivity. eexists. split; reflexivity.
  - unfold accessControl, kindOf. cbn.
    unfold rawTextOf, orString, trimOpt. cbn [msg textMessage].
    destruct (JS.truthy (JS.trim text)); [now rewrite Hcmd|reflexivity].
Qed.

(** An account in "onchar" mode with its own prefixes, one of them
    blank. *)
Definition customPrefixAccount : Account :=
  {| accountId := "default"; dmPolicy := None; groupPolicy := Some gp_open;
     defaultGroupPolicy := None; allowFrom := None; groupAllowFrom := None;
     useAccessGroups := None; chatmode := Some onchar;
     oncharPrefixes := Some [" #! "; ""];
     botUserId := "bot1"; botUsername := Some "claw" |}.

Lemma example_custom_reaches_gate (text : string) :
  String.prefix "/" (JS.trim text) = false ->
  reachesMentionGate exampleCore customPrefixAccount 1000 [] "GENERAL"
    (textMessage "m1" text) "u1".
Proof.
  intros Hcmd. split.
  - repeat split; try reflexivity. eexists. split; reflexivity.
  - unfold accessControl, kindOf. cbn.
    unfold rawTextOf, orString, trimOpt. cbn [msg textMessage].
    destruct (JS.truthy (JS.trim text)); [now rewrite Hcmd|reflexivity].
Qed.

(** The claim of C7 fails as stated: the message ">" begins with a
    configured prefix and passes every gate, and is not dispatched, since
    nothing is left of it once the prefix is stripped. *)
Lemma onchar_prefix_round_trip_counterexample :
  ~ (forall (core : Core) (account : Account) (now : Z) (recent : Dedupe.Cache)
            (roomId : string) (m : RocketChatMessage) (senderId p : string),
        chatmode account = Some onchar ->
        kindOf core roomId <> direct ->
        reachesMentionGate core account now recent roomId m senderId ->
        In p (Onchar.resolveOncharPrefixes (oncharPrefixes account)) ->
        String.prefix p (rawTextOf m) = true ->
        exists ctx, fst (handleMessage core account now recent roomId m) = Dispatched ctx).
Proof.
  intros H.
  destruct (H exampleCore oncharAccount 1000 [] "GENERAL" (textMessage "m1" ">") "u1" ">")
    as [ctx Hctx].
  - reflexivity.
  - vm_compute. discriminate.
  - now apply example_reaches_gate.
  - now left.
  - reflexivity.
  - vm_compute in Hctx. discriminate Hctx.
Qed.

Lemma onchar_prefix_round_trip_witness :
  (exists ctx,
      fst (handleMessage exampleCore oncharAccount 1000 [] "GENERAL"
             (textMessage "m1" "> hello")) = Dispatched ctx /\
      BodyForAgent ctx = "hello" /\ WasMentioned ctx = Some true) /\
  (exists key entry,
      fst (handleMessage exampleCore oncharAccount 1000 [] "GENERAL"
             (textMessage "m1" "hello")) = HistoryRecorded key entry) /\
  fst (handleMessage exampleCore oncharAccount 1000 [] "GENERAL" (textMessage "m1" ">"))
  = Dropped EmptyBody /\
  (exists ctx,
      fst (handleMessage exampleCore customPrefixAccount 1000 [] "GENERAL"
             (textMessage "m1" "#! hi")) = Dispatched ctx /\
      BodyForAgent ctx = "hi").
Proof.
  assert (Hkind : kindOf exampleCore "GENERAL" <> direct) by (vm_compute; discriminate).
  destruct (onchar_prefix_round_trip exampleCore oncharAccount 1000 [] "GENERAL"
              eq_refl Hkind) as (_ & Htriggered & Hdefault & Hnone).
  destruct (onchar_prefix_round_trip exampleCore customPrefixAccount 1000 [] "GENERAL"
              eq_refl Hkind) as ([Hconfigured _] & Hcustom & _).
  destruct (Hdefault eq_refl) as (_ & Haccept).
  split; [|split; [|split]].
  - apply (Haccept (textMessage "m1" "> hello") "u1");
      [apply example_reaches_gate| | | |]; reflexivity.
  - destruct (Hnone (textMessage "m1" "hello") "u1") as [key Hkey].
    + now apply example_reaches_gate.
    + intros p [<-|[<-|[]]]; reflexivity.
    + intros b Hb. injection Hb as <-. reflexivity.
    + reflexivity.
    + reflexivity.
    + eauto.
  - destruct (Htriggered (textMessage "m1" ">") "u1" ">")
      as (before & q & after & rest & Hact & Hbefore & _ & Hraw & _ & Hdrop).
    + now apply example_reaches_gate.
    + now left.
    + reflexivity.
    + assert (Hq : q = ">")
        by (apply (first_match_head _ _ _ _ _ _ Hact Hbefore); reflexivity).
      subst q. vm_compute in Hraw. injection Hraw as <-.
      apply Hdrop. vm_compute. reflexivity.
  - assert (Hin : In "#!" (activePrefixes customPrefixAccount)).
    { apply (Hconfigured [" #! "; ""] eq_refl).
      - exists " #! ". split; [now left|vm_compute; discriminate].
      - split; [discriminate|]. exists " #! ". split; [now left|reflexivity]. }
    destruct (Hcustom (textMessage "m1" "#! hi") "u1" "#!")
      as (before & q & after & rest & Hact & Hbefore & _ & Hraw & Hdispatch & _).
    + now apply example_custom_reaches_gate.
    + exact Hin.
    + reflexivity.
    + assert (Hq : q = "#!")
        by (apply (first_match_head "#!" _ _ [] _ _ Hact Hbefore); reflexivity).
      subst q. vm_compute in Hraw. injection Hraw as <-.
      destruct Hdispatch as (ctx & Hctx & Hbody & _); [vm_compute; discriminate|].
      exists ctx. split; [exact Hctx|]. rewrite Hbody. vm_compute. reflexivity.
Defined.

Lemma group_allowlist_empty_drops_all_witness :
  fst (handleMessage exampleCore allowlistAccount 1000 [] "GENERAL"
         (textMessage "m1" "hello everyone"))
  = Dropped NoGroupAllowlist /\
  accessControl exampleCore allowlistAccount (kindOf exampleCore "GENERAL")
    "u1" "alice" "hello everyone" = Some (Dropped NoGroupAllowlist).
Proof.
  split; [reflexivity|].
  apply (group_allowlist_empty_drops_all exampleCore allowlistAccount 1000 [] "GENERAL"
           (textMessage "m1" "hello everyone")).
  - vm_compute. discriminate.
  - reflexivity.
  - reflexivity.
Defined.

End Examples.

(** ** The realtime connection *)

Section RealtimeFacts.

Import Realtime.

Definition frame (tag : string) (error : option ErrorValue) : Raw :=
  Parsed {| d_msg := Some tag; d_id := None; d_collection := None; d_eventName := None;
            d_args := None; d_error := error |}.

(** The server's answers during the handshake. *)
Definition connectedFrame : Raw := frame "connected" None.
Definition loginOk : Raw := frame "result" None.
Definition loginFailed : Raw :=
  frame "result"
    (Some (ErrorObject (Some "You've been logged out by the server. Please log in again.")
                       "{}")).

Definition isOpenEvent (ev : Event) : bool :=
  match ev with
  | EvOpen => true
  | _ => false
  end.

(** The message a close rejects with when the socket never opened. *)
Definition closedBeforeOpen (code : nat) : string :=
  "Rocket.Chat WebSocket closed before open (code " +:+ JS.ofNat code +:+ ")".

Lemma ddpSend_opened f s : opened (ddpSend f s) = opened s.
Proof. unfold ddpSend. now destruct (readyState s). Qed.

Lemma onData_opened tok data s : opened (onData tok data s) = opened s.
Proof.
  unfold onData.
  destruct (isMsg data "ping"); [apply ddpSend_opened|].
  destruct (isMsg data "connected"); [cbn; now rewrite ddpSend_opened|].
  destruct (isMsg data "result" && negb (authenticated s)).
  - destruct (errorTruthy (d_error data)); [reflexivity|].
    cbn. now rewrite ddpSend_opened.
  - destruct (isMsg data "changed" && _); [|reflexivity].
    destruct (d_args data) as [[|[message|] ?]|]; try reflexivity.
    destruct (JS.truthy (Monitor.m_id message)); [|reflexivity].
    destruct (Monitor.orElse _ _) as [roomId|]; [|reflexivity].
    now destruct (JS.truthy roomId && _).
Qed.

(** Only the [open] event sets [opened]; nothing resets it. *)
Lemma step_opened tok s ev : opened (step tok s ev) = opened s || isOpenEvent ev.
Proof.
  destruct ev as [|raw|code reason|err| | |]; cbn [step isOpenEvent].
  - rewrite ddpSend_opened. cbn. now rewrite orb_true_r.
  - rewrite orb_false_r. destruct raw; [reflexivity|]. now rewrite onData_opened.
  - rewrite orb_false_r. cbn. now destruct (opened s) eqn:Ho.
  - rewrite orb_false_r. unfold wsClose. cbn. now destruct (readyState s).
  - rewrite orb_false_r. destruct (abortListener s); [|reflexivity].
    unfold wsTerminate. cbn. now destruct (readyState s).
  - rewrite orb_false_r. destruct (watchdogTimer s); [|reflexivity].
    unfold wsTerminate. cbn. now destruct (readyState s).
  - rewrite orb_false_r. destruct (clientPingInterval s); [|reflexivity].
    destruct (readyState s) eqn:Hr; try reflexivity.
    cbn. now rewrite ddpSend_opened.
Qed.

Lemma run_opened tok evs s :
  opened (run tok s evs) = opened s || existsb isOpenEvent evs.
Proof.
  unfold run. revert s. induction evs as [|ev evs IH]; intros s; simpl.
  - now rewrite orb_false_r.
  - rewrite IH, step_opened. now rewrite orb_assoc.
Qed.

(** The claim of C5 fails as stated: a close after the socket opened but
    before the login completed resolves the promise, exactly as a close
    after authentication does. *)
Lemma close_before_auth_counterexample :
  ~ (forall (evs1 evs2 : list Event) (code : nat),
        let s1 := run "token" (init false 0) evs1 in
        let s2 := run "token" (init false 0) evs2 in
        promise s1 = Pending -> promise s2 = Pending ->
        authenticated s1 = false -> authenticated s2 = true ->
        promise (step "token" s1 (EvClose code None))
        <> promise (step "token" s2 (EvClose code None))).
Proof.
  intros H.
  apply (H [EvOpen] [EvOpen; EvMessage connectedFrame; EvMessage loginOk] 1000%nat);
    reflexivity.
Qed.

(** A close leaves a settled promise as it is. *)
Lemma close_outcome tok s code reason :
  promise (step tok s (EvClose code reason)) =
  match promise s with
  | Pending => if opened s then Resolved else Rejected (closedBeforeOpen code)
  | settled => settled
  end.
Proof.
  cbn [step]. cbn. destruct (opened s); unfold settle; cbn; now destruct (promise s).
Qed.

Definition isCloseEvent (ev : Event) : bool :=
  match ev with
  | EvClose _ _ => true
  | _ => false
  end.

(** The rejection of the login branch. *)
Definition loginFailure (errMsg : string) : Promise :=
  Rejected ("Rocket.Chat DDP login failed: " +:+ errMsg).

(** The promise is pending, or a failed login has rejected it. *)
Definition pendingOrLoginFailed (p : Promise) : Prop :=
  p = Pending \/ exists errMsg, p = loginFailure errMsg.

Lemma ddpSend_promise f s : promise (ddpSend f s) = promise s.
Proof. unfold ddpSend. now destruct (readyState s). Qed.

Lemma onData_pendingOrLoginFailed tok data s :
  pendingOrLoginFailed (promise s) -> pendingOrLoginFailed (promise (onData tok data s)).
Proof.
  intros H. unfold onData.
  destruct (isMsg data "ping"); [now rewrite ddpSend_promise|].
  destruct (isMsg data "connected"); [cbn; now rewrite ddpSend_promise|].
  destruct (isMsg data "result" && negb (authenticated s)).
  - destruct (errorTruthy (d_error data)).
    + unfold settle. cbn. destruct H as [->|[e ->]]; [right; eexists; reflexivity|].
      right. now exists e.
    + cbn. now rewrite ddpSend_promise.
  - destruct (isMsg data "changed" && _); [|exact H].
    destruct (d_args data) as [[|[message|] ?]|]; try exact H.
    destruct (JS.truthy (Monitor.m_id message)); [|exact H].
    destruct (Monitor.orElse _ _) as [roomId|]; [|exact H].
    now destruct (JS.truthy roomId && _).
Qed.

(** Before the first [close] event nothing but a failed login settles the
    promise. *)
Lemma step_pendingOrLoginFailed tok s ev :
  isCloseEvent ev = false ->
  pendingOrLoginFailed (promise s) -> pendingOrLoginFailed (promise (step tok s ev)).
Proof.
  intros Hev H. destruct ev as [|raw|code reason|err| | |]; cbn [step];
    try discriminate Hev.
  - now rewrite ddpSend_promise.
  - destruct raw; [exact H|]. now apply onData_pendingOrLoginFailed.
  - unfold wsClose. cbn. now destruct (readyState s).
  - destruct (abortListener s); [|exact H].
    unfold wsTerminate. cbn. now destruct (readyState s).
  - destruct (watchdogTimer s); [|exact H].
    unfold wsTerminate. cbn. now destruct (readyState s).
  - destruct (clientPingInterval s); [|exact H].
    destruct (readyState s) eqn:Hr; try exact H.
    cbn. now rewrite ddpSend_promise.
Qed.

Lemma run_pendingOrLoginFailed tok evs s :
  existsb isCloseEvent evs = false ->
  pendingOrLoginFailed (promise s) -> pendingOrLoginFailed (promise (run tok s evs)).
Proof.
  unfold run. revert s. induction evs as [|ev evs IH]; intros s Hevs H; [exact H|].
  cbn [existsb] in Hevs. apply orb_false_iff in Hevs as [Hev Hevs].
  cbn [fold_left]. apply IH; [exact Hevs|]. now apply step_pendingOrLoginFailed.
Qed.

(** C5, amended. When the socket closes, after any sequence of events,
    and the promise is still pending, the outcome depends on whether the
    socket ever opened, not on whether the login completed: without an
    [open] event before it the close rejects with "Rocket.Chat WebSocket
    closed before open (code N)", with one it resolves, before and after
    authentication alike.  A promise that is settled already keeps its
    outcome; before the first close it can only have been settled by a
    failed login, whose rejection "Rocket.Chat DDP login failed: ..." the
    close leaves in place. *)
Theorem close_outcome_depends_on_open :
  forall (authToken : string) (hasAbortSignal : bool) (counter : nat)
         (evs : list Event) (code : nat) (reason : option string),
    let s := run authToken (init hasAbortSignal counter) evs in
    promise (step authToken s (EvClose code reason)) =
    match promise s with
    | Pending =>
        if existsb isOpenEvent evs then Resolved else Rejected (closedBeforeOpen code)
    | settled => settled
    end /\
    (existsb isCloseEvent evs = false ->
     promise s = Pending \/
     exists errMsg,
       promise s = Rejected ("Rocket.Chat DDP login failed: " +:+ errMsg) /\
       promise (step authToken s (EvClose code reason)) = promise s).
Proof.
  intros authToken hasAbortSignal counter evs code reason s.
  assert (Hclose : promise (step authToken s (EvClose code reason)) =
                   match promise s with
                   | Pending =>
                       if existsb isOpenEvent evs then Resolved
                       else Rejected (closedBeforeOpen code)
                   | settled => settled
                   end).
  { rewrite close_outcome. unfold s. now rewrite run_opened. }
  split; [exact Hclose|].
  intros Hevs.
  destruct (run_pendingOrLoginFailed authToken evs (init hasAbortSignal counter) Hevs)
    as [Hp|[errMsg Hp]]; [now left|now left|].
  right. exists errMsg. fold s in Hp. split; [exact Hp|].
  rewrite Hclose, Hp. reflexivity.
Qed.

Lemma close_outcome_depends_on_open_witness :
  promise (step "token" (run "token" (init false 0) [EvError "ECONNREFUSED"])
             (EvClose 1006 None))
  = Rejected "Rocket.Chat WebSocket closed before open (code 1006)" /\
  promise (step "token" (run "token" (init false 0) [EvOpen; EvMessage connectedFrame])
             (EvClose 1000 None))
  = Resolved /\
  promise (step "token"
             (run "token" (init false 0)
                [EvOpen; EvMessage connectedFrame; EvMessage loginOk])
             (EvClose 1000 None))
  = Resolved /\
  promise (step "token"
             (run "token" (init false 0)
                [EvOpen; EvMessage connectedFrame; EvMessage loginFailed])
             (EvClose 1000 None))
  = Rejected ("Rocket.Chat DDP login failed: "
              +:+ "You've been logged out by the server. Please log in again.").
Proof.
  destruct (close_outcome_depends_on_open "token" false 0%nat [EvError "ECONNREFUSED"]
              1006%nat None) as [H1 _].
  destruct (close_outcome_depends_on_open "token" false 0%nat
              [EvOpen; EvMessage connectedFrame] 1000%nat None) as [H2 _].
  destruct (close_outcome_depends_on_open "token" false 0%nat
              [EvOpen; EvMessage connectedFrame; EvMessage loginOk] 1000%nat None)
    as [H3 _].
  destruct (close_outcome_depends_on_open "token" false 0%nat
              [EvOpen; EvMessage connectedFrame; EvMessage loginFailed] 1000%nat None)
    as [H4 _].
  rewrite H1, H2, H3, H4. vm_compute. auto.
Defined.

(** C6 (the code departs from the claim). When the login result carries an
    error while the socket is open and the login is outstanding, the
    promise is rejected with "Rocket.Chat DDP login failed: " and the
    server's message, the watchdog and the abort listener are removed, and
    nothing else happens: no frame is sent, so the login is not retried,
    and neither [ws.close()] nor [ws.terminate()] is called, so the socket
    stays open. *)
Theorem login_failure_rejects_socket_left_open :
  forall (authToken : string) (s : State) (data : DDPMessage) (e : ErrorValue),
    readyState s = OPEN ->
    promise s = Pending ->
    authenticated s = false ->
    d_msg data = Some "result" ->
    d_error data = Some e ->
    errorTruthy (Some e) = true ->
    let s' := step authToken s (EvMessage (Parsed data)) in
    promise s' = Rejected ("Rocket.Chat DDP login failed: " +:+ loginErrorMessage e) /\
    effects s' = effects s /\
    readyState s' = OPEN /\
    authenticated s' = false /\
    watchdogTimer s' = false /\ abortListener s' = false.
Proof.
  intros authToken s data e Hready Hp Hauth Hmsg Herr Htruthy s'.
  unfold s'. cbn [step]. unfold onData, isMsg. rewrite Hmsg. cbn [String.eqb Ascii.eqb].
  cbn. rewrite Hauth, Herr, Htruthy. cbn. rewrite Hp. repeat split; assumption.
Qed.

Lemma login_failure_rejects_socket_left_open_witness :
  let s := run "token" (init true 0) [EvOpen; EvMessage connectedFrame; EvMessage loginFailed] in
  promise s
  = Rejected ("Rocket.Chat DDP login failed: "
              +:+ "You've been logged out by the server. Please log in again.") /\
  effects s = [Send ConnectFrame; Send (LoginFrame "openclaw-1" "token")] /\
  readyState s = OPEN.
Proof.
  destruct (login_failure_rejects_socket_left_open "token"
              (run "token" (init true 0) [EvOpen; EvMessage connectedFrame])
              {| d_msg := Some "result"; d_id := None; d_collection := None;
                 d_eventName := None; d_args := None;
                 d_error := Some (ErrorObject
                   (Some "You've been logged out by the server. Please log in again.")
                   "{}") |}
              (ErrorObject
                 (Some "You've been logged out by the server. Please log in again.") "{}")
              eq_refl eq_refl eq_refl eq_refl eq_refl eq_refl)
    as (Hpromise & Heffects & Hready & _).
  split; [exact Hpromise|]. split; [exact Heffects|exact Hready].
Defined.

(** After the rejected login the abandoned socket still serves the
    handshake: a later result without an error authenticates, reports the
    connection and subscribes. *)
Lemma login_failure_socket_still_live :
  let s := run "token" (init true 0)
             [EvOpen; EvMessage connectedFrame; EvMessage loginFailed; EvMessage loginOk] in
  authenticated s = true /\
  effects s = [Send ConnectFrame; Send (LoginFrame "openclaw-1" "token");
               OnConnected; Send (SubFrame "openclaw-2")] /\
  watchdogTimer s = true.
Proof. repeat split; reflexivity. Qed.

End RealtimeFacts.

(** * Further properties *)

(** ** What a dispatch implies *)

Section DispatchFacts.

Import Monitor.

Variable core : Core.
Variable account : Account.

(** The key under which [handleMessage] records a message. *)
Definition dedupKey (m : RocketChatMessage) : string :=
  accountId account +:+ ":" +:+ m_id m.

(** The route [respond] resolves. *)
Definition routeOf (roomId : string) (kind : ChatType) (senderId : string) : AgentRoute :=
  resolveAgentRoute core kind
    (match kind with direct => senderId | _ => roomId end)
    (match roomInfo core roomId with Some r => r_teamId r | None => None end).

(** [wasMentioned]: the bot's handle occurs in the text, in any case, or a
    configured mention pattern matches. *)
Definition wasMentionedOf (roomId : string) (kind : ChatType) (senderId rawText : string)
  : bool :=
  negb (ChatType_eqb kind direct) &&
  (match botUsername account with
   | Some b =>
       if JS.truthy b
       then JS.includes (JS.toLowerCase rawText) ("@" +:+ JS.toLowerCase b)
       else false
   | None => false
   end
   || matchesMentionPatterns core rawText
        (buildMentionRegexes core (agentId (routeOf roomId kind senderId)))).

(** [oncharTriggered] *)
Definition oncharTriggeredOf (kind : ChatType) (rawText : string) : bool :=
  Onchar.triggered
    (if match chatmode account with Some onchar => true | _ => false end
        && negb (ChatType_eqb kind direct)
     then Onchar.stripOncharPrefix rawText
            (if match chatmode account with Some onchar => true | _ => false end
                && negb (ChatType_eqb kind direct)
             then Onchar.resolveOncharPrefixes (oncharPrefixes account) else [])
     else {| Onchar.triggered := false; Onchar.stripped := rawText |}).

(** [canDetectMention] *)
Definition canDetectMentionOf (roomId : string) (kind : ChatType) (senderId : string) : bool :=
  JS.truthyOpt (botUsername account)
  || (0 <? length (buildMentionRegexes core (agentId (routeOf roomId kind senderId))))%nat.

(** What [respond] has established when it dispatches. *)
Lemma respond_dispatched roomId m kind senderId senderName rawText ctx :
  respond core account roomId m kind senderId senderName rawText = Dispatched ctx ->
  SenderId ctx = senderId /\ SenderName ctx = senderName /\ MessageSid ctx = m_id m /\
  ChatTypeOf ctx = kind /\
  JS.truthy (BodyForAgent ctx) = true /\
  CommandAuthorized ctx = commandAuthorizedOf core account kind senderId senderName rawText /\
  To ctx = match kind with
           | direct => "user:" +:+ senderId
           | _ => "channel:" +:+ roomId
           end /\
  (kind <> direct ->
   WasMentioned ctx =
   Some (wasMentionedOf roomId kind senderId rawText
         || (isControlCommand core rawText && resolveRequireMention core roomId
             && negb (wasMentionedOf roomId kind senderId rawText)
             && commandAuthorizedOf core account kind senderId senderName rawText)
         || oncharTriggeredOf kind rawText)) /\
  (kind <> direct -> resolveRequireMention core roomId = true ->
   canDetectMentionOf roomId kind senderId = true ->
   WasMentioned ctx = Some true).
Proof.
  unfold respond, wasMentionedOf, oncharTriggeredOf, canDetectMentionOf, routeOf.
  destruct (_ && _ && _ && negb (isControlCommand core rawText)); [discriminate|].
  match goal with
  | |- (if ?c then _ else _) = _ -> _ => destruct c eqn:Hgate; [discriminate|]
  end.
  match goal with
  | |- (if ?c then _ else _) = _ -> _ => destruct c eqn:Hbody; [discriminate|]
  end.
  intros H. inversion H; subst ctx; clear H. cbn.
  apply negb_false_iff in Hbody.
  repeat split; try reflexivity; try exact Hbody.
  - now destruct kind.
  - intros Hk. destruct kind; [contradiction| |]; cbn; rewrite ?andb_true_l; reflexivity.
  - intros Hk Hreq Hdetect.
    destruct kind; [contradiction| |]; cbn in *;
      rewrite Hreq, Hdetect in Hgate; cbn in Hgate;
      apply negb_false_iff in Hgate; rewrite Hreq; cbn; now rewrite Hgate.
Qed.

(** A dispatch comes from an admitted message that passed the access
    control. *)
Lemma handleMessage_dispatched now recent roomId m ctx :
  fst (handleMessage core account now recent roomId m) = Dispatched ctx ->
  exists senderId,
    admitted account now recent m senderId /\
    accessControl core account (kindOf core roomId) senderId
      (senderNameOf core m senderId) (rawTextOf m) = None /\
    respond core account roomId m (kindOf core roomId) senderId
      (senderNameOf core m senderId) (rawTextOf m) = Dispatched ctx.
Proof.
  intros H.
  destruct (handleMessage_cases core account now recent roomId m)
    as [(why & Hwhy & _)|[senderId Hadm]]; [congruence|].
  exists senderId. split; [exact Hadm|].
  rewrite (handleMessage_admitted core account _ _ _ _ _ Hadm) in H.
  destruct (accessControl _ _ _ _ _ _) as [o|] eqn:Hac; [|now split].
  exfalso. subst o. unfold accessControl in Hac.
  destruct (kindOf core roomId);
    [destruct (effectiveDmPolicy account)|destruct (effectiveGroupPolicy account)
    |destruct (effectiveGroupPolicy account)];
    repeat match type of Hac with
           | (if ?c then _ else _) = _ => destruct c
           end; discriminate.
Qed.



(** No dispatch without access: a dispatched direct message comes from a
    sender on the effective DM allow-list unless the DM policy is "open",
    and the DM policy is not "disabled"; a dispatched group or channel
    message comes from a sender on the effective group allow-list unless the
    group policy is "open", and the group policy is not "disabled". *)
Theorem dispatch_requires_access :
  forall (now : Z) (recent : Dedupe.Cache) (roomId : string) (m : RocketChatMessage)
         (ctx : InboundContext),
    fst (handleMessage core account now recent roomId m) = Dispatched ctx ->
    match kindOf core roomId with
    | direct =>
        effectiveDmPolicy account = dm_open \/
        (effectiveDmPolicy account <> dm_disabled /\
         Allow.isSenderAllowed (SenderId ctx) (Some (SenderName ctx))
           (effectiveAllowFrom core account) = true)
    | _ =>
        effectiveGroupPolicy account = gp_open \/
        (effectiveGroupPolicy account = gp_allowlist /\
         effectiveGroupAllowFrom core account <> [] /\
         Allow.isSenderAllowed (SenderId ctx) (Some (SenderName ctx))
           (effectiveGroupAllowFrom core account) = true)
    end.
Proof.
  intros now recent roomId m ctx H.
  destruct (handleMessage_dispatched _ _ _ _ _ H) as (senderId & _ & Hac & Hres).
  destruct (respond_dispatched _ _ _ _ _ _ _ Hres) as (Hsid & Hname & _).
  rewrite Hsid, Hname. unfold accessControl in Hac.
  fold (senderAllowedForCommands core account senderId (senderNameOf core m senderId)).
  fold (groupAllowedForCommands core account senderId (senderNameOf core m senderId)).
  destruct (kindOf core roomId).
  - destruct (effectiveDmPolicy account); try discriminate Hac; [| |now left];
      (destruct (senderAllowedForCommands _ _ _ _); [|discriminate Hac]);
      right; split; first [discriminate|reflexivity].
  - destruct (effectiveGroupPolicy account); try discriminate Hac; [|now left].
    destruct (effectiveGroupAllowFrom core account) eqn:Hl; [discriminate Hac|].
    cbn [length Nat.eqb] in Hac.
    destruct (groupAllowedForCommands _ _ _ _); [|discriminate Hac].
    right. repeat split; discriminate.
  - destruct (effectiveGroupPolicy account); try discriminate Hac; [|now left].
    destruct (effectiveGroupAllowFrom core account) eqn:Hl; [discriminate Hac|].
    cbn [length Nat.eqb] in Hac.
    destruct (groupAllowedForCommands _ _ _ _); [|discriminate Hac].
    right. repeat split; discriminate.
Qed.

(** A dispatched message has an identifier that was not seen within the
    TTL, was not sent by the bot itself, is not a system message, and has a
    non-empty body. *)
Theorem dispatch_excludes_own_system_duplicate :
  forall (now : Z) (recent : Dedupe.Cache) (roomId : string) (m : RocketChatMessage)
         (ctx : InboundContext),
    fst (handleMessage core account now recent roomId m) = Dispatched ctx ->
    SenderId ctx <> botUserId account /\
    SenderId ctx <> "" /\
    isSystemMessage m = false /\
    MessageSid ctx = m_id m /\ m_id m <> "" /\
    BodyForAgent ctx <> "" /\
    fst (Dedupe.check Dedupe.recentOptions (Some (dedupKey m)) now recent) = false.
Proof.
  intros now recent roomId m ctx H.
  destruct (handleMessage_dispatched _ _ _ _ _ H) as (senderId & Hadm & _ & Hres).
  destruct (respond_dispatched _ _ _ _ _ _ _ Hres) as (Hsid & _ & Hmid & _ & Hbody & _).
  destruct Hadm as (Hid & Hfresh & _ & Hs & Hbot & Hsys).
  rewrite Hsid. repeat split; try assumption.
  - now apply String.eqb_neq.
  - intros ->. discriminate Hs.
  - intros Heq. rewrite Heq in Hid. discriminate Hid.
  - intros Heq. rewrite Heq in Hbody. discriminate Hbody.
Qed.

(** In a group or channel where a mention is required and the bot has a
    handle, a dispatched message carries the mention flag, and it mentions
    the bot, or is an authorised control command, or begins with a trigger
    prefix in "onchar" mode. *)
Theorem dispatch_in_group_requires_mention :
  forall (now : Z) (recent : Dedupe.Cache) (roomId : string) (m : RocketChatMessage)
         (ctx : InboundContext),
    fst (handleMessage core account now recent roomId m) = Dispatched ctx ->
    kindOf core roomId <> direct ->
    resolveRequireMention core roomId = true ->
    JS.truthyOpt (botUsername account) = true ->
    WasMentioned ctx = Some true /\
    (wasMentionedOf roomId (kindOf core roomId) (SenderId ctx) (rawTextOf m) = true \/
     (isControlCommand core (rawTextOf m) = true /\ CommandAuthorized ctx = true) \/
     (chatmode account = Some onchar /\
      Onchar.triggered
        (Onchar.stripOncharPrefix (rawTextOf m)
           (Onchar.resolveOncharPrefixes (oncharPrefixes account))) = true)).
Proof.
  intros now recent roomId m ctx H Hkind Hreq Hbot.
  destruct (handleMessage_dispatched _ _ _ _ _ H) as (senderId & _ & _ & Hres).
  destruct (respond_dispatched _ _ _ _ _ _ _ Hres)
    as (Hsid & _ & _ & _ & _ & Hauth & _ & Hflag & Hmention).
  assert (Hm : WasMentioned ctx = Some true).
  { apply Hmention; [exact Hkind|exact Hreq|].
    unfold canDetectMentionOf. now rewrite Hbot. }
  split; [exact Hm|].
  rewrite (Hflag Hkind) in Hm. injection Hm as Hor.
  rewrite Hsid, Hauth.
  apply orb_true_iff in Hor as [Hor|Htrig].
  - apply orb_true_iff in Hor as [Hw|Hbypass]; [now left|].
    right. left. rewrite !andb_true_iff in Hbypass. tauto.
  - right. right. unfold oncharTriggeredOf in Htrig.
    destruct (chatmode account) as [[| |]|]; cbn in Htrig; try discriminate.
    destruct (ChatType_eqb (kindOf core roomId) direct); cbn in Htrig; [discriminate|].
    split; [reflexivity|exact Htrig].
Qed.



End DispatchFacts.

Section DispatchExamples.

Import Monitor.

(** The example SDK with every room of the given type. *)
Definition exampleCoreOf (roomType : string) : Core :=
  {| Regex := unit;
     shouldHandleTextCommands := true;
     hasControlCommand := fun text => String.prefix "/" text;
     resolveControlCommandGate := exampleCommandGate;
     readAllowFromStore := Returned [];
     upsertPairingRequest := fun _ _ => {| code := "PAIR42"; created := true |};
     resolveAgentRoute := fun _ peer _ =>
       {| sessionKey := "agent:main:rocketchat:" +:+ peer; agentId := "main";
          routeAccountId := "default" |};
     buildMentionRegexes := fun _ => [];
     matchesMentionPatterns := fun _ _ => false;
     resolveRequireMention := fun _ => true;
     fetchAndSave := fun _ => Thrown "offline";
     dateGetTime := fun _ => 0;
     roomInfo := fun id =>
       Some {| r_id := id; r_name := Some "general"; r_fname := None;
               r_t := Some roomType; r_topic := None; r_teamId := None |};
     userInfo := fun _ => None |}.

(** An account whose groups admit only alice. *)
Definition aliceOnlyAccount : Account :=
  {| accountId := "default"; dmPolicy := None; groupPolicy := None;
     defaultGroupPolicy := None; allowFrom := None; groupAllowFrom := Some ["@Alice"];
     useAccessGroups := None; chatmode := None; oncharPrefixes := None;
     botUserId := "bot1"; botUsername := Some "claw" |}.

Lemma dispatch_requires_access_witness :
  exists ctx,
    fst (handleMessage (exampleCoreOf "p") aliceOnlyAccount 1000 [] "GROUP1"
           (textMessage "m1" "@claw hi")) = Dispatched ctx /\
    BodyForAgent ctx = "hi" /\
    Allow.isSenderAllowed (SenderId ctx) (Some (SenderName ctx))
      (effectiveGroupAllowFrom (exampleCoreOf "p") aliceOnlyAccount) = true.
Proof.
  eexists. split; [reflexivity|]. split; [reflexivity|].
  pose proof (dispatch_requires_access (exampleCoreOf "p") aliceOnlyAccount 1000 []
                "GROUP1" (textMessage "m1" "@claw hi") _ eq_refl) as H.
  vm_compute in H. destruct H as [H|(_ & _ & H)]; [discriminate H|].
  vm_compute. exact H.
Defined.

Lemma dispatch_excludes_own_system_duplicate_witness :
  exists ctx,
    fst (handleMessage (exampleCoreOf "p") aliceOnlyAccount 1000 [] "GROUP1"
           (textMessage "m1" "@claw hi")) = Dispatched ctx /\
    SenderId ctx <> "bot1" /\ MessageSid ctx = "m1".
Proof.
  eexists. split; [reflexivity|].
  destruct (dispatch_excludes_own_system_duplicate (exampleCoreOf "p") aliceOnlyAccount
              1000 [] "GROUP1" (textMessage "m1" "@claw hi") _ eq_refl)
    as (Hbot & _ & _ & Hsid & _).
  split; [exact Hbot|exact Hsid].
Defined.

Lemma dispatch_in_group_requires_mention_witness :
  exists ctx,
    fst (handleMessage (exampleCoreOf "p") aliceOnlyAccount 1000 [] "GROUP1"
           (textMessage "m1" "@claw hi")) = Dispatched ctx /\
    WasMentioned ctx = Some true.
Proof.
  eexists. split; [reflexivity|].
  apply (dispatch_in_group_requires_mention (exampleCoreOf "p") aliceOnlyAccount
           1000 [] "GROUP1" (textMessage "m1" "@claw hi") _ eq_refl).
  - vm_compute. discriminate.
  - reflexivity.
  - reflexivity.
Defined.



End DispatchExamples.

(** ** Invariants of the realtime connection *)

Section RealtimeInvariants.

Import Realtime.

Definition isSend (e : Effect) : bool :=
  match e with
  | Send _ => true
  | _ => false
  end.

Definition isOnConnected (e : Effect) : bool :=
  match e with
  | OnConnected => true
  | _ => false
  end.

Definition isSubFrame (e : Effect) : bool :=
  match e with
  | Send (SubFrame _) => true
  | _ => false
  end.


(** A delivery to [onMessage] names a real room and a message with an
    identifier. *)
Definition deliveryOk (e : Effect) : Prop :=
  match e with
  | OnMessage roomId message =>
      roomId <> "" /\ roomId <> "__my_messages__" /\ Monitor.m_id message <> ""
  | _ => True
  end.

(** *** Frame lemmas: what the socket primitives leave alone *)

Lemma readyState_ddpSend (f : Frame) (s : State) : readyState (ddpSend f s) = readyState s.
Proof. unfold ddpSend. cbn. destruct (readyState s) eqn:E; cbn; congruence. Qed.

Lemma opened_ddpSend (f : Frame) (s : State) : opened (ddpSend f s) = opened s.
Proof. unfold ddpSend. cbn. destruct (readyState s) eqn:E; cbn; congruence. Qed.

Lemma authenticated_ddpSend (f : Frame) (s : State) : authenticated (ddpSend f s) = authenticated s.
Proof. unfold ddpSend. cbn. destruct (readyState s) eqn:E; cbn; congruence. Qed.

Lemma watchdogTimer_ddpSend (f : Frame) (s : State) : watchdogTimer (ddpSend f s) = watchdogTimer s.
Proof. unfold ddpSend. cbn. destruct (readyState s) eqn:E; cbn; congruence. Qed.

Lemma abortListener_ddpSend (f : Frame) (s : State) : abortListener (ddpSend f s) = abortListener s.
Proof. unfold ddpSend. cbn. destruct (readyState s) eqn:E; cbn; congruence. Qed.

Lemma clientPingInterval_ddpSend (f : Frame) (s : State) : clientPingInterval (ddpSend f s) = clientPingInterval s.
Proof. unfold ddpSend. cbn. destruct (readyState s) eqn:E; cbn; congruence. Qed.

Lemma ddpIdCounter_ddpSend (f : Frame) (s : State) : ddpIdCounter (ddpSend f s) = ddpIdCounter s.
Proof. unfold ddpSend. cbn. destruct (readyState s) eqn:E; cbn; congruence. Qed.

Lemma promise_ddpSend (f : Frame) (s : State) : promise (ddpSend f s) = promise s.
Proof. unfold ddpSend. cbn. destruct (readyState s) eqn:E; cbn; congruence. Qed.

Lemma readyState_wsClose (s : State) :
  readyState (wsClose s) = match readyState s with CLOSED => CLOSED | _ => CLOSING end.
Proof. unfold wsClose. cbn. destruct (readyState s) eqn:E; cbn; congruence. Qed.

Lemma opened_wsClose (s : State) : opened (wsClose s) = opened s.
Proof. unfold wsClose. cbn. destruct (readyState s) eqn:E; cbn; congruence. Qed.

Lemma authenticated_wsClose (s : State) : authenticated (wsClose s) = authenticated s.
Proof. unfold wsClose. cbn. destruct (readyState s) eqn:E; cbn; congruence. Qed.

Lemma watchdogTimer_wsClose (s : State) : watchdogTimer (wsClose s) = watchdogTimer s.
Proof. unfold wsClose. cbn. destruct (readyState s) eqn:E; cbn; congruence. Qed.

Lemma abortListener_wsClose (s : State) : abortListener (wsClose s) = abortListener s.
Proof. unfold wsClose. cbn. destruct (readyState s) eqn:E; cbn; congruence. Qed.

Lemma clientPingInterval_wsClose (s : State) : clientPingInterval (wsClose s) = clientPingInterval s.
Proof. unfold wsClose. cbn. destruct (readyState s) eqn:E; cbn; congruence. Qed.

Lemma ddpIdCounter_wsClose (s : State) : ddpIdCounter (wsClose s) = ddpIdCounter s.
Proof. unfold wsClose. cbn. destruct (readyState s) eqn:E; cbn; congruence. Qed.

Lemma promise_wsClose (s : State) : promise (wsClose s) = promise s.
Proof. unfold wsClose. cbn. destruct (readyState s) eqn:E; cbn; congruence. Qed.

Lemma readyState_wsTerminate (s : State) :
  readyState (wsTerminate s) = match readyState s with CLOSED => CLOSED | _ => CLOSING end.
Proof. unfold wsTerminate. cbn. destruct (readyState s) eqn:E; cbn; congruence. Qed.

Lemma opened_wsTerminate (s : State) : opened (wsTerminate s) = opened s.
Proof. unfold wsTerminate. cbn. destruct (readyState s) eqn:E; cbn; congruence. Qed.

Lemma authenticated_wsTerminate (s : State) : authenticated (wsTerminate s) = authenticated s.
Proof. unfold wsTerminate. cbn. destruct (readyState s) eqn:E; cbn; congruence. Qed.

Lemma watchdogTimer_wsTerminate (s : State) : watchdogTimer (wsTerminate s) = watchdogTimer s.
Proof. unfold wsTerminate. cbn. destruct (readyState s) eqn:E; cbn; congruence. Qed.

Lemma abortListener_wsTerminate (s : State) : abortListener (wsTerminate s) = abortListener s.
Proof. unfold wsTerminate. cbn. destruct (readyState s) eqn:E; cbn; congruence. Qed.

Lemma clientPingInterval_wsTerminate (s : State) : clientPingInterval (wsTerminate s) = clientPingInterval s.
Proof. unfold wsTerminate. cbn. destruct (readyState s) eqn:E; cbn; congruence. Qed.

Lemma ddpIdCounter_wsTerminate (s : State) : ddpIdCounter (wsTerminate s) = ddpIdCounter s.
Proof. unfold wsTerminate. cbn. destruct (readyState s) eqn:E; cbn; congruence. Qed.

Lemma promise_wsTerminate (s : State) : promise (wsTerminate s) = promise s.
Proof. unfold wsTerminate. cbn. destruct (readyState s) eqn:E; cbn; congruence. Qed.

Lemma effects_ddpSend (f : Frame) (s : State) :
  effects (ddpSend f s)
  = effects s ++ match readyState s with OPEN => [Send f] | _ => [] end.
Proof. unfold ddpSend. destruct (readyState s); cbn; now rewrite ?app_nil_r. Qed.

Lemma effects_wsClose (s : State) : effects (wsClose s) = effects s ++ [WsClose].
Proof. unfold wsClose. cbn. destruct (readyState s) eqn:E; cbn; congruence. Qed.

Lemma effects_wsTerminate (s : State) : effects (wsTerminate s) = effects s ++ [WsTerminate].
Proof. unfold wsTerminate. cbn. destruct (readyState s) eqn:E; cbn; congruence. Qed.


(** Projections pushed through the state updates. *)
Ltac simp_state :=
  cbn [readyState opened authenticated watchdogTimer abortListener clientPingInterval
       ddpIdCounter promise effects emit setWatchdog setReadyState settle cleanup
       clearWatchdog resetWatchdog nextDdpId fst snd].

Ltac frames :=
  rewrite ?readyState_ddpSend, ?opened_ddpSend, ?authenticated_ddpSend, ?watchdogTimer_ddpSend, ?abortListener_ddpSend, ?clientPingInterval_ddpSend, ?ddpIdCounter_ddpSend, ?promise_ddpSend, ?effects_ddpSend, ?readyState_wsClose, ?opened_wsClose, ?authenticated_wsClose, ?watchdogTimer_wsClose, ?abortListener_wsClose, ?clientPingInterval_wsClose, ?ddpIdCounter_wsClose, ?promise_wsClose, ?effects_wsClose, ?readyState_wsTerminate, ?opened_wsTerminate, ?authenticated_wsTerminate, ?watchdogTimer_wsTerminate, ?abortListener_wsTerminate, ?clientPingInterval_wsTerminate, ?ddpIdCounter_wsTerminate, ?promise_wsTerminate, ?effects_wsTerminate.

Ltac simp_frames := repeat (progress (simp_state; frames)).

Ltac branch_step :=
  match goal with
  | |- context [if ?c then _ else _] => destruct c eqn:?
  | |- context [match ?x with _ => _ end] => destruct x eqn:?
  end.

(** The branches of a handler, with the state updates pushed through. *)
Ltac handler_cases := simp_frames; repeat (branch_step; simp_frames).

Lemma run_cons tok s ev evs : run tok s (ev :: evs) = run tok (step tok s ev) evs.
Proof. reflexivity. Qed.

(** *** The promise settles once *)

Lemma onData_promise_settled tok data s :
  promise s <> Pending -> promise (onData tok data s) = promise s.
Proof. intros H. unfold onData. handler_cases; congruence. Qed.

Lemma step_promise_settled tok s ev :
  promise s <> Pending -> promise (step tok s ev) = promise s.
Proof.
  intros H. destruct ev as [|[|data]|code reason|err| | |]; cbn [step].
  all: try (rewrite onData_promise_settled by (simp_frames; exact H)).
  all: handler_cases; congruence.
Qed.

Lemma run_promise_settled tok evs s :
  promise s <> Pending -> promise (run tok s evs) = promise s.
Proof.
  revert s. induction evs as [|ev evs IH]; intros s H; [reflexivity|].
  rewrite run_cons, IH; rewrite step_promise_settled; auto.
Qed.

(** Once the promise of a connection attempt is resolved or rejected, no
    later event changes its outcome: a close after a rejected login does not
    turn the rejection into a success, a second close changes nothing. *)
Theorem promise_settles_once :
  forall (authToken : string) (hasAbortSignal : bool) (counter : nat)
         (before after : list Event),
    let s := run authToken (init hasAbortSignal counter) before in
    promise s <> Pending ->
    promise (run authToken s after) = promise s.
Proof. intros authToken hasAbortSignal counter before after s H. now apply run_promise_settled. Qed.

Lemma promise_settles_once_witness :
  promise (run "token"
             (run "token" (init true 0)
                [EvOpen; EvMessage connectedFrame; EvMessage loginFailed])
             [EvMessage loginOk; EvClose 1000 None])
  = Rejected ("Rocket.Chat DDP login failed: "
              +:+ "You've been logged out by the server. Please log in again.").
Proof.
  etransitivity.
  - apply (promise_settles_once "token" true 0%nat
             [EvOpen; EvMessage connectedFrame; EvMessage loginFailed]
             [EvMessage loginOk; EvClose 1000 None]).
    vm_compute. discriminate.
  - vm_compute. reflexivity.
Defined.

(** *** Authentication happens once *)

Definition countOf (p : Effect -> bool) (s : State) : nat :=
  length (List.filter p (effects s)).

(** The number of effects of a kind among those a step adds. *)
Ltac count_effects :=
  unfold countOf; handler_cases;
  rewrite ?List.filter_app, ?length_app; cbn [List.filter length isOnConnected isSubFrame];
  try lia; try (cbn in *; congruence).

Lemma onData_authenticated tok data s :
  authenticated s = true -> authenticated (onData tok data s) = true.
Proof. intros H. unfold onData. handler_cases; congruence. Qed.

Lemma onData_onConnected tok data s :
  countOf isOnConnected (onData tok data s) =
  (countOf isOnConnected s
   + if negb (authenticated s) && authenticated (onData tok data s) then 1 else 0)%nat.
Proof.
  destruct (authenticated s) eqn:Ha.
  - rewrite (onData_authenticated tok data s Ha). cbn [negb andb].
    unfold onData. rewrite Ha. cbn [negb]. rewrite andb_false_r. count_effects.
  - cbn [negb andb]. unfold onData. rewrite Ha. cbn [negb]. rewrite andb_true_r.
    count_effects.
Qed.

Lemma onData_subscribe tok data s :
  (countOf isSubFrame (onData tok data s) <=
   countOf isSubFrame s
   + if negb (authenticated s) && authenticated (onData tok data s) then 1 else 0)%nat.
Proof.
  destruct (authenticated s) eqn:Ha.
  - rewrite (onData_authenticated tok data s Ha). cbn [negb andb].
    unfold onData. rewrite Ha. cbn [negb]. rewrite andb_false_r. count_effects.
  - cbn [negb andb]. unfold onData. rewrite Ha. cbn [negb]. rewrite andb_true_r.
    count_effects.
Qed.

(** Outside the [message] listener nothing authenticates, reports the
    connection or subscribes. *)
Lemma step_other_counts tok s ev :
  (forall raw, ev <> EvMessage raw) ->
  authenticated (step tok s ev) = authenticated s /\
  countOf isOnConnected (step tok s ev) = countOf isOnConnected s /\
  countOf isSubFrame (step tok s ev) = countOf isSubFrame s.
Proof.
  intros Hev. destruct ev as [|raw|code reason|err| | |]; cbn [step];
    [|now elim (Hev raw)| | | | |].
  all: repeat split; count_effects.
Qed.

Lemma step_counts tok s ev :
  (authenticated s = true -> authenticated (step tok s ev) = true) /\
  countOf isOnConnected (step tok s ev) =
  (countOf isOnConnected s
   + if negb (authenticated s) && authenticated (step tok s ev) then 1 else 0)%nat /\
  (countOf isSubFrame (step tok s ev) <=
   countOf isSubFrame s
   + if negb (authenticated s) && authenticated (step tok s ev) then 1 else 0)%nat.
Proof.
  destruct ev as [|raw|code reason|err| | |].
  2: { cbn [step]. destruct raw as [|data].
       - simp_frames. unfold countOf. simp_frames.
         destruct (authenticated s); cbn; repeat split; lia.
       - pose proof (onData_authenticated tok data (resetWatchdog s)) as Ha.
         pose proof (onData_onConnected tok data (resetWatchdog s)) as Hc.
         pose proof (onData_subscribe tok data (resetWatchdog s)) as Hs.
         unfold countOf in *. simp_frames. cbn [effects authenticated resetWatchdog
           setWatchdog] in *. auto. }
  all: match goal with
       | |- context [step ?t ?st ?e] =>
           destruct (step_other_counts t st e ltac:(discriminate)) as (-> & -> & ->)
       end.
  all: destruct (authenticated s); cbn; repeat split; lia.
Qed.

Lemma run_authenticates_once tok evs s :
  (countOf isOnConnected (run tok s evs) + (if authenticated (run tok s evs) then 0 else 1)
   <= countOf isOnConnected s + (if authenticated s then 0 else 1) /\
   countOf isSubFrame (run tok s evs) + (if authenticated (run tok s evs) then 0 else 1)
   <= countOf isSubFrame s + (if authenticated s then 0 else 1))%nat.
Proof.
  revert s. induction evs as [|ev evs IH]; intros s.
  - cbn [run fold_left]. lia.
  - rewrite run_cons. specialize (IH (step tok s ev)).
    destruct (step_counts tok s ev) as (Ha & Hc & Hs).
    destruct (authenticated s).
    + rewrite (Ha eq_refl) in *. cbn [negb andb] in *. lia.
    + destruct (authenticated (step tok s ev)); cbn [negb andb] in *; lia.
Qed.

(** On one connection [onConnected] is called at most once and the
    message stream is subscribed at most once, whatever the server sends:
    after the first login result without an error, further results are
    ignored. *)
Theorem authentication_happens_once :
  forall (authToken : string) (hasAbortSignal : bool) (counter : nat) (evs : list Event),
    let s := run authToken (init hasAbortSignal counter) evs in
    (countOf isOnConnected s <= 1)%nat /\ (countOf isSubFrame s <= 1)%nat /\
    (authenticated s = false -> countOf isOnConnected s = 0%nat).
Proof.
  intros authToken hasAbortSignal counter evs s.
  destruct (run_authenticates_once authToken evs (init hasAbortSignal counter)) as [Hc Hs].
  fold s in Hc, Hs.
  change (countOf isOnConnected (init hasAbortSignal counter)) with 0%nat in Hc.
  change (countOf isSubFrame (init hasAbortSignal counter)) with 0%nat in Hs.
  cbn [authenticated init] in Hc, Hs.
  destruct (authenticated s); (split; [lia|split; [lia|]]); intros H; [discriminate H|lia].
Qed.

(** *** What reaches [onMessage] *)

Lemma truthy_nonempty (x : string) : JS.truthy x = true -> x <> "".
Proof. intros H ->. discriminate H. Qed.

Ltac deliveries :=
  handler_cases; rewrite ?Forall_app; repeat split; try assumption;
  repeat constructor;
  repeat match goal with
         | H : _ && _ = true |- _ => apply andb_true_iff in H as [? ?]
         | H : negb _ = true |- _ => apply negb_true_iff in H
         end;
  try (now apply truthy_nonempty);
  try (now apply String.eqb_neq).

Lemma onData_deliveries tok data s :
  Forall deliveryOk (effects s) -> Forall deliveryOk (effects (onData tok data s)).
Proof. intros H. unfold onData. deliveries. Qed.

Lemma step_deliveries tok s ev :
  Forall deliveryOk (effects s) -> Forall deliveryOk (effects (step tok s ev)).
Proof.
  intros H. destruct ev as [|[|data]|code reason|err| | |]; cbn [step].
  3: { apply onData_deliveries. simp_frames. exact H. }
  all: deliveries.
Qed.

Lemma run_deliveries tok evs :
  forall s, Forall deliveryOk (effects s) -> Forall deliveryOk (effects (run tok s evs)).
Proof.
  induction evs as [|ev evs IH]; intros s Hs; [exact Hs|].
  rewrite run_cons. apply IH, step_deliveries, Hs.
Qed.

(** Every call of the [onMessage] callback, in any sequence of events,
    carries a non-empty room identifier other than the subscription's
    placeholder and a message with a non-empty identifier. *)
Theorem onMessage_never_gets_placeholder_room :
  forall (authToken : string) (hasAbortSignal : bool) (counter : nat) (evs : list Event)
         (roomId : string) (message : Monitor.RocketChatMessage),
    In (OnMessage roomId message)
       (effects (run authToken (init hasAbortSignal counter) evs)) ->
    roomId <> "" /\ roomId <> "__my_messages__" /\ Monitor.m_id message <> "".
Proof.
  intros authToken hasAbortSignal counter evs roomId message Hin.
  pose proof (run_deliveries authToken evs (init hasAbortSignal counter) (List.Forall_nil _)) as H.
  rewrite List.Forall_forall in H. apply (H _ Hin).
Qed.

Lemma onMessage_never_gets_placeholder_room_witness :
  let message := textMessage "m7" "hello" in
  let changed :=
    Parsed {| d_msg := Some "changed"; d_id := None;
              d_collection := Some "stream-room-messages";
              d_eventName := Some "__my_messages__";
              d_args := Some [Some message]; d_error := None |} in
  In (OnMessage "GENERAL" message)
     (effects (run "token" (init false 0) [EvOpen; EvMessage changed])) /\
  "GENERAL" <> "__my_messages__".
Proof.
  intros message changed.
  assert (Hin : In (OnMessage "GENERAL" message)
                   (effects (run "token" (init false 0) [EvOpen; EvMessage changed])))
    by (vm_compute; right; left; reflexivity).
  split; [exact Hin|].
  apply (onMessage_never_gets_placeholder_room "token" false 0%nat
           [EvOpen; EvMessage changed] "GENERAL" message Hin).
Defined.

(** *** Writes need an open socket *)

Ltac sends :=
  handler_cases; rewrite ?List.filter_app; cbn [List.filter isSend app];
  rewrite ?app_nil_r; try (split; congruence).

Lemma onData_not_open tok data s :
  readyState s <> OPEN ->
  readyState (onData tok data s) <> OPEN /\
  List.filter isSend (effects (onData tok data s)) = List.filter isSend (effects s).
Proof. intros Hr. unfold onData. sends. Qed.

Lemma step_not_open tok s ev :
  readyState s <> OPEN -> isOpenEvent ev = false ->
  readyState (step tok s ev) <> OPEN /\
  List.filter isSend (effects (step tok s ev)) = List.filter isSend (effects s).
Proof.
  intros Hr He. destruct ev as [|[|data]|code reason|err| | |]; cbn [step];
    try discriminate He.
  2: { destruct (onData_not_open tok data (resetWatchdog s)) as [Hr' Hs'];
       [simp_frames; exact Hr|].
       split; [exact Hr'|]. rewrite Hs'. simp_frames. reflexivity. }
  all: sends.
Qed.

(** While the socket is not open (still connecting, closing or closed)
    and no [open] event arrives, no frame is written, whatever events are
    handled. *)
Theorem no_frame_written_unless_open :
  forall (authToken : string) (s : State) (evs : list Event),
    readyState s <> OPEN ->
    existsb isOpenEvent evs = false ->
    List.filter isSend (effects (run authToken s evs)) = List.filter isSend (effects s).
Proof.
  intros authToken s evs. revert s.
  induction evs as [|ev evs IH]; intros s Hr He; [reflexivity|].
  cbn [existsb] in He. apply orb_false_iff in He as [Hev Hrest].
  destruct (step_not_open authToken s ev Hr Hev) as [Hr' Hsend].
  rewrite run_cons, IH by assumption. exact Hsend.
Qed.

Lemma no_frame_written_unless_open_witness :
  List.filter isSend
    (effects (run "token" (run "token" (init false 0) [EvOpen; EvError "EPIPE"])
                [EvMessage connectedFrame; EvPingTick; EvClose 1006 None;
                 EvMessage loginOk]))
  = [Send ConnectFrame].
Proof.
  etransitivity.
  - apply no_frame_written_unless_open; [vm_compute; discriminate|reflexivity].
  - vm_compute. reflexivity.
Defined.

(** *** Inbound frames never close the socket *)



(** *** A watchdog timeout ends in a resolved promise *)

(** When the watchdog fires on a connection that opened and whose promise
    is pending, the code reports the timeout through [onError] and
    terminates the socket; the close that follows clears the timers and
    resolves the promise, as a clean close does. *)
Theorem watchdog_timeout_resolves :
  forall (authToken : string) (s : State) (code : nat) (reason : option string),
    opened s = true ->
    promise s = Pending ->
    watchdogTimer s = true ->
    let s' := run authToken s [EvWatchdog; EvClose code reason] in
    promise s' = Resolved /\
    effects s' = effects s ++ [OnError WatchdogTimeout; WsTerminate;
                               OnDisconnected code (match reason with
                                                    | Some r => r
                                                    | None => ""
                                                    end)] /\
    readyState s' = CLOSED /\
    watchdogTimer s' = false /\ clientPingInterval s' = false /\ abortListener s' = false.
Proof.
  intros authToken s code reason Ho Hp Hw s'. unfold s', run. cbn [fold_left step].
  rewrite Hw. simp_frames. rewrite Ho. simp_frames. rewrite Hp.
  rewrite <- !app_assoc. repeat split.
Qed.

Lemma watchdog_timeout_resolves_witness :
  promise (run "token"
             (run "token" (init false 0)
                [EvOpen; EvMessage connectedFrame; EvMessage loginOk])
             [EvWatchdog; EvClose 1006 None])
  = Resolved.
Proof.
  apply (watchdog_timeout_resolves "token"
           (run "token" (init false 0) [EvOpen; EvMessage connectedFrame; EvMessage loginOk])
           1006%nat None); vm_compute; reflexivity.
Defined.

(** *** Rejections and re-login *)

(** The two rejections of [createRealtimeConnection]. *)
Definition rejectionOk (p : Promise) : Prop :=
  match p with
  | Rejected m =>
      (exists errMsg, m = "Rocket.Chat DDP login failed: " +:+ errMsg) \/
      (exists code,
          m = "Rocket.Chat WebSocket closed before open (code " +:+ JS.ofNat code +:+ ")")
  | _ => True
  end.

Ltac rejections :=
  handler_cases;
  repeat match goal with
         | H : promise _ = _ |- _ => rewrite H in *
         end;
  try assumption; try exact I;
  cbn [rejectionOk];
  try (left; eexists; reflexivity); try (right; eexists; reflexivity).

Lemma onData_rejection tok data s :
  rejectionOk (promise s) -> rejectionOk (promise (onData tok data s)).
Proof. intros H. unfold onData. rejections. Qed.

Lemma step_rejection tok s ev :
  rejectionOk (promise s) -> rejectionOk (promise (step tok s ev)).
Proof.
  intros H. destruct ev as [|[|data]|code reason|err| | |]; cbn [step].
  3: { apply onData_rejection. simp_frames. exact H. }
  all: rejections.
Qed.

Lemma run_rejection tok evs :
  forall s, rejectionOk (promise s) -> rejectionOk (promise (run tok s evs)).
Proof.
  induction evs as [|ev evs IH]; intros s Hs; [exact Hs|].
  rewrite run_cons. apply IH, step_rejection, Hs.
Qed.

(** Whether a code unit occurs in a string. *)
Fixpoint hasChar (c : ascii) (s : string) : bool :=
  match s with
  | EmptyString => false
  | String a s' => Ascii.eqb a c || hasChar c s'
  end.

Lemma hasChar_append (c : ascii) (a b : string) :
  hasChar c (a +:+ b) = hasChar c a || hasChar c b.
Proof.
  induction a as [|x a IH]; [reflexivity|].
  change (String x a +:+ b) with (String x (a +:+ b)). cbn [hasChar].
  now rewrite IH, orb_assoc.
Qed.

Lemma includes_hasChar (c : ascii) (t s : string) :
  hasChar c s = false -> JS.includes s (String c t) = false.
Proof.
  induction s as [|a s IH]; intros H; [reflexivity|].
  cbn [hasChar] in H. apply orb_false_iff in H as [Ha Hs].
  cbn [JS.includes String.prefix].
  destruct (ascii_dec c a) as [->|_]; [now rewrite Ascii.eqb_refl in Ha|].
  cbn [orb]. now apply IH.
Qed.

Lemma hasChar_string_of_uint (d : Decimal.uint) :
  hasChar "D" (NilEmpty.string_of_uint d) = false.
Proof. induction d; cbn [NilEmpty.string_of_uint hasChar]; try rewrite IHd; reflexivity. Qed.

Lemma prefix_append (t s r : string) :
  String.prefix t s = true -> String.prefix t (s +:+ r) = true.
Proof.
  revert s. induction t as [|c t IH]; intros s H; [now destruct (s +:+ r)|].
  destruct s as [|a s]; [discriminate H|].
  change (String a s +:+ r) with (String a (s +:+ r)). cbn [String.prefix] in *.
  destruct (ascii_dec c a); [now apply IH|discriminate H].
Qed.

Lemma includes_append (s t r : string) :
  JS.includes s t = true -> JS.includes (s +:+ r) t = true.
Proof.
  induction s as [|a s IH]; intros H.
  - cbn [JS.includes] in H. rewrite orb_false_r in H.
    destruct t; [|discriminate H]. destruct r; reflexivity.
  - change (String a s +:+ r) with (String a (s +:+ r)). cbn [JS.includes] in *.
    apply orb_true_iff in H as [H|H].
    + change (String a (s +:+ r)) with (String a s +:+ r).
      now rewrite prefix_append.
    + rewrite IH by exact H. apply orb_true_r.
Qed.

(** The provider schedules a re-login exactly for the rejection of the
    login branch: whatever events a connection attempt sees, a rejection
    is either the login failure, which the [onError] callback of the
    reconnect loop recognises by its text and answers by scheduling a
    re-login when a user name and a password are configured, or the close
    before open, which leaves [reloginNeeded] as it was. *)
Theorem relogin_only_after_login_failure :
  forall (authToken : string) (hasAbortSignal : bool) (counter : nat) (evs : list Event)
         (message : string) (canRelogin reloginNeeded : bool),
    promise (run authToken (init hasAbortSignal counter) evs) = Rejected message ->
    (exists errMsg,
        message = "Rocket.Chat DDP login failed: " +:+ errMsg /\
        Provider.onError canRelogin reloginNeeded message = canRelogin || reloginNeeded) \/
    (exists code,
        message = "Rocket.Chat WebSocket closed before open (code "
                  +:+ JS.ofNat code +:+ ")" /\
        Provider.onError canRelogin reloginNeeded message = reloginNeeded).
Proof.
  intros authToken hasAbortSignal counter evs message canRelogin reloginNeeded Hp.
  pose proof (run_rejection authToken evs (init hasAbortSignal counter) I) as H.
  rewrite Hp in H. cbn [rejectionOk] in H.
  unfold Provider.onError, Provider.errorToString.
  destruct H as [(errMsg & ->)|(code & ->)]; [left; exists errMsg|right; exists code];
    (split; [reflexivity|]).
  - change ("Error: " +:+ "Rocket.Chat DDP login failed: " +:+ errMsg)
      with ("Error: Rocket.Chat DDP login failed: " +:+ errMsg).
    rewrite includes_append by (vm_compute; reflexivity).
    now destruct canRelogin, reloginNeeded.
  - rewrite includes_hasChar; [now rewrite andb_false_r|].
    rewrite !hasChar_append. unfold JS.ofNat. rewrite hasChar_string_of_uint.
    vm_compute. reflexivity.
Qed.

Lemma relogin_only_after_login_failure_witness :
  exists message,
    promise (run "token" (init false 0) [EvOpen; EvMessage connectedFrame; EvMessage loginFailed])
    = Rejected message /\
    Provider.onError true false message = true.
Proof.
  eexists. split; [vm_compute; reflexivity|].
  destruct (relogin_only_after_login_failure "token" false 0%nat
              [EvOpen; EvMessage connectedFrame; EvMessage loginFailed] _ true false
              eq_refl) as [(errMsg & _ & Hr)|(code & Hm & _)].
  - exact Hr.
  - vm_compute in Hm. discriminate Hm.
Defined.

End RealtimeInvariants.

(** ** Trigger prefixes *)

Section OncharFacts.

Import Onchar.

(** The prefixes used in "onchar" mode are never an empty list, and each
    of them is non-empty and trimmed, so the loop of [stripOncharPrefix]
    skips none; a configuration without any non-blank prefix falls back to
    the defaults. *)
Theorem resolveOncharPrefixes_usable :
  forall prefixes : option (list string),
    resolveOncharPrefixes prefixes <> [] /\
    (forall p, In p (resolveOncharPrefixes prefixes) -> p <> "" /\ JS.trim p = p) /\
    (forall configured,
        prefixes = Some configured ->
        (forall p, In p configured -> JS.trim p = "") ->
        resolveOncharPrefixes prefixes = DEFAULT_ONCHAR_PREFIXES) /\
    resolveOncharPrefixes None = [">"; "!"].
Proof.
  intros prefixes.
  assert (Hdefault : forall p, In p DEFAULT_ONCHAR_PREFIXES -> p <> "" /\ JS.trim p = p).
  { intros p [<-|[<-|[]]]; split; (discriminate || reflexivity). }
  assert (Hcleaned : forall ps p,
             In p (List.filter JS.truthy (map JS.trim ps)) -> p <> "" /\ JS.trim p = p).
  { intros ps p Hin. apply filter_In in Hin as [Hin Ht].
    apply in_map_iff in Hin as (x & <- & _).
    split; [now apply truthy_iff|apply trim_idempotent]. }
  unfold resolveOncharPrefixes. repeat split.
  - destruct prefixes as [ps|]; [|discriminate].
    destruct (List.filter JS.truthy (map JS.trim ps)); cbn; discriminate.
  - destruct prefixes as [ps|]; [|now apply Hdefault].
    destruct (List.filter JS.truthy (map JS.trim ps)) eqn:Hf; cbn in *;
      [now apply Hdefault|].
    apply (Hcleaned ps). now rewrite Hf.
  - destruct prefixes as [ps|]; [|now apply Hdefault].
    destruct (List.filter JS.truthy (map JS.trim ps)) eqn:Hf; cbn in *;
      [now apply Hdefault|].
    apply (Hcleaned ps). now rewrite Hf.
  - intros configured -> Hblank.
    assert (Hnil : List.filter JS.truthy (map JS.trim configured) = []).
    { induction configured as [|x xs IH]; [reflexivity|]. cbn.
      rewrite (Hblank x (or_introl eq_refl)). cbn.
      apply IH. intros p Hp. apply Hblank. now right. }
    now rewrite Hnil.
Qed.

Lemma stripLoop_spec (text trimmed : string) (prefixes : list string) :
  (triggered (stripLoop text trimmed prefixes) = false /\
   stripped (stripLoop text trimmed prefixes) = text /\
   forall p, In p prefixes -> p <> "" -> String.prefix p trimmed = false) \/
  (triggered (stripLoop text trimmed prefixes) = true /\
   exists p, In p prefixes /\ p <> "" /\ String.prefix p trimmed = true /\
             stripped (stripLoop text trimmed prefixes)
             = JS.trimStart (JS.slice (String.length p) trimmed)).
Proof.
  induction prefixes as [|q prefixes IH]; cbn.
  - left. repeat split. intros p [].
  - destruct (JS.truthy q) eqn:Hq; cbn.
    + unfold JS.startsWith. destruct (String.prefix q trimmed) eqn:Hp.
      * right. split; [reflexivity|]. exists q. repeat split; auto.
        now apply truthy_iff.
      * destruct IH as [(Ht & Hs & Hnone)|(Ht & p & Hin & Hne & Hpre & Hs)].
        -- left. repeat split; auto. intros p [<-|Hin] Hne; auto.
        -- right. split; [exact Ht|]. exists p. repeat split; auto.
    + destruct IH as [(Ht & Hs & Hnone)|(Ht & p & Hin & Hne & Hpre & Hs)].
      * left. repeat split; auto. intros p [<-|Hin] Hne; auto.
        apply truthy_iff in Hne. congruence.
      * right. split; [exact Ht|]. exists p. repeat split; auto.
Qed.

(** [stripOncharPrefix] triggers exactly when the text, after its leading
    white space, begins with one of the non-empty prefixes; then the result
    is what follows that prefix, without the white space after it;
    otherwise the text is returned unchanged. *)
Theorem stripOncharPrefix_triggers_on_prefix :
  forall (text : string) (prefixes : list string),
    let r := stripOncharPrefix text prefixes in
    (triggered r = true <->
     exists p, In p prefixes /\ p <> "" /\ String.prefix p (JS.trimStart text) = true) /\
    (triggered r = false -> stripped r = text) /\
    (triggered r = true ->
     JS.trimStart (stripped r) = stripped r /\
     exists p rest,
       In p prefixes /\ p <> "" /\ JS.trimStart text = p +:+ rest /\
       stripped r = JS.trimStart rest).
Proof.
  intros text prefixes r. unfold r, stripOncharPrefix.
  destruct (stripLoop_spec text (JS.trimStart text) prefixes)
    as [(Ht & Hs & Hnone)|(Ht & p & Hin & Hne & Hpre & Hs)].
  - rewrite Ht. repeat split; try discriminate; auto.
    intros (p & Hin & Hne & Hpre). rewrite (Hnone p Hin Hne) in Hpre. discriminate.
  - rewrite Ht. repeat split; try discriminate; eauto.
    + rewrite Hs. apply trimStart_idempotent.
    + exists p, (JS.slice (String.length p) (JS.trimStart text)).
      repeat split; auto. now apply prefix_split.
Qed.

End OncharFacts.

(** ** Allow-lists, continued *)

Section AllowListFacts.

Import Allow.

Lemma unique_NoDup (xs : list string) : List.NoDup (unique xs).
Proof.
  induction xs as [|x xs IH]; cbn; [constructor|]. constructor.
  - rewrite filter_In. intros [_ H]. now rewrite String.eqb_refl in H.
  - now apply List.NoDup_filter.
Qed.

Lemma normalizeAllowList_members (entries : list string) :
  forall x, In x (Allow.normalizeAllowList entries) <->
            x <> "" /\ exists e, In e entries /\ Allow.normalizeAllowEntry e = x.
Proof.
  intros x. unfold normalizeAllowList.
  rewrite unique_In, filter_In, in_map_iff, truthy_iff. split.
  - intros [(e & He & Hin) Hx]. split; [exact Hx|]. eauto.
  - intros [Hx (e & Hin & He)]. split; [eauto|exact Hx].
Qed.

(** [normalizeAllowList] yields exactly the non-empty normalised entries,
    each once. *)
Theorem normalizeAllowList_distinct_nonempty :
  forall entries : list string,
    List.NoDup (normalizeAllowList entries) /\
    (forall x, In x (normalizeAllowList entries) <->
               x <> "" /\ exists e, In e entries /\ normalizeAllowEntry e = x).
Proof.
  intros entries. split; [apply unique_NoDup|].
  apply normalizeAllowList_members.
Qed.

(** Against a normalised allow-list, a sender is allowed exactly when some
    configured entry normalises to the wildcard, to the normalised sender
    identifier, or to the normalised sender name: the comparison ignores
    case, outer white space, a leading "rocketchat:" or "user:" and a
    leading at sign, on both sides. *)
Theorem isSenderAllowed_matches_normalised :
  forall (entries : list string) (senderId : string) (senderName : option string),
    isSenderAllowed senderId senderName (normalizeAllowList entries) = true <->
    exists e,
      In e entries /\ normalizeAllowEntry e <> "" /\
      (normalizeAllowEntry e = "*" \/
       normalizeAllowEntry e = normalizeAllowEntry senderId \/
       exists n, senderName = Some n /\ n <> "" /\
                 normalizeAllowEntry e = normalizeAllowEntry n).
Proof.
  intros entries senderId senderName.
  pose proof (normalizeAllowList_members entries) as Hmem.
  unfold isSenderAllowed. split.
  - destruct (normalizeAllowList entries) as [|x xs] eqn:Hl; [discriminate|].
    cbn [length Nat.eqb]. rewrite <- Hl in *.
    destruct (includes (normalizeAllowList entries) "*") eqn:Hstar.
    + intros _. apply includes_In, Hmem in Hstar as [_ (e & Hin & He)].
      exists e. rewrite He. repeat split; auto; discriminate.
    + rewrite existsb_exists. intros (x' & Hin & Hx').
      apply Hmem in Hin as [Hne (e & Hin & He)]. exists e. rewrite He.
      split; [exact Hin|]. split; [exact Hne|].
      apply orb_true_iff in Hx' as [Hid|Hname].
      * right. left. now apply String.eqb_eq.
      * right. right. apply andb_true_iff in Hname as [Ht Heq].
        apply String.eqb_eq in Heq.
        destruct senderName as [n|]; [|discriminate Ht].
        destruct (JS.truthy n) eqn:Hn; [|discriminate Ht].
        exists n. repeat split; auto. now apply truthy_iff.
  - intros (e & Hin & Hne & Hcase).
    assert (Hx : In (normalizeAllowEntry e) (normalizeAllowList entries))
      by (apply Hmem; eauto).
    destruct (normalizeAllowList entries) as [|x xs] eqn:Hl; [contradiction|].
    cbn [length Nat.eqb]. rewrite <- Hl in *.
    destruct (includes (normalizeAllowList entries) "*") eqn:Hstar; [reflexivity|].
    rewrite existsb_exists. exists (normalizeAllowEntry e). split; [exact Hx|].
    destruct Hcase as [Hw|[Hid|(n & -> & Hn & Hname)]].
    + rewrite Hw in Hx. apply includes_In in Hx. congruence.
    + rewrite Hid, String.eqb_refl. reflexivity.
    + apply truthy_iff in Hn. rewrite Hn, <- Hname.
      apply truthy_iff in Hne. rewrite Hne, String.eqb_refl. cbn.
      now rewrite orb_true_r.
Qed.

End AllowListFacts.

(** ** Debounced batches *)

Section BatchFacts.

Import Monitor.

Lemma shouldDebounce_text (hasControlCommand : string -> bool) (entry : Entry) :
  shouldDebounce hasControlCommand entry = true ->
  JS.truthy (JS.trim (rawBody entry)) = true /\
  hasControlCommand (JS.trim (rawBody entry)) = false /\
  file (e_msg entry) = None.
Proof.
  unfold shouldDebounce. rewrite trimmedText_rawBody.
  destruct (file (e_msg entry)); [discriminate|].
  destruct (_ || _); [discriminate|].
  destruct (JS.truthy (JS.trim (rawBody entry))); cbn; [|discriminate].
  intros H. apply negb_true_iff in H. auto.
Qed.

Lemma debounced_bodies_kept (hasControlCommand : string -> bool) (entries : list Entry) :
  Forall (fun e => shouldDebounce hasControlCommand e = true) entries ->
  List.filter JS.truthy (map (fun e => JS.trim (rawBody e)) entries)
  = map (fun e => JS.trim (rawBody e)) entries.
Proof.
  induction 1 as [|e entries He _ IH]; cbn; [reflexivity|].
  destruct (shouldDebounce_text _ _ He) as [Ht _]. now rewrite Ht, IH.
Qed.

(** A batch made only of events that [shouldDebounce] accepts loses no
    event's text when it is flushed: the merged text has one non-empty line
    block per event, the trimmed body of that event, in arrival order; and
    flushing an empty batch calls nothing. *)
Theorem debounced_batch_keeps_every_body :
  forall (hasControlCommand : string -> bool) (entries : list Entry),
    Forall (fun e => shouldDebounce hasControlCommand e = true) entries ->
    (1 < length entries)%nat ->
    onFlush [] = [] /\
    exists room m,
      onFlush entries = [(room, m)] /\
      msg m = Some (JS.join JS.LF (map (fun e => JS.trim (rawBody e)) entries)) /\
      Forall (fun e => JS.trim (rawBody e) <> "") entries.
Proof.
  intros hasControlCommand entries Hall Hlen. split; [reflexivity|].
  destruct (last entries) as [lastE|] eqn:Hlast.
  - unfold onFlush. rewrite Hlast.
    destruct (Nat.eqb_spec (length entries) 1) as [Hone|_]; [lia|].
    eexists _, _. split; [reflexivity|]. cbn [msg]. split.
    + rewrite trimmed_bodies_map, (debounced_bodies_kept hasControlCommand) by exact Hall.
      reflexivity.
    + eapply List.Forall_impl; [|exact Hall]. intros e He.
      apply truthy_iff. now destruct (shouldDebounce_text _ _ He).
  - destruct entries; [simpl in Hlen; lia|].
    apply last_None in Hlast. discriminate Hlast.
Qed.

Lemma debounced_batch_keeps_every_body_witness :
  exists room m,
    onFlush [ {| roomId := "GENERAL"; e_msg := textMessage "m1" " one " |};
              {| roomId := "GENERAL"; e_msg := textMessage "m2" "two" |} ]
    = [(room, m)] /\
    msg m = Some ("one" +:+ JS.LF +:+ "two").
Proof.
  destruct (debounced_batch_keeps_every_body (fun _ => false)
              [ {| roomId := "GENERAL"; e_msg := textMessage "m1" " one " |};
                {| roomId := "GENERAL"; e_msg := textMessage "m2" "two" |} ])
    as (_ & room & m & Hcall & Hmsg & _).
  - repeat constructor.
  - simpl. lia.
  - exists room, m. split; [exact Hcall|exact Hmsg].
Defined.

End BatchFacts.

(** ** URL normalisation *)

Section ClientFacts.

Import Client.

#[local] Arguments append !s1 s2 : simpl nomatch.

(** [n] slashes. *)
Fixpoint slashes (n : nat) : string :=
  match n with
  | O => ""
  | S n' => String "/" (slashes n')
  end.

(** No code unit of the string is white space. *)
Fixpoint noWhiteSpace (s : string) : bool :=
  match s with
  | EmptyString => true
  | String c s' => negb (JS.isWhiteSpace c) && noWhiteSpace s'
  end.

Lemma append_nil_r (s : string) : s +:+ "" = s.
Proof. induction s as [|c s IH]; cbn; [reflexivity|]. now rewrite IH. Qed.

Lemma append_assoc (a b c : string) : (a +:+ b) +:+ c = a +:+ (b +:+ c).
Proof. induction a as [|x a IH]; cbn; [reflexivity|]. now rewrite IH. Qed.

Lemma length_append (a b : string) :
  String.length (a +:+ b) = (String.length a + String.length b)%nat.
Proof. induction a as [|x a IH]; cbn; [reflexivity|]. now rewrite IH. Qed.

Lemma length_toLowerCase (s : string) : String.length (JS.toLowerCase s) = String.length s.
Proof. induction s as [|c s IH]; cbn; [reflexivity|]. now rewrite IH. Qed.

Lemma append_nonempty_r (a b : string) : b <> "" -> a +:+ b <> "".
Proof. destruct a; cbn; [auto|discriminate]. Qed.

Lemma trimEnd_noWhiteSpace (y : string) : noWhiteSpace y = true -> JS.trimEnd y = y.
Proof.
  induction y as [|c y IH]; cbn; [reflexivity|].
  intros H. apply andb_true_iff in H as [Hc Hy]. apply negb_true_iff in Hc.
  now rewrite Hc, IH.
Qed.

Lemma trimEnd_app_keep (u y : string) :
  JS.trimEnd y = y -> y <> "" -> JS.trimEnd (u +:+ y) = u +:+ y.
Proof.
  intros Hy Hne. induction u as [|c u IH]; cbn; [exact Hy|].
  rewrite IH.
  destruct (String.eqb_spec (u +:+ y) "") as [He|_];
    [now apply append_nonempty_r in He|].
  now rewrite andb_false_r.
Qed.

(** Appending code units that are not white space to a trimmed, non-empty
    string leaves it trimmed. *)
Lemma trim_app_keep (u y : string) :
  JS.trim u = u -> u <> "" -> noWhiteSpace y = true -> JS.trim (u +:+ y) = u +:+ y.
Proof.
  intros Hu Hne Hy.
  destruct (trim_head u) as [He|(c & r & He & Hc)]; [congruence|].
  rewrite Hu in He. subst u.
  assert (Hend : JS.trimEnd (String c r) = String c r).
  { unfold JS.trim in Hu. cbn [JS.trimStart] in Hu. rewrite Hc in Hu. exact Hu. }
  unfold JS.trim. rewrite append_cons. cbn [JS.trimStart]. rewrite Hc, <- append_cons.
  destruct y as [|d y].
  - rewrite append_nil_r. exact Hend.
  - apply trimEnd_app_keep; [now apply trimEnd_noWhiteSpace|discriminate].
Qed.

Lemma noWhiteSpace_slashes (n : nat) : noWhiteSpace (slashes n) = true.
Proof. induction n; cbn; auto. Qed.

Lemma stripTrailingSlashes_slashes (n : nat) : stripTrailingSlashes (slashes n) = "".
Proof. induction n as [|n IH]; cbn; [reflexivity|]. now rewrite IH. Qed.

Lemma stripTrailingSlashes_app_slashes (u : string) (n : nat) :
  stripTrailingSlashes (u +:+ slashes n) = stripTrailingSlashes u.
Proof.
  induction u as [|c u IH]; cbn; [apply stripTrailingSlashes_slashes|]. now rewrite IH.
Qed.

Lemma stripTrailingSlashes_app_keep (u y : string) :
  stripTrailingSlashes y = y -> y <> "" -> stripTrailingSlashes (u +:+ y) = u +:+ y.
Proof.
  intros Hy Hne. induction u as [|c u IH]; cbn; [exact Hy|].
  rewrite IH.
  destruct (String.eqb_spec (u +:+ y) "") as [He|_];
    [now apply append_nonempty_r in He|].
  now rewrite andb_false_r.
Qed.

Lemma stripApiSuffix_app (u x : string) :
  JS.toLowerCase x = "/api/v1" -> stripApiSuffix (u +:+ x) = u.
Proof.
  intros Hx.
  assert (Hlen : String.length x = 7%nat)
    by (rewrite <- length_toLowerCase, Hx; reflexivity).
  induction u as [|c u IH].
  - cbn [append]. destruct x as [|d x]; [discriminate Hlen|].
    cbn [stripApiSuffix]. now rewrite Hx.
  - cbn [append stripApiSuffix].
    destruct (String.eqb_spec (JS.toLowerCase (String c (u +:+ x))) "/api/v1") as [He|_].
    + apply (f_equal String.length) in He.
      rewrite length_toLowerCase in He. cbn in He. rewrite length_append in He. lia.
    + now rewrite IH.
Qed.

(** A spelling of "/api/v1" does not end in a slash. *)
Lemma stripTrailingSlashes_api (api : string) :
  JS.toLowerCase api = "/api/v1" -> stripTrailingSlashes api = api.
Proof.
  intros Hlower.
  assert (Hlen : String.length api = 7%nat)
    by (rewrite <- length_toLowerCase, Hlower; reflexivity).
  destruct api as [|a0 [|a1 [|a2 [|a3 [|a4 [|a5 [|a6 [|a7 r]]]]]]]];
    try discriminate Hlen.
  cbn [JS.toLowerCase] in Hlower.
  injection Hlower as _ _ _ _ _ _ H6.
  assert (Hlast : Ascii.eqb a6 "/" = false).
  { destruct (Ascii.eqb_spec a6 "/") as [->|_]; [|reflexivity].
    vm_compute in H6. discriminate H6. }
  cbn [stripTrailingSlashes]. rewrite Hlast. cbn [andb String.eqb].
  now rewrite !andb_false_r.
Qed.

(** A base URL is normalised to the same value whether or not it is
    written with trailing slashes, with a trailing "/api/v1" (in any case),
    or with both: for a non-empty, trimmed [u] that has neither, every such
    spelling normalises to [u], and [buildApiUrl] builds the same request
    URL from each of them. *)
Theorem normalizeRocketChatBaseUrl_canonical :
  forall (u api path : string) (n : nat),
    u <> "" -> JS.trim u = u ->
    stripTrailingSlashes u = u -> stripApiSuffix u = u ->
    JS.toLowerCase api = "/api/v1" -> noWhiteSpace api = true ->
    normalizeRocketChatBaseUrl (Some (u +:+ slashes n)) = Some u /\
    normalizeRocketChatBaseUrl (Some (u +:+ api +:+ slashes n)) = Some u /\
    buildApiUrl (u +:+ api +:+ slashes n) path = buildApiUrl u path /\
    buildApiUrl u path
    = Monitor.Returned (u +:+ "/api/v1" +:+ (if String.prefix "/" path then path
                                             else "/" +:+ path)).
Proof.
  intros u api path n Hne Htrim Hslash Hapi Hlower Hws.
  assert (Htruthy : forall y, JS.truthy (u +:+ y) = true).
  { intros y. apply truthy_iff. destruct u; [contradiction|discriminate]. }
  assert (H1 : normalizeRocketChatBaseUrl (Some (u +:+ slashes n)) = Some u).
  { unfold normalizeRocketChatBaseUrl.
    rewrite trim_app_keep by auto using noWhiteSpace_slashes.
    rewrite Htruthy. cbn [negb].
    now rewrite stripTrailingSlashes_app_slashes, Hslash, Hapi. }
  assert (Hapine : api <> "") by (intros ->; discriminate Hlower).
  assert (Hapistrip : stripTrailingSlashes api = api)
    by (now apply stripTrailingSlashes_api).
  assert (H2 : normalizeRocketChatBaseUrl (Some (u +:+ api +:+ slashes n)) = Some u).
  { unfold normalizeRocketChatBaseUrl.
    rewrite trim_app_keep; auto.
    - rewrite Htruthy. cbn [negb].
      rewrite <- append_assoc, stripTrailingSlashes_app_slashes.
      rewrite stripTrailingSlashes_app_keep by assumption.
      now rewrite stripApiSuffix_app.
    - clear -Hws. induction api as [|c api IH]; cbn in *; [apply noWhiteSpace_slashes|].
      apply andb_true_iff in Hws as [Hc Hr]. now rewrite Hc, IH. }
  split; [exact H1|]. split; [exact H2|].
  assert (H0 : normalizeRocketChatBaseUrl (Some u) = Some u).
  { specialize (Htruthy ""). rewrite append_nil_r in Htruthy.
    unfold normalizeRocketChatBaseUrl. rewrite Htrim, Htruthy. cbn [negb].
    now rewrite Hslash, Hapi. }
  unfold buildApiUrl. rewrite H2, H0.
  specialize (Htruthy ""). rewrite append_nil_r in Htruthy. rewrite Htruthy.
  split; reflexivity.
Qed.

Lemma normalizeRocketChatBaseUrl_canonical_witness :
  normalizeRocketChatBaseUrl (Some "https://chat.example.com/API/v1//")
  = Some "https://chat.example.com" /\
  buildApiUrl "https://chat.example.com/API/v1//" "me"
  = Monitor.Returned "https://chat.example.com/api/v1/me".
Proof.
  destruct (normalizeRocketChatBaseUrl_canonical "https://chat.example.com" "/API/v1"
              "me" 2) as (_ & H2 & H3 & H4); try reflexivity; [discriminate|].
  split; [exact H2|]. exact (eq_trans H3 H4).
Defined.

End ClientFacts.

(** ** Outbound targets *)

Section TargetFacts.

Import Monitor Send.

#[local] Arguments append !s1 s2 : simpl nomatch.

Lemma trimStart_trimEnd (s : string) :
  JS.trimStart (JS.trimEnd s) = JS.trimEnd (JS.trimStart s).
Proof.
  induction s as [|c s IH]; [reflexivity|]. cbn [JS.trimStart JS.trimEnd].
  destruct (JS.isWhiteSpace c) eqn:Hc; cbn [andb].
  - destruct (String.eqb_spec (JS.trimEnd s) "") as [He|Hne].
    + rewrite <- IH, He. reflexivity.
    + cbn [JS.trimStart]. rewrite Hc. exact IH.
  - cbn [JS.trimStart JS.trimEnd]. rewrite Hc. reflexivity.
Qed.

Lemma trim_trimEnd (s : string) : JS.trim (JS.trimEnd s) = JS.trim s.
Proof. unfold JS.trim. now rewrite trimStart_trimEnd, trimEnd_idempotent. Qed.

(** The identifier a target carries. *)
Definition targetId (target : RocketChatTarget) : string :=
  match target with
  | ChannelTarget id => id
  | UserIdTarget id => id
  | UsernameTarget username => username
  end.

(** A target that [parseRocketChatTarget] returns never carries a blank
    identifier: the room identifier, user identifier or user name is
    non-empty and has no white space at either end. *)
Theorem parseRocketChatTarget_identifier_nonblank :
  forall (raw : string) (target : RocketChatTarget),
    parseRocketChatTarget raw = Returned target ->
    targetId target <> "" /\ JS.trim (targetId target) = targetId target.
Proof.
  intros raw target. unfold parseRocketChatTarget.
  repeat match goal with
         | |- (if ?c then _ else _) = _ -> _ => destruct c eqn:?
         end;
    intros H; inversion H; subst target; clear H; cbn [targetId];
    repeat match goal with
           | H : negb _ = false |- _ => apply negb_false_iff in H
           end;
    (split; [now apply truthy_iff|apply trim_idempotent]).
Qed.

Lemma parseRocketChatTarget_identifier_nonblank_witness :
  parseRocketChatTarget " User: u42 " = Returned (UserIdTarget "u42") /\
  JS.trim "u42" = "u42".
Proof.
  split; [reflexivity|].
  apply (parseRocketChatTarget_identifier_nonblank " User: u42 " (UserIdTarget "u42")).
  reflexivity.
Defined.

Lemma parseRocketChatTarget_channel (roomId : string) :
  parseRocketChatTarget ("channel:" +:+ roomId)
  = if JS.truthy (JS.trim roomId) then Returned (ChannelTarget (JS.trim roomId))
    else Thrown "Channel id is required".
Proof.
  unfold parseRocketChatTarget. cbv zeta.
  assert (Ht : JS.trim ("channel:" +:+ roomId) = "channel:" +:+ JS.trimEnd roomId)
    by reflexivity.
  assert (Hl : forall y, JS.toLowerCase ("channel:" +:+ y) = "channel:" +:+ JS.toLowerCase y)
    by (intros y; vm_compute; reflexivity).
  assert (Hp : forall z, JS.startsWith ("channel:" +:+ z) "channel:" = true)
    by (intros z; destruct z; reflexivity).
  assert (Hs : forall y, JS.slice (String.length "channel:") ("channel:" +:+ y) = y)
    by reflexivity.
  assert (Hy : forall y, JS.truthy ("channel:" +:+ y) = true) by reflexivity.
  rewrite Ht, Hy, Hl, Hp, Hs, trim_trimEnd. cbn [negb].
  now destruct (JS.truthy (JS.trim roomId)).
Qed.

Lemma parseRocketChatTarget_user (senderId : string) :
  parseRocketChatTarget ("user:" +:+ senderId)
  = if JS.truthy (JS.trim senderId) then Returned (UserIdTarget (JS.trim senderId))
    else Thrown "User id is required".
Proof.
  unfold parseRocketChatTarget. cbv zeta.
  assert (Ht : JS.trim ("user:" +:+ senderId) = "user:" +:+ JS.trimEnd senderId)
    by reflexivity.
  assert (Hl : forall y, JS.toLowerCase ("user:" +:+ y) = "user:" +:+ JS.toLowerCase y)
    by (intros y; vm_compute; reflexivity).
  assert (Hc : forall z, JS.startsWith ("user:" +:+ z) "channel:" = false)
    by (intros z; vm_compute; reflexivity).
  assert (Hp : forall z, JS.startsWith ("user:" +:+ z) "user:" = true)
    by (intros z; destruct z; reflexivity).
  assert (Hs : forall y, JS.slice (String.length "user:") ("user:" +:+ y) = y)
    by reflexivity.
  assert (Hy : forall y, JS.truthy ("user:" +:+ y) = true) by reflexivity.
  rewrite Ht, Hy, Hl, Hc, Hp, Hs, trim_trimEnd. cbn [negb].
  now destruct (JS.truthy (JS.trim senderId)).
Qed.

Variable core : Core.
Variable account : Account.

(** The address [handleMessage] gives a dispatched message as its [To],
    and under which the reply is sent, is read back by
    [parseRocketChatTarget] as the place the message came from: the room of
    a group or channel message, the sender of a direct message, each
    without its outer white space; a reply whose room or sender identifier
    is blank is refused. *)
Theorem reply_address_round_trip :
  forall (now : Z) (recent : Dedupe.Cache) (roomId : string) (m : RocketChatMessage)
         (ctx : InboundContext),
    fst (handleMessage core account now recent roomId m) = Dispatched ctx ->
    parseRocketChatTarget (To ctx)
    = match ChatTypeOf ctx with
      | direct =>
          if JS.truthy (JS.trim (SenderId ctx))
          then Returned (UserIdTarget (JS.trim (SenderId ctx)))
          else Thrown "User id is required"
      | _ =>
          if JS.truthy (JS.trim roomId)
          then Returned (ChannelTarget (JS.trim roomId))
          else Thrown "Channel id is required"
      end.
Proof.
  intros now recent roomId m ctx H.
  destruct (handleMessage_dispatched core account now recent roomId m ctx H)
    as (senderId & _ & _ & Hresp).
  destruct (respond_dispatched core account _ _ _ _ _ _ _ Hresp)
    as (Hsid & _ & _ & Hkind & _ & _ & Hto & _).
  rewrite Hto, Hkind, Hsid.
  destruct (kindOf core roomId);
    [apply parseRocketChatTarget_user|apply parseRocketChatTarget_channel
    |apply parseRocketChatTarget_channel].
Qed.

End TargetFacts.

Section TargetExamples.

Import Monitor Send.

Lemma reply_address_round_trip_witness :
  exists ctx,
    fst (handleMessage (exampleCoreOf "p") aliceOnlyAccount 1000 [] "GROUP1"
           (textMessage "m1" "@claw hi")) = Dispatched ctx /\
    parseRocketChatTarget (To ctx) = Returned (ChannelTarget "GROUP1").
Proof.
  eexists. split; [reflexivity|].
  rewrite (reply_address_round_trip (exampleCoreOf "p") aliceOnlyAccount 1000 []
             "GROUP1" (textMessage "m1" "@claw hi") _ eq_refl).
  reflexivity.
Defined.

End TargetExamples.

(** ** The two allow-list normalisations *)

Section ChannelFacts.

(** The pairing adapter and the DM policy of the plugin (channel.ts)
    normalise an allow-list entry to the same value as the monitor does
    when it matches a sender (monitor.ts), for every entry: what the one
    stores, the other finds. *)
Theorem normalizeAllowEntry_agree :
  forall entry : string, Channel.normalizeAllowEntry entry = Allow.normalizeAllowEntry entry.
Proof.
  intros entry. unfold Channel.normalizeAllowEntry, Allow.normalizeAllowEntry.
  destruct (JS.truthy (JS.trim entry)) eqn:Ht; cbn [negb].
  - destruct (String.eqb_spec (JS.trim entry) "*") as [->|_]; reflexivity.
  - apply negb_false_iff, String.eqb_eq in Ht. now rewrite Ht.
Qed.

End ChannelFacts.

(** ** Account resolution *)

Section AccountFacts.

Import Accounts.

Variable DEFAULT_ACCOUNT_ID : string.
Variable normalizeAccountId : option string -> string.
Variable toSorted : list string -> list string.

(** An environment with none of the variables set. *)
Definition emptyEnv : ProcessEnv :=
  {| ROCKETCHAT_AUTH_TOKEN := None; ROCKETCHAT_USER_ID := None; ROCKETCHAT_URL := None;
     ROCKETCHAT_USERNAME := None; ROCKETCHAT_PASSWORD := None |}.

(** Only the default account reads the environment: every other account
    is resolved from the configuration alone. *)
Theorem environment_only_for_default_account :
  forall (env : ProcessEnv) (cfg : OpenClawConfig) (accountId : option string),
    normalizeAccountId accountId <> DEFAULT_ACCOUNT_ID ->
    resolveRocketChatAccount DEFAULT_ACCOUNT_ID normalizeAccountId env cfg accountId
    = resolveRocketChatAccount DEFAULT_ACCOUNT_ID normalizeAccountId emptyEnv cfg accountId.
Proof.
  intros env cfg accountId H. apply String.eqb_neq in H.
  unfold resolveRocketChatAccount. rewrite H. reflexivity.
Qed.

Lemma truthyOpt_orOpt (a b : option string) :
  JS.truthyOpt (orOpt a b) = JS.truthyOpt a || JS.truthyOpt b.
Proof. unfold orOpt. destruct (JS.truthyOpt a) eqn:Ha; [exact Ha|reflexivity]. Qed.

Lemma sourceOf_none (c e : option string) :
  sourceOf c e = from_none <-> JS.truthyOpt (orOpt c e) = false.
Proof.
  rewrite truthyOpt_orOpt. unfold sourceOf.
  destruct (JS.truthyOpt c), (JS.truthyOpt e); cbn; split; congruence.
Qed.

Lemma sourceOf_config (c e : option string) :
  sourceOf c e = from_config -> orOpt c e = c /\ JS.truthyOpt c = true.
Proof.
  unfold sourceOf, orOpt.
  destruct (JS.truthyOpt c); [now split|]. destruct (JS.truthyOpt e); discriminate.
Qed.

Lemma sourceOf_env (c e : option string) :
  sourceOf c e = from_env -> orOpt c e = e /\ JS.truthyOpt e = true.
Proof.
  unfold sourceOf, orOpt.
  destruct (JS.truthyOpt c); [discriminate|]. destruct (JS.truthyOpt e); [now split|discriminate].
Qed.

Lemma envValue_truthy (allowEnv : bool) (x : option string) :
  JS.truthyOpt (if allowEnv then trimOpt x else None) = true ->
  allowEnv = true /\ (if allowEnv then trimOpt x else None) = trimOpt x.
Proof. destruct allowEnv; [now split|discriminate]. Qed.

(** The reported source of a credential is accurate.  The token (and
    likewise the user identifier) is reported as coming from nowhere
    exactly when it is missing or empty; when it is reported as coming from
    the configuration it is the trimmed, non-empty configured value,
    whatever the environment holds; when it is reported as coming from the
    environment, the account is the default account and the value is the
    trimmed, non-empty environment variable.  Without a source for the
    base URL there is no base URL. *)
Theorem credential_source_is_accurate :
  forall (env : ProcessEnv) (cfg : OpenClawConfig) (accountId : option string),
    let r := resolveRocketChatAccount DEFAULT_ACCOUNT_ID normalizeAccountId env cfg accountId in
    (authTokenSource r = from_none <-> JS.truthyOpt (authToken r) = false) /\
    (authTokenSource r = from_config ->
     authToken r = trimOpt (value (cfg_authToken (config r))) /\
     JS.truthyOpt (authToken r) = true) /\
    (authTokenSource r = from_env ->
     Accounts.accountId r = DEFAULT_ACCOUNT_ID /\
     authToken r = trimOpt (ROCKETCHAT_AUTH_TOKEN env) /\
     JS.truthyOpt (authToken r) = true) /\
    (userIdSource r = from_none <-> JS.truthyOpt (userId r) = false) /\
    (userIdSource r = from_config ->
     userId r = trimOpt (value (cfg_userId (config r))) /\
     JS.truthyOpt (userId r) = true) /\
    (userIdSource r = from_env ->
     Accounts.accountId r = DEFAULT_ACCOUNT_ID /\
     userId r = trimOpt (ROCKETCHAT_USER_ID env) /\
     JS.truthyOpt (userId r) = true) /\
    (baseUrlSource r = from_none -> baseUrl r = None).
Proof.
  intros env cfg accountId r. unfold r, resolveRocketChatAccount.
  cbn [authTokenSource authToken userIdSource userId baseUrlSource baseUrl config
       Accounts.accountId].
  repeat split.
  - apply sourceOf_none.
  - apply sourceOf_none.
  - now apply sourceOf_config.
  - apply sourceOf_config in H as [-> H]. exact H.
  - apply sourceOf_env in H as [_ H]. apply envValue_truthy in H as [H _].
    now apply String.eqb_eq.
  - apply sourceOf_env in H as [-> H]. now apply envValue_truthy in H as [_ ->].
  - apply sourceOf_env in H as [-> H]. exact H.
  - apply sourceOf_none.
  - apply sourceOf_none.
  - now apply sourceOf_config.
  - apply sourceOf_config in H as [-> H]. exact H.
  - apply sourceOf_env in H as [_ H]. apply envValue_truthy in H as [H _].
    now apply String.eqb_eq.
  - apply sourceOf_env in H as [-> H]. now apply envValue_truthy in H as [_ ->].
  - apply sourceOf_env in H as [-> H]. exact H.
  - intros H. apply sourceOf_none in H.
    destruct (orOpt _ _) as [u|]; [|reflexivity].
    cbn in H. apply negb_false_iff, String.eqb_eq in H. subst u. reflexivity.
Qed.

Lemma filter_none {A : Type} (f : A -> bool) (l : list A) :
  (forall x, In x l -> f x = false) -> List.filter f l = [].
Proof.
  induction l as [|x l IH]; intros H; [reflexivity|]. cbn.
  rewrite (H x (or_introl eq_refl)). apply IH. intros y Hy. apply H. now right.
Qed.

(** Switching the channel off switches every account off: with
    [channels.rocketchat.enabled] set to [false], each account resolves as
    disabled, also one whose own [enabled] is [true], and no account is
    listed as enabled. *)
Theorem channel_disabled_disables_every_account :
  forall (env : ProcessEnv) (section : RocketChatSection) (accountId : option string),
    value (cfg_enabled (base section)) = Some false ->
    enabled (resolveRocketChatAccount DEFAULT_ACCOUNT_ID normalizeAccountId env (Some section)
               accountId) = false /\
    listEnabledRocketChatAccounts DEFAULT_ACCOUNT_ID normalizeAccountId toSorted env
      (Some section) = [].
Proof.
  intros env section accountId H.
  assert (Hall : forall id,
             enabled (resolveRocketChatAccount DEFAULT_ACCOUNT_ID normalizeAccountId env
                        (Some section) id) = false).
  { intros id. unfold resolveRocketChatAccount. cbn [enabled]. now rewrite H. }
  split; [apply Hall|].
  unfold listEnabledRocketChatAccounts. apply filter_none.
  intros x Hx. apply in_map_iff in Hx as (id & <- & _). apply Hall.
Qed.

(** Whether a group message needs a mention is decided by the chat mode
    when one is set, at the account or else at the channel level, and by
    [requireMention] only without one: no mention is required exactly in
    "onmessage" mode, or without a mode when [requireMention] is [false];
    the environment plays no part. *)
Theorem group_require_mention_follows_chatmode :
  forall (env : ProcessEnv) (cfg : OpenClawConfig) (accountId : option string),
    let merged := mergeRocketChatAccountConfig cfg (normalizeAccountId accountId) in
    (resolveRocketChatGroupRequireMention DEFAULT_ACCOUNT_ID normalizeAccountId env cfg
       accountId = false <->
     value (cfg_chatmode merged) = Some Monitor.onmessage \/
     (value (cfg_chatmode merged) = None /\
      value (cfg_requireMention merged) = Some false)) /\
    requireMention (resolveRocketChatAccount DEFAULT_ACCOUNT_ID normalizeAccountId env cfg
                      accountId)
    = resolveRocketChatRequireMention merged /\
    chatmode (resolveRocketChatAccount DEFAULT_ACCOUNT_ID normalizeAccountId env cfg accountId)
    = value (cfg_chatmode merged).
Proof.
  intros env cfg accountId merged.
  unfold resolveRocketChatGroupRequireMention, resolveRocketChatAccount.
  cbn [requireMention chatmode]. fold merged.
  unfold resolveRocketChatRequireMention.
  split; [|split; reflexivity].
  destruct (value (cfg_chatmode merged)) as [[| |]|];
    [| | |destruct (value (cfg_requireMention merged)) as [[|]|]];
    split; try discriminate; try tauto;
    intros [Hm|[Hm Hr]]; congruence.
Qed.

Hypothesis toSorted_permutation : forall ids, Permutation (toSorted ids) ids.

(** The list of account identifiers is never empty, the default account
    identifier is one of the listed ones, and it is [DEFAULT_ACCOUNT_ID]
    whenever that is listed; a listed identifier is [DEFAULT_ACCOUNT_ID]
    or a non-empty key of [accounts]. *)
Theorem default_account_id_is_listed :
  forall cfg : OpenClawConfig,
    let ids := listRocketChatAccountIds DEFAULT_ACCOUNT_ID toSorted cfg in
    let chosen := resolveDefaultRocketChatAccountId DEFAULT_ACCOUNT_ID toSorted cfg in
    ids <> [] /\
    In chosen ids /\
    (In DEFAULT_ACCOUNT_ID ids -> chosen = DEFAULT_ACCOUNT_ID) /\
    (forall id, In id ids ->
                id = DEFAULT_ACCOUNT_ID \/
                (id <> "" /\
                 exists section entries c,
                   cfg = Some section /\ accounts section = Some entries /\
                   In (id, c) entries)).
Proof.
  intros cfg ids chosen.
  assert (Hne : ids <> []).
  { unfold ids, listRocketChatAccountIds.
    destruct (listConfiguredAccountIds cfg) as [|x xs] eqn:Hc; [discriminate|].
    cbn [length Nat.eqb]. intros Hs.
    pose proof (toSorted_permutation (x :: xs)) as Hp. rewrite Hs in Hp.
    now apply Permutation_nil in Hp. }
  split; [exact Hne|]. split; [|split].
  - unfold chosen, resolveDefaultRocketChatAccountId. fold ids.
    destruct (Allow.includes ids DEFAULT_ACCOUNT_ID) eqn:Hi.
    + now apply includes_In.
    + destruct ids as [|id rest]; [contradiction|now left].
  - intros Hin. unfold chosen, resolveDefaultRocketChatAccountId. fold ids.
    apply includes_In in Hin. now rewrite Hin.
  - intros id Hin. unfold ids, listRocketChatAccountIds in Hin.
    destruct (listConfiguredAccountIds cfg) as [|x xs] eqn:Hc.
    + left. destruct Hin as [<-|[]]. reflexivity.
    + right. cbn [length Nat.eqb] in Hin.
      apply (Permutation_in _ (toSorted_permutation (x :: xs))) in Hin.
      rewrite <- Hc in Hin. unfold listConfiguredAccountIds in Hin.
      destruct cfg as [section|]; [|contradiction].
      destruct (accounts section) as [entries|] eqn:Ha; [|contradiction].
      apply filter_In in Hin as [Hin Ht]. apply in_map_iff in Hin as ([k c] & Hk & Hin).
      cbn in Hk. subst k. split; [now apply truthy_iff|].
      exists section, entries, c. auto.
Qed.

End AccountFacts.

Section AccountExamples.

Import Accounts.

(** An SDK whose default account is "default" and whose normalisation
    keeps a given identifier. *)
Definition exampleNormalizeAccountId (accountId : option string) : string :=
  match accountId with
  | Some id => if JS.truthy (JS.trim id) then JS.toLowerCase (JS.trim id) else "default"
  | None => "default"
  end.

Definition exampleEnv : ProcessEnv :=
  {| ROCKETCHAT_AUTH_TOKEN := Some "env-token"; ROCKETCHAT_USER_ID := Some "env-user";
     ROCKETCHAT_URL := Some "https://env.example.com"; ROCKETCHAT_USERNAME := None;
     ROCKETCHAT_PASSWORD := None |}.

(** The channel is switched off; the account "work" is switched on. *)
Definition exampleSection : RocketChatSection :=
  {| base :=
       {| cfg_enabled := Some (Some false); cfg_name := None; cfg_authToken := None;
          cfg_userId := None; cfg_username := None; cfg_password := None;
          cfg_baseUrl := Some (Some "https://chat.example.com/"); cfg_chatmode := None;
          cfg_oncharPrefixes := None; cfg_requireMention := None;
          cfg_textChunkLimit := None; cfg_blockStreaming := None |};
     accounts :=
       Some [("work",
              {| cfg_enabled := Some (Some true); cfg_name := None;
                 cfg_authToken := Some (Some " work-token "); cfg_userId := None;
                 cfg_username := None; cfg_password := None; cfg_baseUrl := None;
                 cfg_chatmode := Some (Some Monitor.onmessage);
                 cfg_oncharPrefixes := None; cfg_requireMention := Some (Some true);
                 cfg_textChunkLimit := None; cfg_blockStreaming := None |})] |}.

Lemma environment_only_for_default_account_witness :
  authToken (resolveRocketChatAccount "default" exampleNormalizeAccountId exampleEnv
               (Some exampleSection) (Some "work")) = Some "work-token" /\
  userId (resolveRocketChatAccount "default" exampleNormalizeAccountId exampleEnv
            (Some exampleSection) (Some "work")) = None.
Proof.
  rewrite (environment_only_for_default_account "default" exampleNormalizeAccountId
             exampleEnv (Some exampleSection) (Some "work"))
    by (vm_compute; discriminate).
  split; reflexivity.
Defined.

Lemma channel_disabled_disables_every_account_witness :
  enabled (resolveRocketChatAccount "default" exampleNormalizeAccountId exampleEnv
             (Some exampleSection) (Some "work")) = false.
Proof.
  apply (channel_disabled_disables_every_account "default" exampleNormalizeAccountId
           (fun ids => ids) exampleEnv exampleSection (Some "work")).
  reflexivity.
Defined.

Lemma default_account_id_is_listed_witness :
  In (resolveDefaultRocketChatAccountId "default" (fun ids => ids) (Some exampleSection))
     (listRocketChatAccountIds "default" (fun ids => ids) (Some exampleSection)).
Proof.
  apply (default_account_id_is_listed "default" (fun ids => ids)).
  intros ids. apply Permutation_refl.
Defined.

End AccountExamples.

(** ** Debounce keys *)

Section BatchKeyFacts.

Import Monitor.

(** The thread an event belongs to: its trimmed, non-empty [tmid]. *)
Definition threadOf (entry : Entry) : option string :=
  match tmid (e_msg entry) with
  | Some t => if JS.truthy (JS.trim t) then Some (JS.trim t) else None
  | None => None
  end.

Lemma split_at_separator (c : ascii) (a b x y : string) :
  hasChar c a = false -> hasChar c b = false ->
  a +:+ String c x = b +:+ String c y -> a = b /\ x = y.
Proof.
  revert b. induction a as [|d a IH]; intros [|e b] Ha Hb H.
  - injection H as H. now split.
  - change (String e b +:+ String c y) with (String e (b +:+ String c y)) in H.
    change ("" +:+ String c x) with (String c x) in H.
    injection H as He _. subst e. cbn [hasChar] in Hb.
    now rewrite Ascii.eqb_refl in Hb.
  - change (String d a +:+ String c x) with (String d (a +:+ String c x)) in H.
    change ("" +:+ String c y) with (String c y) in H.
    injection H as Hd _. subst d. cbn [hasChar] in Ha.
    now rewrite Ascii.eqb_refl in Ha.
  - change (String d a +:+ String c x) with (String d (a +:+ String c x)) in H.
    change (String e b +:+ String c y) with (String e (b +:+ String c y)) in H.
    injection H as Hd H. subst e.
    cbn [hasChar] in Ha, Hb.
    apply orb_false_iff in Ha as [_ Ha]. apply orb_false_iff in Hb as [_ Hb].
    destruct (IH b Ha Hb H) as [-> ->]. now split.
Qed.

(** Two events of one account get the same debounce key only if they come
    from the same room and the same thread (or both from no thread), room
    identifiers being free of colons: events of different rooms or threads
    are never batched together. *)
Theorem debounce_key_separates_rooms_and_threads :
  forall (accountId : string) (e1 e2 : Entry),
    hasChar ":" (roomId e1) = false ->
    hasChar ":" (roomId e2) = false ->
    Provider.buildKey accountId e1 = Provider.buildKey accountId e2 ->
    roomId e1 = roomId e2 /\ threadOf e1 = threadOf e2.
Proof.
  intros accountId e1 e2 H1 H2 H. unfold Provider.buildKey in H. cbv zeta in H.
  apply (String.app_inj "rocketchat:") in H. apply (String.app_inj accountId) in H.
  apply (String.app_inj ":") in H.
  change (":" +:+ ?k) with (String ":" k) in H.
  apply (split_at_separator ":" _ _ _ _ H1 H2) in H as [Hroom Hkey].
  split; [exact Hroom|]. unfold threadOf.
  destruct (tmid (e_msg e1)) as [t1|], (tmid (e_msg e2)) as [t2|];
    cbn [option_map JS.truthyOpt] in Hkey;
    try destruct (JS.truthy (JS.trim t1)); try destruct (JS.truthy (JS.trim t2));
    try reflexivity; try discriminate Hkey.
  apply (String.app_inj "thread:") in Hkey. now rewrite Hkey.
Qed.

Lemma debounce_key_separates_rooms_and_threads_witness :
  Provider.buildKey "default" {| roomId := "GENERAL"; e_msg := textMessage "m1" "one" |}
  = Provider.buildKey "default" {| roomId := "GENERAL"; e_msg := textMessage "m2" "two" |} /\
  threadOf {| roomId := "GENERAL"; e_msg := textMessage "m1" "one" |}
  = threadOf {| roomId := "GENERAL"; e_msg := textMessage "m2" "two" |}.
Proof.
  split; [reflexivity|].
  apply (debounce_key_separates_rooms_and_threads "default"
           {| roomId := "GENERAL"; e_msg := textMessage "m1" "one" |}
           {| roomId := "GENERAL"; e_msg := textMessage "m2" "two" |});
    reflexivity.
Defined.

End BatchKeyFacts.
